(** * vserver control plane: a shallow embedding of [apps/control-plane/src/index.ts]

    The development follows the TypeScript source function by function.

    Conventions of the embedding.
    - A JavaScript string is the [string] of the bytes of its UTF-8 text: a
      character of ASCII is one byte, a character outside ASCII is a byte
      outside ASCII followed by the bytes that continue it, and a surrogate
      without its pair is written on three bytes as any other code unit is.
      The literals and the patterns of the source are ASCII.  The white
      space and the line terminators outside ASCII are recognised by their
      bytes ([Js.wideSpaces], [Js.lineTerminators]); the case of a character
      outside ASCII is a field of [Js.CaseTables].
    - A JavaScript number is an IEEE binary64 value, [spec_float] at precision
      53 and maximal exponent 1024.
    - [undefined] is [None]; a value parsed from JSON is a [JValue].
    - Built-ins whose result the source only passes around ([JSON.parse],
      [Date.parse], [toISOString], [new URL], [process.env], the conversion
      between numbers and their decimal text) are the fields of [Runtime].
    - A statement that can throw is written in the [Completion] monad and a
      [try]/[catch] is [catch]. *)

From Stdlib Require Import ZArith List Bool Lia Ascii String.
From Stdlib Require Import Floats.SpecFloat.
From stdpp Require Import base option list gmap strings.

Set Default Proof Using "Type".

(** ** ECMAScript string built-ins *)

Module Js.

Definition code (c : ascii) : nat := nat_of_ascii c.

Definition between (lo hi : nat) (c : ascii) : bool :=
  (lo <=? code c) && (code c <=? hi).

Definition isDigit : ascii -> bool := between 48 57.
Definition isLower : ascii -> bool := between 97 122.
Definition isUpper : ascii -> bool := between 65 90.

(** A byte of ASCII is a character by itself. *)
Definition isAscii (c : ascii) : bool := code c <? 128.

(** A byte that continues the character begun before it. *)
Definition isContinuation : ascii -> bool := between 128 191.

(** The white space of the ASCII range: TAB, LF, VT, FF, CR and SPACE. *)
Definition isSpace (c : ascii) : bool := between 9 13 c || (code c =? 32).

(** The case of a letter of ASCII. *)
Definition lowerChar (c : ascii) : ascii :=
  if isUpper c then ascii_of_nat (code c + 32) else c.

Definition upperChar (c : ascii) : ascii :=
  if isLower c then ascii_of_nat (code c - 32) else c.

Fixpoint map (f : ascii -> ascii) (s : string) : string :=
  match s with
  | EmptyString => EmptyString
  | String c s' => String (f c) (map f s')
  end.

Fixpoint all (p : ascii -> bool) (s : string) : bool :=
  match s with
  | EmptyString => true
  | String c s' => p c && all p s'
  end.

Definition isEmpty (s : string) : bool :=
  match s with EmptyString => true | _ => false end.

Fixpoint filter (p : ascii -> bool) (s : string) : string :=
  match s with
  | EmptyString => EmptyString
  | String c s' => if p c then String c (filter p s') else filter p s'
  end.

Fixpoint dropWhile (p : ascii -> bool) (s : string) : string :=
  match s with
  | EmptyString => EmptyString
  | String c s' => if p c then dropWhile p s' else s
  end.

Fixpoint takeWhile (p : ascii -> bool) (s : string) : string :=
  match s with
  | EmptyString => EmptyString
  | String c s' => if p c then String c (takeWhile p s') else EmptyString
  end.

(** Removes the longest suffix whose characters all satisfy [p]. *)
Fixpoint dropWhileEnd (p : ascii -> bool) (s : string) : string :=
  match s with
  | EmptyString => EmptyString
  | String c s' =>
      let r := dropWhileEnd p s' in
      if p c && isEmpty r then EmptyString else String c r
  end.

Fixpoint startsWith (p s : string) : bool :=
  match p, s with
  | EmptyString, _ => true
  | String a p', String b s' => bool_decide (a = b) && startsWith p' s'
  | String _ _, EmptyString => false
  end.

(** The suffixes of [s] are [s] itself and the suffixes of its tail. *)
Fixpoint endsWith (suffix s : string) : bool :=
  bool_decide (s = suffix) ||
  match s with
  | EmptyString => false
  | String _ s' => endsWith suffix s'
  end.

Fixpoint includes (sub s : string) : bool :=
  startsWith sub s ||
  match s with
  | EmptyString => false
  | String _ s' => includes sub s'
  end.

Fixpoint drop (n : nat) (s : string) : string :=
  match n, s with
  | O, _ => s
  | S n', String _ s' => drop n' s'
  | S _, EmptyString => EmptyString
  end.

Fixpoint take (n : nat) (s : string) : string :=
  match n, s with
  | O, _ => EmptyString
  | S n', String c s' => String c (take n' s')
  | S _, EmptyString => EmptyString
  end.

(** [s.split(sep)] for a one-character separator: never the empty list. *)
Fixpoint split (sep : ascii) (s : string) : list string :=
  match s with
  | EmptyString => [EmptyString]
  | String c s' =>
      if bool_decide (c = sep) then EmptyString :: split sep s'
      else match split sep s' with
           | [] => [String c EmptyString]
           | w :: ws => String c w :: ws
           end
  end.

(** [parts.join(sep)]. *)
Fixpoint join (sep : string) (parts : list string) : string :=
  match parts with
  | [] => EmptyString
  | [p] => p
  | p :: ps => p +:+ sep +:+ join sep ps
  end.

(** [a || b] on strings: the empty string is falsy. *)
Definition orElse (a b : string) : string := if isEmpty a then b else a.

(** [/literal/i] for a [literal] of ASCII: a character outside ASCII is
    the same as no letter of ASCII, whatever its case mappings (the
    canonicalisation of a pattern without the flag [u]). *)
Definition asciiLower : string -> string := map lowerChar.

(** *** Positions in a text

    A pattern that tests more than one byte is a test on the text that
    starts at a position. *)

(** The longest prefix before a position at which [stop] holds. *)
Fixpoint takeUntil (stop : string -> bool) (s : string) : string :=
  match s with
  | EmptyString => EmptyString
  | String c s' => if stop s then EmptyString else String c (takeUntil stop s')
  end.

(** The text from the first position at which [stop] holds. *)
Fixpoint dropUntil (stop : string -> bool) (s : string) : string :=
  match s with
  | EmptyString => EmptyString
  | String _ s' => if stop s then s else dropUntil stop s'
  end.

(** [p] holds at some position of the text. *)
Fixpoint anywhere (p : string -> bool) (s : string) : bool :=
  p s ||
  match s with
  | EmptyString => false
  | String _ s' => anywhere p s'
  end.

(** *** White space

    [WhiteSpace] and [LineTerminator] of ECMAScript, which [trim], [\s] and
    [Number] share. *)

Definition ofBytes (codes : list nat) : string :=
  fold_right (fun n s => String (ascii_of_nat n) s) EmptyString codes.

(** The white space outside ASCII: U+00A0, U+1680, U+2000 to U+200A,
    U+2028, U+2029, U+202F, U+205F, U+3000 and U+FEFF. *)
Definition wideSpaces : list string :=
  [ ofBytes [194; 160]; ofBytes [225; 154; 128];
    ofBytes [226; 128; 128]; ofBytes [226; 128; 129]; ofBytes [226; 128; 130];
    ofBytes [226; 128; 131]; ofBytes [226; 128; 132]; ofBytes [226; 128; 133];
    ofBytes [226; 128; 134]; ofBytes [226; 128; 135]; ofBytes [226; 128; 136];
    ofBytes [226; 128; 137]; ofBytes [226; 128; 138];
    ofBytes [226; 128; 168]; ofBytes [226; 128; 169]; ofBytes [226; 128; 175];
    ofBytes [226; 129; 159]; ofBytes [227; 128; 128]; ofBytes [239; 187; 191] ].

(** The number of bytes of the white space a text starts with, 0 for a
    text that starts with none. *)
Definition spaceWidth (s : string) : nat :=
  match s with
  | EmptyString => 0
  | String c _ =>
      if isSpace c then 1
      else match List.find (fun w => startsWith w s) wideSpaces with
           | Some w => String.length w
           | None => 0
           end
  end.

Definition startsSpace (s : string) : bool := negb (spaceWidth s =? 0).

(** The text after its leading white space; [skip] bytes of a white space
    already recognised are still to be passed. *)
Fixpoint dropSpaces (skip : nat) (s : string) : string :=
  match s with
  | EmptyString => EmptyString
  | String _ s' =>
      match skip with
      | S k => dropSpaces k s'
      | O =>
          match spaceWidth s with
          | S k => dropSpaces k s'
          | O => s
          end
      end
  end.

Definition trimStart : string -> string := dropSpaces 0.

(** A text of white space only. *)
Definition isBlank (s : string) : bool := isEmpty (trimStart s).

(** The text before the white space it ends with. *)
Fixpoint trimEnd (s : string) : string :=
  match s with
  | EmptyString => EmptyString
  | String c s' => if isBlank s then EmptyString else String c (trimEnd s')
  end.

Definition trim (s : string) : string := trimEnd (trimStart s).

(** The line terminators, which [.] does not match: LF, CR, U+2028 and
    U+2029. *)
Definition lineTerminators : list string :=
  [ ofBytes [10]; ofBytes [13]; ofBytes [226; 128; 168]; ofBytes [226; 128; 169] ].

Definition startsTerminator (s : string) : bool :=
  existsb (fun t => startsWith t s) lineTerminators.

(** *** Code units *)

(** The surrogate that comes first in the pair of a character of four
    bytes, on three bytes. *)
Definition highSurrogate (s : string) : string :=
  match s with
  | String a (String b (String c _)) =>
      let top := (code a mod 8) * 256 + (code b mod 64) * 4 + (code c mod 64) / 16 in
      let unit := 216 * 256 + (top - 64) in
      ofBytes [237; 128 + unit / 64 mod 64; 128 + unit mod 64]
  | _ => s
  end.

(** [s.slice(0, n)]: the first [n] code units.  A character of one, two or
    three bytes is one code unit and a character of four bytes is two, of
    which the slice can keep the first. *)
Fixpoint takeUnits (n : nat) (s : string) : string :=
  match s with
  | EmptyString => EmptyString
  | String c s' =>
      if isContinuation c then String c (takeUnits n s')
      else
        match n with
        | O => EmptyString
        | S n' =>
            if code c <? 240 then String c (takeUnits n' s')
            else
              match n' with
              | O => highSurrogate s
              | S n'' => String c (takeUnits n'' s')
              end
        end
  end.

(** A surrogate without its pair, at the start of a text. *)
Definition startsSurrogate (s : string) : bool :=
  match s with
  | String a (String b (String c _)) =>
      (code a =? 237) && between 160 191 b && isContinuation c
  | _ => false
  end.

(** The bytes [Buffer.from(s, "utf8")] and [hmac.update(s)] read: U+FFFD
    stands for a surrogate without its pair. *)
Fixpoint utf8From (skip : nat) (s : string) : string :=
  match s with
  | EmptyString => EmptyString
  | String c s' =>
      match skip with
      | S k => utf8From k s'
      | O =>
          if startsSurrogate s then ofBytes [239; 191; 189] +:+ utf8From 2 s'
          else String c (utf8From 0 s')
      end
  end.

Definition utf8 : string -> string := utf8From 0.

(** *** The case of a text

    [toLowerCase] and [toUpperCase] go through the text character by
    character: a byte of ASCII is mapped as a letter of ASCII, and a
    character outside ASCII, that is a byte outside ASCII and the bytes
    that continue it, is mapped by [wide], which is given the text before
    the character and the text after it as well (the lower case of a sigma
    depends on them).  [pending] is the character that is being read. *)

Section Case.

Variable narrow : ascii -> ascii.
Variable wide : string -> string -> string -> string.

Fixpoint caseFrom (before : string) (pending : option string) (s : string) : string :=
  match s with
  | EmptyString =>
      match pending with
      | Some ch => wide before ch EmptyString
      | None => EmptyString
      end
  | String c s' =>
      if isContinuation c then
        caseFrom before (Some (default EmptyString pending +:+ String c EmptyString)) s'
      else
        let mapped :=
          match pending with
          | Some ch => wide before ch s
          | None => EmptyString
          end in
        let before' := before +:+ default EmptyString pending in
        mapped +:+
        (if isAscii c
         then String (narrow c) (caseFrom (before' +:+ String c EmptyString) None s')
         else caseFrom before' (Some (String c EmptyString)) s')
  end.

End Case.

(** The case mappings of the characters outside ASCII, which are those of
    the version of Unicode of the engine. *)
Class CaseTables : Type := {
  (** the lower case of a character, between the text before it and the
      text after it *)
  lowerOf : string -> string -> string -> string;
  (** the upper case of a character *)
  upperOf : string -> string;
  (** The lower case of a character outside ASCII holds lower-case letters
      of ASCII and characters outside ASCII. *)
  lowerOf_letters : forall before ch after,
    all (fun c => negb (isAscii c)) ch = true ->
    all (fun c => isLower c || negb (isAscii c)) (lowerOf before ch after) = true;
  (** A text in upper case is its own upper case. *)
  upperOf_idempotent : forall s,
    caseFrom upperChar (fun _ ch _ => upperOf ch) EmptyString None
      (caseFrom upperChar (fun _ ch _ => upperOf ch) EmptyString None s) =
    caseFrom upperChar (fun _ ch _ => upperOf ch) EmptyString None s;
}.

Definition toLowerCase {tables : CaseTables} (s : string) : string :=
  caseFrom lowerChar lowerOf EmptyString None s.

Definition toUpperCase {tables : CaseTables} (s : string) : string :=
  caseFrom upperChar (fun _ ch _ => upperOf ch) EmptyString None s.

End Js.

(** ** Slug normalisation *)

Definition isLowerAlnum (c : ascii) : bool := Js.isLower c || Js.isDigit c.
Definition isDash (c : ascii) : bool := bool_decide (c = "-"%char).
Definition isSlugChar (c : ascii) : bool := isLowerAlnum c || isDash c.

(** [.replace(/[^a-z0-9]+/g, "-")]: every maximal run of characters outside
    [[a-z0-9]] becomes one dash.  [inRun] records that the previous character
    belonged to the run being replaced. *)
Fixpoint replaceNonAlnumRuns (inRun : bool) (s : string) : string :=
  match s with
  | EmptyString => EmptyString
  | String c s' =>
      if isLowerAlnum c then String c (replaceNonAlnumRuns false s')
      else if inRun then replaceNonAlnumRuns true s'
      else String "-" (replaceNonAlnumRuns true s')
  end.

(** [.replace(/^-+|-+$/g, "")]: the run of dashes at the start and the run
    of dashes at the end are removed; [$] is the end of the input. *)
Definition stripEdgeDashes (s : string) : string :=
  Js.dropWhileEnd isDash (Js.dropWhile isDash s).

(** index.ts, [normalizeProject]. *)
Definition normalizeProject {tables : Js.CaseTables} (input : string) : string :=
  stripEdgeDashes
    (replaceNonAlnumRuns false (Js.toLowerCase (Js.trim input))).


(** ** Exceptions *)

Inductive JsError : Set := SyntaxError | TypeError | RangeError.

(** The outcome of evaluating a statement: a value, or a thrown error. *)
Inductive Completion (A : Type) : Type :=
| Normal (a : A)
| Throw (e : JsError).
Arguments Normal {A} a.
Arguments Throw {A} e.

#[global] Instance Completion_ret : MRet Completion := fun A a => Normal a.

#[global] Instance Completion_bind : MBind Completion := fun A B f c =>
  match c with
  | Normal a => f a
  | Throw e => Throw e
  end.

#[global] Instance Completion_fmap : FMap Completion := fun A B f c =>
  match c with
  | Normal a => Normal (f a)
  | Throw e => Throw e
  end.

(** [try { body } catch { handler }]. *)
Definition catch {A : Type} (body : Completion A) (handler : Completion A) : Completion A :=
  match body with
  | Normal a => Normal a
  | Throw _ => handler
  end.

(** ** Numbers *)

Module Num.

Definition prec : Z := 53.
Definition emax : Z := 1024.

(** The binary64 value nearest to an integer. *)
Definition ofZ (z : Z) : spec_float := binary_normalize prec emax z 0 false.

Definition isFinite (x : spec_float) : bool :=
  match x with
  | S754_zero _ | S754_finite _ _ _ => true
  | S754_infinity _ | S754_nan => false
  end.

Definition isNaN (x : spec_float) : bool :=
  match x with S754_nan => true | _ => false end.

(** [Math.trunc] of a finite number, as an integer. *)
Definition truncZ (x : spec_float) : Z :=
  match x with
  | S754_finite s m e =>
      let magnitude := if (0 <=? e)%Z then (Z.pos m * 2 ^ e)%Z
                       else (Z.pos m / 2 ^ (- e))%Z in
      if s then (- magnitude)%Z else magnitude
  | _ => 0%Z
  end.

(** [Math.floor] of a finite number, as an integer. *)
Definition floorZ (x : spec_float) : Z :=
  match x with
  | S754_finite s m e =>
      let signed := if s then Z.neg m else Z.pos m in
      if (0 <=? e)%Z then (signed * 2 ^ e)%Z else (signed / 2 ^ (- e))%Z
  | _ => 0%Z
  end.

Definition ltb : spec_float -> spec_float -> bool := SFltb.
Definition mul : spec_float -> spec_float -> spec_float := SFmul prec emax.
Definition sub : spec_float -> spec_float -> spec_float := SFsub prec emax.
Definition div : spec_float -> spec_float -> spec_float := SFdiv prec emax.

(** A number is falsy when it is zero or NaN. *)
Definition truthy (x : spec_float) : bool :=
  match x with
  | S754_zero _ | S754_nan => false
  | _ => true
  end.

(** [TimeClip]: the time value of [new Date(x)], [None] for an invalid date. *)
Definition timeClip (x : spec_float) : option Z :=
  if isFinite x then
    let t := truncZ x in
    if (Z.abs t <=? 8640000000000000)%Z then Some t else None
  else None.

End Num.

(** ** Values parsed from JSON *)

#[warning="-register-all"]
Inductive JValue : Type :=
| JNull
| JBool (b : bool)
| JNumber (n : spec_float)
| JString (s : string)
| JArray (items : list JValue)
| JObject (fields : list (string * JValue)).

(** ** The runtime the program runs on *)

Class Runtime : Type := {
  (** [toLowerCase] and [toUpperCase] outside ASCII *)
  caseTables :: Js.CaseTables;
  (** [process.env] *)
  env : string -> option string;
  (** [os.hostname()] *)
  os_hostname : string;
  (** [JSON.parse]; [None] is a [SyntaxError]. *)
  JSON_parse : string -> option JValue;
  (** [Number(s)] for a string [s]. *)
  Number_ofString : string -> spec_float;
  (** [String(n)], also what a template literal does to a number. *)
  Number_toString : spec_float -> string;
  (** [Date.parse]; [None] is [NaN]. *)
  Date_parse : string -> option Z;
  (** [new Date(v).getTime()] for an array or an object [v]. *)
  Date_ofObject : JValue -> option Z;
  (** [toISOString] of a valid time value. *)
  Date_toISOString : Z -> string;
  (** [Date.now()], by the number of earlier readings of the clock. *)
  Date_now : nat -> Z;
  (** [new URL(s).hostname]; [None] is a [TypeError]. *)
  URL_hostname : string -> option string;
  (** [randomUUID()], by the number of earlier draws. *)
  randomUUID : nat -> string;
}.

(** ** SHA-256 and HMAC ([node:crypto], FIPS 180-4 and RFC 2104)

    Words are integers below 2^32; a message and a digest are strings of
    bytes. *)

Module Sha256.

Local Open Scope Z_scope.

Definition wrap (x : Z) : Z := x mod 4294967296.
Definition add (x y : Z) : Z := wrap (x + y).
Definition rotr (n x : Z) : Z := Z.lor (Z.shiftr x n) (wrap (Z.shiftl x (32 - n))).
Definition Ch (x y z : Z) : Z := Z.lxor (Z.land x y) (Z.land (wrap (Z.lnot x)) z).
Definition Maj (x y z : Z) : Z := Z.lxor (Z.lxor (Z.land x y) (Z.land x z)) (Z.land y z).
Definition bigSigma0 (x : Z) : Z := Z.lxor (Z.lxor (rotr 2 x) (rotr 13 x)) (rotr 22 x).
Definition bigSigma1 (x : Z) : Z := Z.lxor (Z.lxor (rotr 6 x) (rotr 11 x)) (rotr 25 x).
Definition smallSigma0 (x : Z) : Z := Z.lxor (Z.lxor (rotr 7 x) (rotr 18 x)) (Z.shiftr x 3).
Definition smallSigma1 (x : Z) : Z := Z.lxor (Z.lxor (rotr 17 x) (rotr 19 x)) (Z.shiftr x 10).

(** The round constants of FIPS 180-4, section 4.2.2, in decimal. *)
Definition K : list Z :=
  [
    1116352408; 1899447441; 3049323471; 3921009573; 961987163; 1508970993;
    2453635748; 2870763221; 3624381080; 310598401; 607225278; 1426881987;
    1925078388; 2162078206; 2614888103; 3248222580; 3835390401; 4022224774;
    264347078; 604807628; 770255983; 1249150122; 1555081692; 1996064986;
    2554220882; 2821834349; 2952996808; 3210313671; 3336571891; 3584528711;
    113926993; 338241895; 666307205; 773529912; 1294757372; 1396182291;
    1695183700; 1986661051; 2177026350; 2456956037; 2730485921; 2820302411;
    3259730800; 3345764771; 3516065817; 3600352804; 4094571909; 275423344;
    430227734; 506948616; 659060556; 883997877; 958139571; 1322822218;
    1537002063; 1747873779; 1955562222; 2024104815; 2227730452; 2361852424;
    2428436474; 2756734187; 3204031479; 3329325298
  ].

Record State : Set := mkState { sa : Z; sb : Z; sc : Z; sd : Z; se : Z; sf : Z; sg : Z; sh : Z }.

Definition initial : State :=
  mkState 0x6a09e667 0xbb67ae85 0x3c6ef372 0xa54ff53a 0x510e527f 0x9b05688c 0x1f83d9ab 0x5be0cd19.

(** The message schedule: [n] more words after the ones in [w]. *)
Fixpoint schedule (n : nat) (w : list Z) : list Z :=
  match n with
  | O => w
  | S n' =>
      let t := length w in
      let word (back : nat) := nth (t - back) w 0 in
      schedule n'
        (w ++ [add (add (smallSigma1 (word 2%nat)) (word 7%nat))
                   (add (smallSigma0 (word 15%nat)) (word 16%nat))])
  end.

Definition round (s : State) (kw : Z * Z) : State :=
  let t1 := add (add (add (add (sh s) (bigSigma1 (se s))) (Ch (se s) (sf s) (sg s))) (fst kw)) (snd kw) in
  let t2 := add (bigSigma0 (sa s)) (Maj (sa s) (sb s) (sc s)) in
  mkState (add t1 t2) (sa s) (sb s) (sc s) (add (sd s) t1) (se s) (sf s) (sg s).

Definition compress (H : State) (block : list Z) : State :=
  let s := fold_left round (combine K (schedule 48 block)) H in
  mkState (add (sa H) (sa s)) (add (sb H) (sb s)) (add (sc H) (sc s)) (add (sd H) (sd s))
          (add (se H) (se s)) (add (sf H) (sf s)) (add (sg H) (sg s)) (add (sh H) (sh s)).

Fixpoint bytesOf (s : string) : list Z :=
  match s with
  | EmptyString => []
  | String c s' => Z.of_nat (nat_of_ascii c) :: bytesOf s'
  end.

Definition byteChar (b : Z) : ascii := ascii_of_nat (Z.to_nat (b mod 256)).

Fixpoint stringOf (bytes : list Z) : string :=
  match bytes with
  | [] => EmptyString
  | b :: bs => String (byteChar b) (stringOf bs)
  end.

(** Padding: the bit 1, zeros up to 56 modulo 64, the bit length on 8 bytes. *)
Definition pad (msg : list Z) : list Z :=
  let len := Z.of_nat (length msg) in
  let zeros := Z.to_nat ((55 - len) mod 64) in
  let bits := 8 * len in
  msg ++ [128] ++ repeat 0 zeros ++
  List.map (fun i => Z.shiftr bits (8 * (7 - Z.of_nat i)) mod 256) (seq 0 8).

(** Big-endian words of four bytes. *)
Fixpoint words (fuel : nat) (bytes : list Z) : list Z :=
  match fuel, bytes with
  | S fuel', b0 :: b1 :: b2 :: b3 :: rest =>
      (((b0 * 256 + b1) * 256 + b2) * 256 + b3) :: words fuel' rest
  | _, _ => []
  end.

Fixpoint blocks (fuel : nat) (ws : list Z) : list (list Z) :=
  match fuel with
  | O => []
  | S fuel' =>
      match ws with
      | [] => []
      | _ => firstn 16 ws :: blocks fuel' (skipn 16 ws)
      end
  end.

Definition wordBytes (w : Z) : list Z :=
  [Z.shiftr w 24 mod 256; Z.shiftr w 16 mod 256; Z.shiftr w 8 mod 256; w mod 256].

Definition digestBytes (s : State) : list Z :=
  wordBytes (sa s) ++ wordBytes (sb s) ++ wordBytes (sc s) ++ wordBytes (sd s) ++
  wordBytes (se s) ++ wordBytes (sf s) ++ wordBytes (sg s) ++ wordBytes (sh s).

Definition hashBytes (msg : list Z) : list Z :=
  let padded := pad msg in
  let ws := words (length padded) padded in
  digestBytes (fold_left compress (blocks (length ws) ws) initial).

(** The 32-byte digest of a message. *)
Definition hash (msg : string) : string := stringOf (hashBytes (bytesOf msg)).

Definition blockSize : nat := 64.

Definition hmacBytes (key msg : list Z) : list Z :=
  let key0 := if (blockSize <? length key)%nat then hashBytes key else key in
  let keyBlock := key0 ++ repeat 0 (blockSize - length key0) in
  let inner := List.map (Z.lxor 0x36) keyBlock in
  let outer := List.map (Z.lxor 0x5c) keyBlock in
  hashBytes (outer ++ hashBytes (inner ++ msg)).

(** [createHmac("sha256", key).update(msg).digest()] *)
Definition hmac (key msg : string) : string :=
  stringOf (hmacBytes (bytesOf key) (bytesOf msg)).

End Sha256.

(** ** Hexadecimal encoding ([Buffer]) *)

Module Hex.

Definition digit (n : nat) : ascii :=
  if (n <? 10)%nat then ascii_of_nat (48 + n) else ascii_of_nat (87 + n).

(** The value of a hexadecimal digit of either case. *)
Definition value (c : ascii) : option nat :=
  let n := nat_of_ascii c in
  if Js.isDigit c then Some (n - 48)%nat
  else if Js.between 97 102 c then Some (n - 87)%nat
  else if Js.between 65 70 c then Some (n - 55)%nat
  else None.

Definition isHexDigit (c : ascii) : bool :=
  match value c with Some _ => true | None => false end.

(** [buffer.toString("hex")], [digest("hex")]: lower-case digits. *)
Fixpoint encode (bytes : string) : string :=
  match bytes with
  | EmptyString => EmptyString
  | String c rest =>
      let n := nat_of_ascii c in
      String (digit (n / 16)) (String (digit (n mod 16)) (encode rest))
  end.

(** [Buffer.from(text, "hex")]: decoding stops at the first pair that is not
    two hexadecimal digits. *)
Fixpoint decode (text : string) : string :=
  match text with
  | String a (String b rest) =>
      match value a, value b with
      | Some x, Some y => String (ascii_of_nat (16 * x + y)) (decode rest)
      | _, _ => EmptyString
      end
  | _ => EmptyString
  end.

End Hex.

(** ** JSON texts *)

Module Json.

Definition quoteChar : ascii := "034".
Definition backslash : ascii := "092".

(** [QuoteJSONString], one character. *)
Definition escapeChar (c : ascii) : string :=
  let n := nat_of_ascii c in
  let esc (d : ascii) := String backslash (String d EmptyString) in
  if (n =? 8)%nat then esc "b"%char
  else if (n =? 9)%nat then esc "t"%char
  else if (n =? 10)%nat then esc "n"%char
  else if (n =? 12)%nat then esc "f"%char
  else if (n =? 13)%nat then esc "r"%char
  else if (n =? 34)%nat then esc quoteChar
  else if (n =? 92)%nat then esc backslash
  else if (n <? 32)%nat then
    String backslash (String "u" (String "0" (String "0"
      (String (Hex.digit (n / 16)) (String (Hex.digit (n mod 16)) EmptyString)))))
  else String c EmptyString.

(** [QuoteJSONString], a surrogate without its pair: the escape of its
    code unit, from [\ud800] to [\udfff]. *)
Definition escapeSurrogate (s : string) : string :=
  match s with
  | String _ (String b (String c _)) =>
      let low := (nat_of_ascii b mod 64) * 64 + nat_of_ascii c mod 64 in
      String backslash (String "u" (String "d"
        (String (Hex.digit (low / 256)) (String (Hex.digit (low / 16 mod 16))
           (String (Hex.digit (low mod 16)) EmptyString)))))
  | _ => EmptyString
  end.

(** [skip] bytes of a surrogate already escaped are still to be passed. *)
Fixpoint escapeFrom (skip : nat) (s : string) : string :=
  match s with
  | EmptyString => EmptyString
  | String c s' =>
      match skip with
      | S k => escapeFrom k s'
      | O =>
          if Js.startsSurrogate s then escapeSurrogate s +:+ escapeFrom 2 s'
          else escapeChar c +:+ escapeFrom 0 s'
      end
  end.

Definition escape : string -> string := escapeFrom 0.

Definition quote (s : string) : string :=
  String quoteChar (escape s +:+ String quoteChar EmptyString).

(** [JSON.stringify(v)] without indentation; [numberText] prints a finite
    number, and a number that is not finite prints as [null]. *)
Fixpoint stringify (numberText : spec_float -> string) (v : JValue) : string :=
  match v with
  | JNull => "null"
  | JBool true => "true"
  | JBool false => "false"
  | JNumber n => if Num.isFinite n then numberText n else "null"
  | JString s => quote s
  | JArray items =>
      "[" +:+ Js.join "," (List.map (stringify numberText) items) +:+ "]"
  | JObject fields =>
      "{" +:+ Js.join ","
        (List.map (fun kv => match kv with
                             | (k, x) => quote k +:+ ":" +:+ stringify numberText x
                             end) fields) +:+ "}"
  end.

(** *** A parser for a fragment of JSON

    The fragment: objects, arrays, strings with the two-character escapes,
    [true], [false], [null] and integer literals.  A text outside the
    fragment (a fraction or an exponent, a [\u] escape, a key made of digits,
    whose position in the object JavaScript would change) is [Unsupported],
    a text that is not JSON is [Malformed]. *)

Inductive Outcome (A : Type) : Type :=
| Parsed (a : A) (rest : string)
| Malformed
| Unsupported.
Arguments Parsed {A} a rest.
Arguments Malformed {A}.
Arguments Unsupported {A}.

Definition isJsonSpace (c : ascii) : bool :=
  let n := nat_of_ascii c in
  (n =? 32)%nat || (n =? 9)%nat || (n =? 10)%nat || (n =? 13)%nat.

Definition skipSpace : string -> string := Js.dropWhile isJsonSpace.

(** The characters of a string literal after its opening quote. *)
Fixpoint stringBody (s : string) : Outcome string :=
  match s with
  | EmptyString => Malformed
  | String c s' =>
      if bool_decide (c = quoteChar) then Parsed EmptyString s'
      else if bool_decide (c = backslash) then
        match s' with
        | EmptyString => Malformed
        | String d s'' =>
            let continue (x : ascii) :=
              match stringBody s'' with
              | Parsed body rest => Parsed (String x body) rest
              | Malformed => Malformed
              | Unsupported => Unsupported
              end in
            if bool_decide (d = quoteChar) then continue quoteChar
            else if bool_decide (d = backslash) then continue backslash
            else if bool_decide (d = "/"%char) then continue "/"%char
            else if bool_decide (d = "b"%char) then continue "008"%char
            else if bool_decide (d = "f"%char) then continue "012"%char
            else if bool_decide (d = "n"%char) then continue "010"%char
            else if bool_decide (d = "r"%char) then continue "013"%char
            else if bool_decide (d = "t"%char) then continue "009"%char
            else if bool_decide (d = "u"%char) then Unsupported
            else Malformed
        end
      else if (nat_of_ascii c <? 32)%nat then Malformed
      else
        match stringBody s' with
        | Parsed body rest => Parsed (String c body) rest
        | Malformed => Malformed
        | Unsupported => Unsupported
        end
  end.

Fixpoint digitsValue (acc : Z) (s : string) : Z :=
  match s with
  | EmptyString => acc
  | String c s' => digitsValue (10 * acc + Z.of_nat (nat_of_ascii c - 48)) s'
  end.

(** An integer literal: an optional minus, then [0] or digits without a
    leading zero. *)
Definition number (s : string) : Outcome JValue :=
  let negative := Js.startsWith "-" s in
  let s1 := if negative then Js.drop 1 s else s in
  let digits := Js.takeWhile Js.isDigit s1 in
  let rest := Js.dropWhile Js.isDigit s1 in
  if Js.isEmpty digits then Malformed
  else if Js.startsWith "0" digits && negb (bool_decide (digits = "0")) then Malformed
  else if Js.startsWith "." rest || Js.startsWith "e" rest || Js.startsWith "E" rest
  then Unsupported
  else
    let magnitude := Num.ofZ (digitsValue 0 digits) in
    Parsed (JNumber (if negative then SFopp magnitude else magnitude)) rest.

(** [obj[k] = v] while the object is built: a repeated key keeps its place
    and takes the later value. *)
Fixpoint setField (k : string) (v : JValue) (fields : list (string * JValue))
  : list (string * JValue) :=
  match fields with
  | [] => [(k, v)]
  | (k', v') :: rest =>
      if bool_decide (k' = k) then (k, v) :: rest
      else (k', v') :: setField k v rest
  end.

Definition isIndexKey (k : string) : bool := negb (Js.isEmpty k) && Js.all Js.isDigit k.

(** The elements of an array after [[]; [s] starts at an element. *)
Fixpoint elements (value : string -> Outcome JValue) (fuel : nat)
    (acc : list JValue) (s : string) : Outcome JValue :=
  match fuel with
  | O => Unsupported
  | S fuel' =>
      match value s with
      | Parsed v rest =>
          match skipSpace rest with
          | String c rest' =>
              if bool_decide (c = ","%char) then elements value fuel' (acc ++ [v]) rest'
              else if bool_decide (c = "]"%char) then Parsed (JArray (acc ++ [v])) rest'
              else Malformed
          | EmptyString => Malformed
          end
      | Malformed => Malformed
      | Unsupported => Unsupported
      end
  end.

(** The members of an object after [{]; [s] starts at a key. *)
Fixpoint members (value : string -> Outcome JValue) (fuel : nat)
    (acc : list (string * JValue)) (s : string) : Outcome JValue :=
  match fuel with
  | O => Unsupported
  | S fuel' =>
      match skipSpace s with
      | String q s1 =>
          if bool_decide (q = quoteChar) then
            match stringBody s1 with
            | Parsed k s2 =>
                match skipSpace s2 with
                | String colon s3 =>
                    if bool_decide (colon = ":"%char) then
                      match value s3 with
                      | Parsed v rest =>
                          if isIndexKey k then Unsupported
                          else
                            match skipSpace rest with
                            | String c rest' =>
                                if bool_decide (c = ","%char)
                                then members value fuel' (setField k v acc) rest'
                                else if bool_decide (c = "}"%char)
                                then Parsed (JObject (setField k v acc)) rest'
                                else Malformed
                            | EmptyString => Malformed
                            end
                      | Malformed => Malformed
                      | Unsupported => Unsupported
                      end
                    else Malformed
                | EmptyString => Malformed
                end
            | Malformed => Malformed
            | Unsupported => Unsupported
            end
          else Malformed
      | EmptyString => Malformed
      end
  end.

(** A value, after optional white space. *)
Fixpoint value (fuel : nat) (s : string) : Outcome JValue :=
  match fuel with
  | O => Unsupported
  | S fuel' =>
      match skipSpace s with
      | EmptyString => Malformed
      | String c rest =>
          if bool_decide (c = "{"%char) then
            match skipSpace rest with
            | String d rest' =>
                if bool_decide (d = "}"%char) then Parsed (JObject []) rest'
                else members (value fuel') fuel' [] rest
            | EmptyString => Malformed
            end
          else if bool_decide (c = "["%char) then
            match skipSpace rest with
            | String d rest' =>
                if bool_decide (d = "]"%char) then Parsed (JArray []) rest'
                else elements (value fuel') fuel' [] rest
            | EmptyString => Malformed
            end
          else if bool_decide (c = quoteChar) then
            match stringBody rest with
            | Parsed body rest' => Parsed (JString body) rest'
            | Malformed => Malformed
            | Unsupported => Unsupported
            end
          else if Js.startsWith "true" (String c rest) then Parsed (JBool true) (Js.drop 4 (String c rest))
          else if Js.startsWith "false" (String c rest) then Parsed (JBool false) (Js.drop 5 (String c rest))
          else if Js.startsWith "null" (String c rest) then Parsed JNull (Js.drop 4 (String c rest))
          else number (String c rest)
      end
  end.

(** [JSON.parse(text)] on the fragment. *)
Definition parse (text : string) : Outcome JValue :=
  match value (S (String.length text)) text with
  | Parsed v rest =>
      if Js.isEmpty (skipSpace rest) then Parsed v EmptyString else Malformed
  | Malformed => Malformed
  | Unsupported => Unsupported
  end.

End Json.

(** ** Shell words

    Token recognition and quote removal of the POSIX shell (XCU 2.2, 2.3 and
    2.6.7) on the fragment without expansions: a text in which [$], a
    backquote, a pattern character or a comment occurs outside single quotes
    is outside the fragment, and so is an unterminated quotation. *)

Module Sh.

Inductive Token : Set :=
| Word (w : string)
| Op (o : string)
| Newline.

Inductive Mode : Set := Plain | Single | Double.

Definition isBlank (c : ascii) : bool :=
  bool_decide (c = " "%char) || bool_decide (c = "009"%char).

Definition isNewline (c : ascii) : bool := bool_decide (c = "010"%char).

Definition isOperatorChar (c : ascii) : bool :=
  Js.includes (String c EmptyString) "|&;()<>".

(** Unquoted characters that start an expansion, a pattern or a comment. *)
Definition isExpansionChar (c : ascii) : bool :=
  Js.includes (String c EmptyString) "$`*?~#{}".

Definition isTwoCharOperator (c d : ascii) : bool :=
  existsb (fun o => bool_decide (o = String c (String d EmptyString)))
    ["||"; "&&"; ";;"; "<<"; ">>"; "<&"; ">&"; "<>"; ">|"].

(** Escapable after a backslash inside double quotes. *)
Definition isDoubleQuoteEscapable (c : ascii) : bool :=
  bool_decide (c = "$"%char) || bool_decide (c = "`"%char) ||
  bool_decide (c = Json.quoteChar) || bool_decide (c = Json.backslash).

(** A character that stands for itself outside quotes. *)
Definition isOrdinaryChar (c : ascii) : bool :=
  negb (isBlank c || isNewline c || bool_decide (c = "'"%char) ||
        bool_decide (c = Json.quoteChar) || bool_decide (c = Json.backslash) ||
        isOperatorChar c || isExpansionChar c).

Definition push (cur : option string) (c : ascii) : option string :=
  Some (default EmptyString cur +:+ String c EmptyString).

Definition flush (cur : option string) (ts : list Token) : list Token :=
  match cur with
  | Some w => Word w :: ts
  | None => ts
  end.

(** The tokens of [s]; [cur] is the word being read, if any. *)
Fixpoint lex (m : Mode) (cur : option string) (s : string) : option (list Token) :=
  match m, s with
  | Plain, EmptyString => Some (flush cur [])
  | Plain, String c s' =>
      if isBlank c then ts ← lex Plain None s'; Some (flush cur ts)
      else if isNewline c then ts ← lex Plain None s'; Some (flush cur (Newline :: ts))
      else if bool_decide (c = "'"%char) then lex Single (Some (default EmptyString cur)) s'
      else if bool_decide (c = Json.quoteChar) then lex Double (Some (default EmptyString cur)) s'
      else if bool_decide (c = Json.backslash) then
        match s' with
        | EmptyString => None
        | String d s'' => if isNewline d then lex Plain cur s'' else lex Plain (push cur d) s''
        end
      else if isOperatorChar c then
        match s' with
        | String d s'' =>
            if isTwoCharOperator c d
            then ts ← lex Plain None s''; Some (flush cur (Op (String c (String d EmptyString)) :: ts))
            else ts ← lex Plain None s'; Some (flush cur (Op (String c EmptyString) :: ts))
        | EmptyString => Some (flush cur [Op (String c EmptyString)])
        end
      else if isExpansionChar c then None
      else lex Plain (push cur c) s'
  | Single, EmptyString => None
  | Single, String c s' =>
      if bool_decide (c = "'"%char) then lex Plain cur s'
      else lex Single (push cur c) s'
  | Double, EmptyString => None
  | Double, String c s' =>
      if bool_decide (c = Json.quoteChar) then lex Plain cur s'
      else if bool_decide (c = Json.backslash) then
        match s' with
        | EmptyString => None
        | String d s'' =>
            if isDoubleQuoteEscapable d then lex Double (push cur d) s''
            else if isNewline d then lex Double cur s''
            else lex Double (push cur c) s'
        end
      else if bool_decide (c = "$"%char) || bool_decide (c = "`"%char) then None
      else lex Double (push cur c) s'
  end.

Definition tokens (script : string) : option (list Token) := lex Plain None script.

End Sh.

(** ** Dynamic values *)

(** [v ?? d]: [undefined] and [null] give way to the default. *)
Definition nullish (v : option JValue) : option JValue :=
  match v with
  | Some JNull => None
  | _ => v
  end.

Definition orDefault (v : option JValue) (d : JValue) : JValue := default d (nullish v).

Definition getField (k : string) (fields : list (string * JValue)) : option JValue :=
  snd <$> List.find (fun kv => bool_decide (fst kv = k)) fields.

(** [v.k] for the property names the program reads: [null] has no
    properties, and only an object parsed from JSON has these. *)
Definition prop (v : JValue) (k : string) : Completion (option JValue) :=
  match v with
  | JNull => Throw TypeError
  | JObject fields => Normal (getField k fields)
  | _ => Normal None
  end.

(** [v?.k] *)
Definition optProp (v : option JValue) (k : string) : option JValue :=
  match nullish v with
  | Some (JObject fields) => getField k fields
  | _ => None
  end.

Definition truthy (v : JValue) : bool :=
  match v with
  | JNull => false
  | JBool b => b
  | JNumber n => Num.truthy n
  | JString s => negb (Js.isEmpty s)
  | JArray _ | JObject _ => true
  end.

(** [typeof v === "string" ? v : undefined] *)
Definition asString (v : option JValue) : option string :=
  match v with
  | Some (JString s) => Some s
  | _ => None
  end.

(** The receiver of a string method ([trim], [toUpperCase], ...): a value
    that is not a string has no such method. *)
Definition stringMethodReceiver (v : JValue) : Completion string :=
  match v with
  | JString s => Normal s
  | _ => Throw TypeError
  end.

(** ** The records of index.ts *)

Record AutoDeployProjectConfig : Type := {
  projectName : string;
  projectSlug : string;
  repository : string;
  repositoryCanonical : string;
  branch : string;
  repoPath : string;
  deployCommand : string;
  environment : string;
  remoteHost : option string;
  domains : list string;
}.

Record AutoDeployContext : Type := {
  ctx_repositoryName : string;
  ctx_repositoryFullName : string;
  ctx_branch : string;
  ctx_commitHash : JValue;
  ctx_commitMessage : string;
  ctx_pusher : string;
}.

Inductive DeploymentSource : Set := ServerTracker.

(** [Deployment]: a field copied from the tracker line keeps whatever JSON
    value the line had. *)
Record Deployment : Type := {
  dep_deploymentId : string;
  dep_environment : JValue;
  dep_status : JValue;
  dep_duration : JValue;
  dep_projectName : string;
  dep_branch : JValue;
  dep_commitHash : JValue;
  dep_commitMessage : JValue;
  dep_trackedAt : JValue;
  dep_commitAt : option JValue;
  dep_createdRelative : string;
  dep_author : string;
  dep_serverHost : JValue;
  dep_source : DeploymentSource;
}.

Record ParsedRequestLogLine : Type := {
  line_timestamp : option string;
  line_method : string;
  line_statusCode : option Z;
  line_host : string;
  line_path : string;
  line_message : string;
  line_remoteAddr : option string;
  line_projectHint : option string;
}.

Inductive RequestLogSource : Set := ServerAccessLog.

Record RequestLogEntry : Type := {
  log_logId : string;
  log_timestamp : string;
  log_method : string;
  log_statusCode : option Z;
  log_host : string;
  log_path : string;
  log_message : string;
  log_projectSlug : string;
  log_projectName : string;
  log_remoteAddr : option string;
  log_source : RequestLogSource;
}.

(** A job of the auto-deploy queue: [job_after] is the position, in the
    list of scheduled jobs, of the job whose promise it is chained to. *)
Record AutoDeployJob : Type := {
  job_id : string;
  job_queueKey : string;
  job_project : AutoDeployProjectConfig;
  job_context : AutoDeployContext;
  job_after : option nat;
}.

(** The mutable state of the process: [autoDeployQueues] maps a queue key to
    the job whose promise the map holds. *)
Record ServerState : Type := {
  autoDeployQueues : gmap string nat;
  scheduled : list AutoDeployJob;
  uuidsDrawn : nat;
}.

Definition initialState : ServerState :=
  {| autoDeployQueues := ∅; scheduled := []; uuidsDrawn := 0 |}.

Inductive HeaderValue : Type :=
| HeaderOne (value : string)
| HeaderMany (values : list string).

Record WebhookRequest : Type := {
  query_token : option string;
  headers : gmap string HeaderValue;
  body : option JValue;
}.

(** The body of a reply of the webhook; [BodyFailure] is the body the
    framework sends, with the status 500, when the handler throws. *)
Inductive ReplyBody : Type :=
| BodyError (error : string)
| BodyOk (message : string)
| BodyIgnored (reason : string)
| BodyQueued (jobId projectName branch repository : string)
| BodyFailure (thrown : JsError).

Record Reply : Type := { reply_code : nat; reply_body : ReplyBody }.

(** ** Pure functions of index.ts *)

Definition newline : string := String "010" EmptyString.

Definition fallbackProjectSlug : string := "kani-taxi".
Definition fallbackProjectName : string := "KANI TAXI".

Section Pure.

Context {tables : Js.CaseTables}.

(** index.ts, [mapAuthor]. *)
Definition mapAuthor (author : string) : string :=
  if Js.includes "hello-cms-ai" (Js.toLowerCase author) then "vserver" else author.

(** index.ts, [hostFromEnv]. *)
Definition hostFromEnv (hostInput : option string) : string :=
  let value := Js.trim (default EmptyString hostInput) in
  if bool_decide (value = "") || bool_decide (value = "0.0.0.0") || bool_decide (value = "::")
  then "localhost" else value.

(** [.replace(/\.git$/i, "")] *)
Definition stripGitSuffix (s : string) : string :=
  if Js.endsWith ".git" (Js.asciiLower s) then Js.take (String.length s - 4) s else s.

(** [.split("/").filter((segment) => segment.length > 0).at(-1)] *)
Definition lastNonEmptySegment (s : string) : option string :=
  last (List.filter (fun segment => negb (Js.isEmpty segment)) (Js.split "/" s)).

(** index.ts, [canonicalRepoName]. *)
Definition canonicalRepoName (input : string) : string :=
  let trimmed := stripGitSuffix (Js.trim input) in
  let lastSegment := default trimmed (lastNonEmptySegment trimmed) in
  Js.filter isLowerAlnum (Js.toLowerCase lastSegment).

(** index.ts, [asNonEmptyString]. *)
Definition asNonEmptyString (value : option JValue) : string :=
  match asString value with
  | Some s => Js.trim s
  | None => EmptyString
  end.

(** [.replace(/^https?:\/\//, "")] *)
Definition stripScheme (s : string) : string :=
  if Js.startsWith "http://" s then Js.drop 7 s
  else if Js.startsWith "https://" s then Js.drop 8 s
  else s.

(** [.replace(/\/.*$/, "")]: the match starts at the first slash that no
    line terminator follows, since [.] stops at a line terminator and [$] is
    the end of the input. *)
Fixpoint stripPath (s : string) : string :=
  match s with
  | EmptyString => EmptyString
  | String c s' =>
      if bool_decide (c = "/"%char) && negb (Js.anywhere Js.startsTerminator s')
      then EmptyString
      else String c (stripPath s')
  end.

(** [.replace(/:\d+$/, "")] *)
Fixpoint stripPort (s : string) : string :=
  match s with
  | EmptyString => EmptyString
  | String c s' =>
      if bool_decide (c = ":"%char) && negb (Js.isEmpty s') && Js.all Js.isDigit s'
      then EmptyString
      else String c (stripPort s')
  end.

(** index.ts, [normalizeHost]. *)
Definition normalizeHost (rawHost : string) : string :=
  stripPort (stripPath (stripScheme (Js.toLowerCase (Js.trim rawHost)))).

(** index.ts, [asDomainList]. *)
Definition asDomainList (value : option JValue) : list string :=
  let values : list (option JValue) :=
    match value with
    | Some (JArray items) => List.map Some items
    | _ => [value]
    end in
  List.filter (fun entry => negb (Js.isEmpty entry))
    (List.map normalizeHost
       (flat_map (fun entry => match asString entry with
                               | Some s => Js.split "," s
                               | None => []
                               end) values)).

(** [[...new Set(xs)]]: the first occurrence of each element, in order. *)
Fixpoint dedupe (xs : list string) : list string :=
  match xs with
  | [] => []
  | x :: rest => x :: List.filter (fun y => negb (bool_decide (y = x))) (dedupe rest)
  end.

(** index.ts, [extractHeaderValue]. *)
Definition extractHeaderValue (value : option HeaderValue) : string :=
  match value with
  | Some (HeaderMany values) => Js.trim (default EmptyString (head values))
  | Some (HeaderOne v) => Js.trim v
  | None => Js.trim EmptyString
  end.

(** index.ts, [branchFromRef]; the argument is [payload.ref] as received. *)
Definition branchFromRef (ref : option JValue) : Completion string :=
  raw ← stringMethodReceiver (orDefault ref (JString ""));
  let rawRef := Js.trim raw in
  let prefix := "refs/heads/" in
  if negb (Js.startsWith prefix rawRef) then Normal EmptyString
  else Normal (Js.drop (String.length prefix) rawRef).

(** [.replace(/'/g, `'"'"'`)] *)
Fixpoint escapeSingleQuotes (s : string) : string :=
  match s with
  | EmptyString => EmptyString
  | String c s' =>
      if bool_decide (c = "'"%char)
      then String "'" (String Json.quoteChar (String "'" (String Json.quoteChar
             (String "'" (escapeSingleQuotes s')))))
      else String c (escapeSingleQuotes s')
  end.

(** index.ts, [shellQuote]. *)
Definition shellQuote (input : string) : string :=
  "'" +:+ escapeSingleQuotes input +:+ "'".

(** index.ts, [buildAutoDeployScript]. *)
Definition buildAutoDeployScript (project : AutoDeployProjectConfig) (branch : string) : string :=
  let escapedRepoPath := shellQuote (repoPath project) in
  let escapedBranch := shellQuote branch in
  let escapedOriginRef := shellQuote ("origin/" +:+ branch) in
  let escapedDeployCommand := shellQuote (deployCommand project) in
  Js.join newline
    [ "set -euo pipefail";
      "cd " +:+ escapedRepoPath;
      "git fetch origin " +:+ escapedBranch;
      "git checkout " +:+ escapedBranch +:+ " || git checkout -b " +:+ escapedBranch +:+ " " +:+ escapedOriginRef;
      "git reset --hard " +:+ escapedOriginRef;
      "if [[ -x ./deploy-with-track.sh ]]; then";
      "  ./deploy-with-track.sh bash -lc " +:+ escapedDeployCommand;
      "else";
      "  bash -lc " +:+ escapedDeployCommand;
      "fi" ].

(** index.ts, [projectSlugCanonicalValue]. *)
Definition projectSlugCanonicalValue (projectSlug : string) : string :=
  Js.filter isLowerAlnum (Js.toLowerCase projectSlug).

(** [/^\d{1,3}(\.\d{1,3}){3}$/.test(s)] *)
Definition isDottedQuad (s : string) : bool :=
  let group (g : string) :=
    (1 <=? String.length g) && (String.length g <=? 3) && Js.all Js.isDigit g in
  match Js.split "." s with
  | [a; b; c; d] => group a && group b && group c && group d
  | _ => false
  end.

(** index.ts, [extractHostFromQuotedFields]. *)
Fixpoint extractHostFromQuotedFields (quotedFields : list string) : string :=
  match quotedFields with
  | [] => EmptyString
  | field :: rest =>
      let value := Js.trim field in
      if Js.isEmpty value || bool_decide (value = "-") then extractHostFromQuotedFields rest
      else if Js.includes " " value then extractHostFromQuotedFields rest
      else
        let normalized := normalizeHost value in
        let looksLikeHost :=
          bool_decide (normalized = "localhost") || isDottedQuad normalized ||
          Js.includes "." normalized in
        if negb (Js.isEmpty normalized) && looksLikeHost then normalized
        else extractHostFromQuotedFields rest
  end.

(** The capture of [/^\/(?:api\/)?v1\/([^/]+)/] *)
Definition controlPlaneRoot (path : string) : option string :=
  let capture (rest : string) :=
    let root := Js.takeWhile (fun c => negb (bool_decide (c = "/"%char))) rest in
    if Js.isEmpty root then None else Some root in
  if Js.startsWith "/api/v1/" path then capture (Js.drop 8 path)
  else if Js.startsWith "/v1/" path then capture (Js.drop 4 path)
  else None.

(** index.ts, [isControlPlaneRequestPath]. *)
Definition isControlPlaneRequestPath (pathValue : string) : bool :=
  let normalizedPath :=
    default EmptyString (head (Js.split "?" (Js.toLowerCase (Js.trim pathValue)))) in
  if Js.isEmpty normalizedPath then false
  else
    match controlPlaneRoot normalizedPath with
    | None => bool_decide (normalizedPath = "/v1") || bool_decide (normalizedPath = "/api/v1")
    | Some root =>
        bool_decide (root = "projects") || bool_decide (root = "logs") ||
        bool_decide (root = "webhooks") || bool_decide (root = "deployments") ||
        bool_decide (root = "oauth")
    end.

Definition isLetter (c : ascii) : bool := Js.isLower c || Js.isUpper c.

(** index.ts, [parseRequestLine]: [/^([A-Z]+)\s+(\S+)/i] on the trimmed
    text, the method and the path; with [i] the class [[A-Z]] is the
    letters of ASCII. *)
Definition parseRequestLine (rawValue : string) : string * string :=
  let text := Js.trim rawValue in
  let method := Js.takeWhile isLetter text in
  let afterMethod := Js.dropWhile isLetter text in
  let afterSpace := Js.trimStart afterMethod in
  let path := Js.takeUntil Js.startsSpace afterSpace in
  if Js.isEmpty method || negb (Js.startsSpace afterMethod) || Js.isEmpty path then ("GET", "/")
  else (Js.toUpperCase method, path).

End Pure.

(** ** The module and its functions that depend on the runtime *)

Section Model.

Context {rt : Runtime}.

(** [JSON.stringify(value)] *)
Definition JSON_stringify (value : JValue) : string := Json.stringify Number_toString value.

(** [Number(raw)] for [raw: string | undefined]: [undefined] is [NaN]. *)
Definition toNumber (raw : option string) : spec_float :=
  match raw with
  | Some s => Number_ofString s
  | None => S754_nan
  end.

(** *** Module constants, in the order of the source *)

Definition remoteTrackerHost : option string := env "DEPLOY_TRACKER_REMOTE_HOST".

Definition localServerHost : string :=
  default os_hostname (env "CONTROL_PLANE_SERVER_HOST").

Definition controlPlanePublicUrl : string :=
  default
    ("http://" +:+ hostFromEnv (env "CONTROL_PLANE_HOST") +:+ ":" +:+
     Number_toString (match env "CONTROL_PLANE_PORT" with
                      | Some port => Number_ofString port
                      | None => Num.ofZ 3000
                      end))
    (env "CONTROL_PLANE_PUBLIC_URL").

Definition dashboardPublicUrl : string :=
  default "http://localhost:5173" (env "DASHBOARD_PUBLIC_URL").

(** index.ts, [hostFromMaybeUrl]. *)
Definition hostFromMaybeUrl (rawValue : string) : string :=
  let value := Js.trim rawValue in
  if Js.isEmpty value then EmptyString
  else match URL_hostname value with
       | Some hostname => normalizeHost hostname
       | None => normalizeHost value
       end.

Definition controlPlanePublicHost : string := hostFromMaybeUrl controlPlanePublicUrl.
Definition dashboardPublicHost : string := hostFromMaybeUrl dashboardPublicUrl.

Definition dashboardKnownHosts : gset string :=
  list_to_set
    (List.filter (fun value => negb (Js.isEmpty value))
       [normalizeHost localServerHost; controlPlanePublicHost; dashboardPublicHost]).

Definition defaultScreenshotTargetUrl : string :=
  Js.trim (default "https://kanitaxi.com" (env "KANI_TAXI_PREVIEW_URL")).

Definition autoDeployEnabled : bool :=
  bool_decide (Js.toLowerCase (Js.trim (default EmptyString (env "AUTO_DEPLOY_ENABLED"))) = "true").

Definition autoDeployWebhookToken : string :=
  Js.trim (default EmptyString (env "AUTO_DEPLOY_WEBHOOK_TOKEN")).

Definition githubWebhookSecret : string :=
  Js.trim (default EmptyString (env "GITHUB_WEBHOOK_SECRET")).

Definition autoDeployDefaultRemoteHost : string :=
  Js.trim (default (default EmptyString remoteTrackerHost) (env "AUTO_DEPLOY_REMOTE_HOST")).

(** One entry of [AUTO_DEPLOY_PROJECTS]: the body of the loop of
    [parseAutoDeployProjects]; [None] is an entry that is skipped. *)
Definition parseAutoDeployProject (defaultRemoteHost : string) (entry : JValue)
  : option AutoDeployProjectConfig :=
  match entry with
  | JArray _ | JObject _ =>
      let record (k : string) := optProp (Some entry) k in
      let projectNameValue := asNonEmptyString (record "projectName") in
      let repositoryValue := asNonEmptyString (record "repository") in
      let branchValue := Js.orElse (asNonEmptyString (record "branch")) "main" in
      let repoPathValue := asNonEmptyString (record "repoPath") in
      let deployCommandValue := asNonEmptyString (record "deployCommand") in
      let environmentValue := Js.orElse (asNonEmptyString (record "environment")) "Production" in
      let remoteHostValue := Js.orElse (asNonEmptyString (record "remoteHost")) defaultRemoteHost in
      let domainValues :=
        asDomainList (record "domains") ++ asDomainList (record "domain") ++
        asDomainList (record "liveDomains") ++ asDomainList (record "liveDomain") ++
        asDomainList (record "primaryDomain") in
      if Js.isEmpty projectNameValue || Js.isEmpty repositoryValue ||
         Js.isEmpty repoPathValue || Js.isEmpty deployCommandValue
      then None
      else
        let repositoryCanonical := canonicalRepoName repositoryValue in
        if Js.isEmpty repositoryCanonical then None
        else Some {| projectName := projectNameValue;
                     projectSlug := normalizeProject projectNameValue;
                     repository := repositoryValue;
                     repositoryCanonical := repositoryCanonical;
                     branch := branchValue;
                     repoPath := repoPathValue;
                     deployCommand := deployCommandValue;
                     environment := environmentValue;
                     remoteHost := if Js.isEmpty remoteHostValue then None
                                   else Some remoteHostValue;
                     domains := dedupe domainValues |}
  | _ => None
  end.

(** index.ts, [parseAutoDeployProjects]. *)
Definition parseAutoDeployProjects (rawProjects : option string) (defaultRemoteHost : string)
  : list AutoDeployProjectConfig :=
  let raw := Js.trim (default EmptyString rawProjects) in
  if Js.isEmpty raw then []
  else
    match JSON_parse raw with
    | None => []
    | Some (JArray parsed) => omap (parseAutoDeployProject defaultRemoteHost) parsed
    | Some _ => []
    end.

Definition autoDeployProjects : list AutoDeployProjectConfig :=
  parseAutoDeployProjects (env "AUTO_DEPLOY_PROJECTS") autoDeployDefaultRemoteHost.

(** [new Map(autoDeployProjects.map((project) => [project.projectSlug, project]))]:
    a later project replaces an earlier one of the same slug. *)
Definition autoDeployProjectsBySlug : gmap string AutoDeployProjectConfig :=
  foldl (fun m project => <[projectSlug project := project]> m) ∅ autoDeployProjects.

Definition defaultProjectSlug : string :=
  default fallbackProjectSlug (projectSlug <$> head autoDeployProjects).

Definition defaultProjectName : string :=
  default fallbackProjectName (projectName <$> head autoDeployProjects).

(** index.ts, [resolveProjectSlug]. *)
Definition resolveProjectSlug (input : option string) : string :=
  match input with
  | None => defaultProjectSlug
  | Some text =>
      if Js.isEmpty text then defaultProjectSlug
      else
        let normalized := normalizeProject text in
        if Js.isEmpty normalized then defaultProjectSlug else normalized
  end.

(** index.ts, [resolveProjectName]. *)
Definition resolveProjectName (projectSlug : string) : string :=
  default defaultProjectName (projectName <$> autoDeployProjectsBySlug !! projectSlug).

(** [projectSlug.replace(/-/g, "_").toUpperCase()] *)
Definition envPrefixOf (projectSlug : string) : string :=
  Js.toUpperCase
    (Js.map (fun c => if bool_decide (c = "-"%char) then "_"%char else c) projectSlug).

(** index.ts, [resolveProjectPreviewUrl]. *)
Definition resolveProjectPreviewUrl (projectSlug : string) : string :=
  let envKey := envPrefixOf projectSlug +:+ "_PREVIEW_URL" in
  let perProjectUrl := Js.trim (default EmptyString (env envKey)) in
  if negb (Js.isEmpty perProjectUrl) then perProjectUrl
  else if bool_decide (projectSlug = defaultProjectSlug) then defaultScreenshotTargetUrl
  else EmptyString.

(** index.ts, [toSafeLimit]. *)
Definition toSafeLimit (rawLimit : option string) (fallback : Z) : Z :=
  let parsed := toNumber rawLimit in
  if negb (Num.isFinite parsed) then fallback
  else Z.min (Z.max (Num.truncZ parsed) 1) 100.

(** The limit the handler of [GET /v1/logs] passes on. *)
Definition logsSafeLimit (limit : option string) : Z := toSafeLimit limit 120.

(** The limit the handler of [GET /v1/deployments] passes on. *)
Definition deploymentsSafeLimit (limit : option string) : Z := toSafeLimit limit 20.

(** The limit the handler of [GET /v1/oauth/github/repos] uses. *)
Definition githubReposSafeLimit (limit : option string) : Z := toSafeLimit limit 20.

(** index.ts, [findAutoDeployProject], over the list it iterates. *)
Definition findAutoDeployProjectIn (projects : list AutoDeployProjectConfig)
    (repositoryName repositoryFullName branchName : string)
  : option AutoDeployProjectConfig :=
  let incomingFullName := Js.toLowerCase (Js.trim repositoryFullName) in
  let incomingRepoCanonical := canonicalRepoName (Js.orElse repositoryName repositoryFullName) in
  List.find
    (fun project =>
       let configuredRepo := Js.toLowerCase (repository project) in
       let repoMatches :=
         if Js.includes "/" configuredRepo
         then bool_decide (configuredRepo = incomingFullName)
         else bool_decide (repositoryCanonical project = incomingRepoCanonical) in
       repoMatches &&
       negb (negb (bool_decide (branch project = "*")) &&
             negb (bool_decide (branch project = branchName))))
    projects.

Definition findAutoDeployProject (repositoryName repositoryFullName branchName : string)
  : option AutoDeployProjectConfig :=
  findAutoDeployProjectIn autoDeployProjects repositoryName repositoryFullName branchName.

(** The match of a project as the specification words it: its repository
    has a slash and equals the incoming full name without regard to case,
    or it has none and its canonical form is the canonical form of the
    incoming repository; and its branch is the star or the incoming branch. *)
Definition projectMatchesSpec (repositoryName repositoryFullName branchName : string)
    (project : AutoDeployProjectConfig) : bool :=
  ((Js.includes "/" (repository project) &&
    bool_decide (Js.toLowerCase (repository project) =
                 Js.toLowerCase (Js.trim repositoryFullName))) ||
   (negb (Js.includes "/" (repository project)) &&
    bool_decide (canonicalRepoName (repository project) =
                 canonicalRepoName (Js.orElse repositoryName repositoryFullName)))) &&
  (bool_decide (branch project = "*") || bool_decide (branch project = branchName)).

(** [Buffer] comparison of [node:crypto]: buffers of different lengths are
    a [RangeError]. *)
Definition timingSafeEqual (a b : string) : Completion bool :=
  if negb (String.length a =? String.length b) then Throw RangeError
  else Normal (bool_decide (a = b)).

(** index.ts, [verifyGitHubSignature]. *)
Definition verifyGitHubSignature (signatureHeader : string) (payload : JValue) (secret : string)
  : Completion bool :=
  let trimmedSignature := Js.trim signatureHeader in
  if negb (Js.startsWith "sha256=" trimmedSignature) then Normal false
  else
    let signatureHex := Js.drop (String.length "sha256=") trimmedSignature in
    if negb ((String.length signatureHex =? 64) && Js.all Hex.isHexDigit signatureHex)
    then Normal false
    else
      let expectedSignature :=
        Hex.encode (Sha256.hmac (Js.utf8 secret) (Js.utf8 (JSON_stringify payload))) in
      let received := Hex.decode signatureHex in
      let expected := Hex.decode expectedSignature in
      if negb (String.length received =? String.length expected) then Normal false
      else timingSafeEqual received expected.

(** index.ts, [queueAutoDeploy]: the job is chained to the promise the map
    holds for its key, and its own promise replaces it. *)
Definition queueAutoDeploy (project : AutoDeployProjectConfig) (context : AutoDeployContext)
    (st : ServerState) : string * ServerState :=
  let queueKey := projectSlug project +:+ ":" +:+ branch project in
  let jobId := randomUUID (uuidsDrawn st) in
  let previous := autoDeployQueues st !! queueKey in
  let next := length (scheduled st) in
  (jobId,
   {| autoDeployQueues := <[queueKey := next]> (autoDeployQueues st);
      scheduled := scheduled st ++
        [{| job_id := jobId; job_queueKey := queueKey; job_project := project;
            job_context := context; job_after := previous |}];
      uuidsDrawn := S (uuidsDrawn st) |}).

(** The [finally] of [queueAutoDeploy], run when the job at position [job]
    settles: the key is released unless a newer job has taken it. *)
Definition settleAutoDeploy (job : nat) (st : ServerState) : ServerState :=
  match scheduled st !! job with
  | Some j =>
      if bool_decide (autoDeployQueues st !! job_queueKey j = Some job)
      then {| autoDeployQueues := delete (job_queueKey j) (autoDeployQueues st);
              scheduled := scheduled st; uuidsDrawn := uuidsDrawn st |}
      else st
  | None => st
  end.

(** [value.slice(0, 12)]: the first twelve code units of a string, the
    first twelve elements of an array. *)
Definition slice12 (value : JValue) : Completion JValue :=
  match value with
  | JString s => Normal (JString (Js.takeUnits 12 s))
  | JArray items => Normal (JArray (firstn 12 items))
  | _ => Throw TypeError
  end.

Definition reply (status : nat) (content : ReplyBody) : Reply :=
  {| reply_code := status; reply_body := content |}.

(** What the validation of a webhook request ends in: a reply sent before
    any project is looked up, or a push to a branch of a repository. *)
Inductive Validated : Type :=
| Rejected (r : Reply)
| ValidPush (payload : JValue) (branchName repositoryName repositoryFullName : string).

(** index.ts, the handler of [POST /v1/webhooks/github], from its start to
    the check of the repository's name. *)
Definition validateWebhook (request : WebhookRequest) : Completion Validated :=
  let event := Js.toLowerCase (extractHeaderValue (headers request !! "x-github-event")) in
  match body request with
  | Some ((JArray _ | JObject _) as payload) =>
      if negb autoDeployEnabled then
        Normal (Rejected (reply 503 (BodyError "Auto deploy is disabled. Set AUTO_DEPLOY_ENABLED=true.")))
      else if Js.isEmpty autoDeployWebhookToken && Js.isEmpty githubWebhookSecret then
        Normal (Rejected (reply 500 (BodyError "Webhook auth missing. Set AUTO_DEPLOY_WEBHOOK_TOKEN or GITHUB_WEBHOOK_SECRET.")))
      else
        authorised ←
          (if negb (Js.isEmpty autoDeployWebhookToken)
           then Normal (bool_decide (Js.trim (default EmptyString (query_token request))
                                     = autoDeployWebhookToken))
           else verifyGitHubSignature
                  (extractHeaderValue (headers request !! "x-hub-signature-256"))
                  payload githubWebhookSecret);
        if negb authorised then
          Normal (Rejected (reply 401 (BodyError (if negb (Js.isEmpty autoDeployWebhookToken)
                                                  then "Invalid webhook token."
                                                  else "Invalid webhook signature."))))
        else if bool_decide (event = "ping") then
          Normal (Rejected (reply 200 (BodyOk "GitHub webhook verified.")))
        else if negb (bool_decide (event = "push")) then
          Normal (Rejected (reply 202 (BodyIgnored ("Unsupported event " +:+
                                                    Js.orElse event "unknown" +:+ "."))))
        else if bool_decide (autoDeployProjects = []) then
          Normal (Rejected (reply 500 (BodyError "AUTO_DEPLOY_PROJECTS is empty or invalid.")))
        else
          ref ← prop payload "ref";
          branchName ← branchFromRef ref;
          if Js.isEmpty branchName then
            Normal (Rejected (reply 202 (BodyIgnored "Push event is not targeting a branch.")))
          else
            deleted ← prop payload "deleted";
            if from_option truthy false deleted then
              Normal (Rejected (reply 202 (BodyIgnored ("Branch " +:+ branchName +:+ " was deleted."))))
            else
              repositoryValue ← prop payload "repository";
              name ← stringMethodReceiver (orDefault (optProp repositoryValue "name") (JString ""));
              let repositoryName := Js.trim name in
              fullName ← stringMethodReceiver
                           (orDefault (optProp repositoryValue "full_name") (JString repositoryName));
              let repositoryFullName := Js.trim fullName in
              if Js.isEmpty repositoryFullName then
                Normal (Rejected (reply 400 (BodyError "Repository information is missing in webhook payload.")))
              else Normal (ValidPush payload branchName repositoryName repositoryFullName)
  | _ => Normal (Rejected (reply 400 (BodyError "Invalid webhook payload.")))
  end.

(** index.ts, the handler of [POST /v1/webhooks/github], from the lookup of
    the project to its end. *)
Definition deployPush (payload : JValue) (branchName repositoryName repositoryFullName : string)
    (st : ServerState) : Completion (Reply * ServerState) :=
  match findAutoDeployProject repositoryName repositoryFullName branchName with
  | None =>
      Normal (reply 202 (BodyIgnored ("No matching auto deploy project for " +:+
                                      repositoryFullName +:+ ":" +:+ branchName +:+ ".")), st)
  | Some project =>
      after ← prop payload "after";
      headCommit ← prop payload "head_commit";
      sliced ← slice12 (orDefault after (orDefault (optProp headCommit "id") (JString "")));
      let commitHash := if truthy sliced then sliced else JString "unknown" in
      message ← stringMethodReceiver (orDefault (optProp headCommit "message") (JString ""));
      pusherValue ← prop payload "pusher";
      sender ← prop payload "sender";
      pusher ← stringMethodReceiver
                 (orDefault (optProp pusherValue "name")
                    (orDefault (optProp sender "login") (JString "unknown")));
      let context :=
        {| ctx_repositoryName := repositoryName;
           ctx_repositoryFullName := repositoryFullName;
           ctx_branch := branchName;
           ctx_commitHash := commitHash;
           ctx_commitMessage := Js.trim message;
           ctx_pusher := Js.orElse (Js.trim pusher) "unknown" |} in
      let queued := queueAutoDeploy project context st in
      Normal (reply 202 (BodyQueued (fst queued) (projectName project) branchName
                           repositoryFullName), snd queued)
  end.

(** index.ts, the handler of [POST /v1/webhooks/github]. *)
Definition webhookGithub (request : WebhookRequest) (st : ServerState)
  : Completion (Reply * ServerState) :=
  validated ← validateWebhook request;
  match validated with
  | Rejected r => Normal (r, st)
  | ValidPush payload branchName repositoryName repositoryFullName =>
      deployPush payload branchName repositoryName repositoryFullName st
  end.

(** One request served: the framework answers 500 to a request whose
    handler throws, and the handler throws before it changes the queue. *)
Definition deliver (request : WebhookRequest) (st : ServerState) : Reply * ServerState :=
  match webhookGithub request st with
  | Normal served => served
  | Throw thrown => (reply 500 (BodyFailure thrown), st)
  end.

(** The requests of a list served one after the other. *)
Fixpoint deliverAll (requests : list WebhookRequest) (st : ServerState)
  : list Reply * ServerState :=
  match requests with
  | [] => ([], st)
  | request :: rest =>
      let '(r, st1) := deliver request st in
      let '(rs, st2) := deliverAll rest st1 in
      (r :: rs, st2)
  end.

End Model.

(** The state the requests of a list leave behind, from the initial one. *)
Definition stateAfter {rt : Runtime} (requests : list WebhookRequest) : ServerState :=
  snd (deliverAll requests initialState).

(** [payloadValue && typeof payloadValue === "object"] *)
Definition isObjectValue (value : option JValue) : bool :=
  match value with
  | Some (JArray _ | JObject _) => true
  | _ => false
  end.

(** The request without its signature header. *)
Definition withoutSignature (request : WebhookRequest) : WebhookRequest :=
  {| query_token := query_token request;
     headers := delete "x-hub-signature-256" (headers request);
     body := body request |}.

Definition authMissingReply : Reply :=
  {| reply_code := 500;
     reply_body := BodyError "Webhook auth missing. Set AUTO_DEPLOY_WEBHOOK_TOKEN or GITHUB_WEBHOOK_SECRET." |}.

(** The slug the hint of a line normalises to. *)
Definition hintOf {tables : Js.CaseTables} (entry : ParsedRequestLogLine) : string :=
  normalizeProject (default EmptyString (line_projectHint entry)).

(** The text the last stage of the attribution searches. *)
Definition haystackOf {tables : Js.CaseTables} (entry : ParsedRequestLogLine) : string :=
  Js.toLowerCase (line_path entry +:+ " " +:+ line_message entry +:+ " " +:+
                  normalizeHost (line_host entry)).

(** ** Access logs and the deployment tracker *)

(** The group of [/^(\d{1,2}\/[A-Za-z]{3}\/\d{4}):/], by its length, for a
    day of [days] digits. *)
Definition nginxDateGroup (days : nat) (s : string) : option nat :=
  let day := Js.take days s in
  let rest := Js.drop days s in
  let month := Js.take 3 (Js.drop 1 rest) in
  let year := Js.take 4 (Js.drop 5 rest) in
  if (String.length day =? days) && Js.all Js.isDigit day &&
     Js.startsWith "/" rest &&
     (String.length month =? 3) && Js.all isLetter month &&
     Js.startsWith "/" (Js.drop 4 rest) &&
     (String.length year =? 4) && Js.all Js.isDigit year &&
     Js.startsWith ":" (Js.drop 9 rest)
  then Some (days + 9) else None.

(** [.replace(/^(\d{1,2}\/[A-Za-z]{3}\/\d{4}):/, "$1 ")] *)
Definition spaceAfterNginxDate (s : string) : string :=
  match (match nginxDateGroup 2 s with
         | Some n => Some n
         | None => nginxDateGroup 1 s
         end) with
  | Some n => Js.take n s +:+ " " +:+ Js.drop (S n) s
  | None => s
  end.

Definition notChar (stop : ascii) (c : ascii) : bool := negb (bool_decide (c = stop)).

(** [\S+] *)
Definition nonSpaces (s : string) : option (string * string) :=
  let run := Js.takeUntil Js.startsSpace s in
  if Js.isEmpty run then None else Some (run, Js.dropUntil Js.startsSpace s).

(** [\s+] *)
Definition spaces (s : string) : option string :=
  if Js.startsSpace s then Some (Js.trimStart s) else None.

Definition expectChar (c : ascii) (s : string) : option string :=
  match s with
  | String d s' => if bool_decide (d = c) then Some s' else None
  | EmptyString => None
  end.

(** [(\d{3}|-)] *)
Definition statusField (s : string) : option (string * string) :=
  let digits := Js.take 3 s in
  if (String.length digits =? 3) && Js.all Js.isDigit digits then Some (digits, Js.drop 3 s)
  else if Js.startsWith "-" s then Some ("-", Js.drop 1 s)
  else None.

Record NginxGroups : Set := {
  group_remote : string;
  group_time : string;
  group_request : string;
  group_status : string;
  group_rest : string;
}.

(** The regular expression of [parseNginxRequestLogLine], field by field:
    the remote address [\S+], two more [\S+] fields, the time between
    brackets (one or more characters other than the closing bracket), the
    request between double quotes (any characters other than a double
    quote), the status [\d{3}] or a dash, one more [\S+] field, and the
    rest of the line, which [.] reads up to a line terminator and [$]
    requires to be the end of the input; the fields are separated by [\s+].
    Every quantifier is followed by a character outside its class, so the
    greedy match is the only one. *)
Definition matchNginxLine (line : string) : option NginxGroups :=
  '(remote, s1) ← nonSpaces line;
  s2 ← spaces s1;
  '(_, s3) ← nonSpaces s2;
  s4 ← spaces s3;
  '(_, s5) ← nonSpaces s4;
  s6 ← spaces s5;
  s7 ← expectChar "[" s6;
  let time := Js.takeWhile (notChar "]") s7 in
  if Js.isEmpty time then None
  else
    s8 ← expectChar "]" (Js.dropWhile (notChar "]") s7);
    s9 ← spaces s8;
    s10 ← expectChar Json.quoteChar s9;
    let request := Js.takeWhile (notChar Json.quoteChar) s10 in
    s11 ← expectChar Json.quoteChar (Js.dropWhile (notChar Json.quoteChar) s10);
    s12 ← spaces s11;
    '(status, s13) ← statusField s12;
    s14 ← spaces s13;
    '(_, rest) ← nonSpaces s14;
    if negb (Js.anywhere Js.startsTerminator rest)
    then Some {| group_remote := remote; group_time := time; group_request := request;
                 group_status := status; group_rest := rest |}
    else None.

(** The texts between pairs of double quotes, in order: the first groups
    of [rest.matchAll] for a quote, characters other than a quote, a quote.
    [inside] is the text read since an opening quote. *)
Fixpoint quotedFieldsFrom (inside : option string) (s : string) : list string :=
  match s with
  | EmptyString => []
  | String c s' =>
      match inside with
      | None =>
          if bool_decide (c = Json.quoteChar) then quotedFieldsFrom (Some EmptyString) s'
          else quotedFieldsFrom None s'
      | Some field =>
          if bool_decide (c = Json.quoteChar) then field :: quotedFieldsFrom None s'
          else quotedFieldsFrom (Some (field +:+ String c EmptyString)) s'
      end
  end.

(** The first of the values that is a string. *)
Fixpoint firstString (candidates : list (option JValue)) : option string :=
  match candidates with
  | [] => None
  | v :: rest =>
      match asString v with
      | Some s => Some s
      | None => firstString rest
      end
  end.

(** [a ?? b ?? ...] *)
Fixpoint firstDefined (candidates : list (option JValue)) : option JValue :=
  match candidates with
  | [] => None
  | v :: rest =>
      match nullish v with
      | Some x => Some x
      | None => match rest with
                | [] => v
                | _ => firstDefined rest
                end
      end
  end.

(** [xs.slice(0, limit)] for an integer [limit]. *)
Definition sliceTo {A : Type} (limit : Z) (xs : list A) : list A :=
  if (0 <=? limit)%Z then firstn (Z.to_nat limit) xs
  else firstn (length xs - Z.to_nat (- limit)) xs.

(** [xs.sort((left, right) => key(right) - key(left))]: the sort is stable. *)
Fixpoint insertDescending {A : Type} (key : A -> Z) (x : A) (sorted : list A) : list A :=
  match sorted with
  | [] => [x]
  | y :: rest =>
      if (key y <=? key x)%Z then x :: y :: rest
      else y :: insertDescending key x rest
  end.

Definition sortDescending {A : Type} (key : A -> Z) (xs : list A) : list A :=
  foldr (insertDescending key) [] xs.

(** [raw.split("\n").map((line) => line.trim()).filter((line) => line.length > 0)] *)
Definition nonEmptyLines (raw : string) : list string :=
  List.filter (fun line => negb (Js.isEmpty line)) (List.map Js.trim (Js.split "010" raw)).

Section Logs.

Context {rt : Runtime}.

(** [new Date(value).getTime()]; [None] is [NaN]. *)
Definition dateOf (value : JValue) : option Z :=
  match value with
  | JString s => Date_parse s
  | JNumber n => Num.timeClip n
  | JBool b => Some (if b then 1 else 0)%Z
  | JNull => Some 0%Z
  | JArray _ | JObject _ => Date_ofObject value
  end.

(** index.ts, [toRelativeTime]; the clock is read once the date is valid. *)
Definition toRelativeTime (isoTime : JValue) (reads : nat) : string * nat :=
  match dateOf isoTime with
  | None => ("just now", reads)
  | Some target =>
      let now := Date_now reads in
      let quotient (x d : Z) := Num.floorZ (Num.div (Num.ofZ x) (Num.ofZ d)) in
      let diffSec := Num.floorZ (Num.div (Num.sub (Num.ofZ now) (Num.ofZ target)) (Num.ofZ 1000)) in
      let diffMin := quotient diffSec 60%Z in
      let diffHr := quotient diffMin 60%Z in
      let diffDay := quotient diffHr 24%Z in
      let text :=
        if (diffSec <? 60)%Z then "just now"
        else if (diffMin <? 60)%Z then Number_toString (Num.ofZ diffMin) +:+ " min ago"
        else if (diffHr <? 24)%Z then Number_toString (Num.ofZ diffHr) +:+ "h ago"
        else Number_toString (Num.ofZ diffDay) +:+ "d ago" in
      (text, S reads)
  end.

(** index.ts, [resolveProjectPreviewHost]. *)
Definition resolveProjectPreviewHost (projectSlug : string) : string :=
  let previewUrl := resolveProjectPreviewUrl projectSlug in
  if Js.isEmpty previewUrl then EmptyString
  else match URL_hostname previewUrl with
       | Some hostname => normalizeHost hostname
       | None => normalizeHost previewUrl
       end.

(** index.ts, [resolveProjectConfiguredHosts]. *)
Definition resolveProjectConfiguredHosts (slug : string) : list string :=
  let project := autoDeployProjectsBySlug !! slug in
  let envPrefix := envPrefixOf slug in
  let envList (suffix : string) := asDomainList (JString <$> env (envPrefix +:+ suffix)) in
  let envDomains :=
    envList "_DOMAINS" ++ envList "_DOMAIN" ++ envList "_LIVE_DOMAINS" ++ envList "_LIVE_DOMAIN" in
  let hosts := List.map normalizeHost (from_option domains [] project ++ envDomains) in
  dedupe (List.filter (fun entry => negb (Js.isEmpty entry)) hosts).

(** index.ts, [isDashboardUsageRequest]. *)
Definition isDashboardUsageRequest (host pathValue : string) : bool :=
  let normalizedHost := normalizeHost host in
  if isControlPlaneRequestPath pathValue then true
  else if negb (Js.isEmpty normalizedHost) && bool_decide (normalizedHost ∈ dashboardKnownHosts)
  then true
  else false.

(** index.ts, [parseNginxTimestamp]; [Date.parse] yields [NaN] or a time
    value, and the date of a time value has an ISO text. *)
Definition parseNginxTimestamp (rawValue : string) : option string :=
  let normalized := spaceAfterNginxDate (Js.trim rawValue) in
  match Date_parse normalized with
  | None => None
  | Some parsed => Some (Date_toISOString parsed)
  end.

(** index.ts, [toIsoTimestamp]. *)
Definition toIsoTimestamp (rawValue : option JValue) : option string :=
  match rawValue with
  | Some (JNumber n) =>
      if Num.isFinite n then
        let asMs := if Num.ltb (Num.ofZ 1000000000000) n then n
                    else Num.mul n (Num.ofZ 1000) in
        match Num.timeClip asMs with
        | None => None
        | Some t => Some (Date_toISOString t)
        end
      else None
  | Some (JString s) =>
      let trimmed := Js.trim s in
      if Js.isEmpty trimmed then None
      else
        match parseNginxTimestamp trimmed with
        | Some parsedNginx =>
            if negb (Js.isEmpty parsedNginx) then Some parsedNginx
            else Date_toISOString <$> Date_parse trimmed
        | None => Date_toISOString <$> Date_parse trimmed
        end
  | _ => None
  end.

Definition inStatusRange (rounded : Z) : option Z :=
  if (100 <=? rounded)%Z && (rounded <=? 599)%Z then Some rounded else None.

(** index.ts, [coerceStatusCode]. *)
Definition coerceStatusCode (rawValue : option JValue) : option Z :=
  match rawValue with
  | Some (JNumber n) =>
      if Num.isFinite n then inStatusRange (Num.truncZ n) else None
  | Some (JString s) =>
      let parsed := Number_ofString (Js.trim s) in
      if negb (Num.isFinite parsed) then None
      else inStatusRange (Num.truncZ parsed)
  | _ => None
  end.

(** index.ts, [parseJsonRequestLogLine]. *)
Definition parseJsonRequestLogLine (line : string) : Completion (option ParsedRequestLogLine) :=
  if negb (Js.startsWith "{" line) || negb (Js.endsWith "}" line) then Normal None
  else
    catch
      (value ← match JSON_parse line with
               | Some v => Normal v
               | None => Throw SyntaxError
               end;
       request ← prop value "request";
       let get (k : string) := optProp (Some value) k in
       let rawRequest := default EmptyString (firstString [request; get "httpRequest"]) in
       let requestLine := parseRequestLine rawRequest in
       let method :=
         match asString (get "method") with
         | Some m => Js.orElse (Js.toUpperCase (Js.trim m)) (fst requestLine)
         | None => fst requestLine
         end in
       let pathValue :=
         match firstString [get "path"; get "url"; get "requestPath"] with
         | Some p => Js.orElse (Js.trim p) (snd requestLine)
         | None => snd requestLine
         end in
       let statusCode := coerceStatusCode (firstDefined [get "statusCode"; get "status"]) in
       let host := default EmptyString (firstString [get "host"; get "hostname"; get "domain"]) in
       let remoteAddr := firstString [get "remoteAddr"; get "ip"; get "clientIp"] in
       let projectHint := firstString [get "projectSlug"; get "project"; get "projectName"] in
       let timestamp :=
         toIsoTimestamp
           (firstDefined [get "timestamp"; get "time"; get "loggedAt"; get "createdAt"; get "date"]) in
       let message :=
         default (method +:+ " " +:+ pathValue) (firstString [get "message"; get "msg"]) in
       Normal (Some {| line_timestamp := timestamp;
                       line_method := Js.orElse method "GET";
                       line_statusCode := statusCode;
                       line_host := host;
                       line_path := Js.orElse pathValue "/";
                       line_message := Js.orElse (Js.trim message)
                                         (method +:+ " " +:+ Js.orElse pathValue "/");
                       line_remoteAddr := remoteAddr;
                       line_projectHint := projectHint |}))
      (Normal None).

(** index.ts, [parseNginxRequestLogLine]. *)
Definition parseNginxRequestLogLine (line : string) : option ParsedRequestLogLine :=
  match matchNginxLine line with
  | None => None
  | Some groups =>
      let requestLine := parseRequestLine (group_request groups) in
      let statusCode := coerceStatusCode (Some (JString (group_status groups))) in
      let quotedFields := quotedFieldsFrom None (group_rest groups) in
      let hostCandidate := extractHostFromQuotedFields quotedFields in
      let remote := Js.trim (group_remote groups) in
      Some {| line_timestamp := parseNginxTimestamp (group_time groups);
              line_method := fst requestLine;
              line_statusCode := statusCode;
              line_host := hostCandidate;
              line_path := snd requestLine;
              line_message := fst requestLine +:+ " " +:+ snd requestLine;
              line_remoteAddr := if Js.isEmpty remote then None else Some remote;
              line_projectHint := None |}
  end.

(** index.ts, [parseRequestLogLine]. *)
Definition parseRequestLogLine (line : string) : Completion (option ParsedRequestLogLine) :=
  parsed ← parseJsonRequestLogLine line;
  match parsed with
  | Some entry => Normal (Some entry)
  | None => Normal (parseNginxRequestLogLine line)
  end.

(** The labels of a host: [.split(".").map((label) =>
    label.toLowerCase().replace(/[^a-z0-9]/g, "")).filter((label) => label.length > 0)] *)
Definition hostLabelsOf (normalizedHost : string) : list string :=
  List.filter (fun label => negb (Js.isEmpty label))
    (List.map (fun label => Js.filter isLowerAlnum (Js.toLowerCase label))
       (Js.split "." normalizedHost)).

(** The three tests of the host loop of [resolveProjectSlugFromRequestLog]. *)
Definition hostMatchesProject (normalizedHost : string) (project : AutoDeployProjectConfig) : bool :=
  let previewHost := resolveProjectPreviewHost (projectSlug project) in
  let configuredHosts := resolveProjectConfiguredHosts (projectSlug project) in
  let slugCanonical := projectSlugCanonicalValue (projectSlug project) in
  (negb (Js.isEmpty previewHost) && bool_decide (previewHost = normalizedHost)) ||
  existsb (fun configured => bool_decide (configured = normalizedHost)) configuredHosts ||
  (negb (Js.isEmpty slugCanonical) &&
   existsb (fun label => bool_decide (label = slugCanonical)) (hostLabelsOf normalizedHost)).

(** The test of the text loop of [resolveProjectSlugFromRequestLog]. *)
Definition textMatchesProject (haystack : string) (project : AutoDeployProjectConfig) : bool :=
  let canonicalHaystack := Js.filter isLowerAlnum haystack in
  let slugCanonical := projectSlugCanonicalValue (projectSlug project) in
  Js.includes (projectSlug project) haystack ||
  (negb (Js.isEmpty slugCanonical) && Js.includes slugCanonical canonicalHaystack).

(** The slug the host stage returns, if it returns. *)
Definition resolveByHost (normalizedHost : string) : option string :=
  if Js.isEmpty normalizedHost then None
  else
    match List.find (hostMatchesProject normalizedHost) autoDeployProjects with
    | Some project => Some (projectSlug project)
    | None =>
        if bool_decide (autoDeployProjects = []) then
          let fallbackHost := resolveProjectPreviewHost fallbackProjectSlug in
          if negb (Js.isEmpty fallbackHost) && bool_decide (fallbackHost = normalizedHost)
          then Some fallbackProjectSlug else None
        else None
    end.

(** The hint stage: the slug it returns, if it returns. *)
Definition resolveByHint (projectHint : option string) : option string :=
  let hint := normalizeProject (default EmptyString projectHint) in
  if Js.isEmpty hint then None
  else if bool_decide (is_Some (autoDeployProjectsBySlug !! hint)) then Some hint
  else if bool_decide (autoDeployProjects = []) && bool_decide (hint = fallbackProjectSlug)
  then Some hint
  else None.

(** index.ts, [resolveProjectSlugFromRequestLog]. *)
Definition resolveProjectSlugFromRequestLog (entry : ParsedRequestLogLine) : string :=
  match resolveByHint (line_projectHint entry) with
  | Some hint => hint
  | None =>
      let normalizedHost := normalizeHost (line_host entry) in
      match resolveByHost normalizedHost with
      | Some slug => slug
      | None =>
          let haystack :=
            Js.toLowerCase (line_path entry +:+ " " +:+ line_message entry +:+ " " +:+ normalizedHost) in
          match List.find (textMatchesProject haystack) autoDeployProjects with
          | Some project => projectSlug project
          | None =>
              match autoDeployProjects with
              | [only] => projectSlug only
              | [] => fallbackProjectSlug
              | _ => EmptyString
              end
          end
      end
  end.

(** index.ts, [requestLogTimestamp]. *)
Definition requestLogTimestamp (entry : RequestLogEntry) : Z :=
  default 0%Z (Date_parse (log_timestamp entry)).

(** The body of the loop of [parseRequestLogEntries] for the line at
    [index]: the entry it pushes, if any, and the readings of the clock. *)
Definition requestLogEntryOf (normalizedRequestedProject : option string)
    (startMs endMs : option Z) (index : nat) (line : string) (reads : nat)
  : Completion (option RequestLogEntry) * nat :=
  match parseRequestLogLine line with
  | Throw e => (Throw e, reads)
  | Normal None => (Normal None, reads)
  | Normal (Some parsedLine) =>
      let normalizedParsedHost := normalizeHost (line_host parsedLine) in
      let normalizedParsedPath := Js.orElse (Js.trim (line_path parsedLine)) "/" in
      if isDashboardUsageRequest normalizedParsedHost normalizedParsedPath then (Normal None, reads)
      else
        let inferredProjectSlug := resolveProjectSlugFromRequestLog parsedLine in
        if Js.isEmpty inferredProjectSlug then (Normal None, reads)
        else if match normalizedRequestedProject with
                | Some requested =>
                    negb (Js.isEmpty requested) &&
                    negb (bool_decide (inferredProjectSlug = requested))
                | None => false
                end
        then (Normal None, reads)
        else
          let resolvedProjectSlug := inferredProjectSlug in
          let '(timestamp, reads') :=
            match line_timestamp parsedLine with
            | Some t => (t, reads)
            | None => (Date_toISOString (Date_now reads), S reads)
            end in
          let method := Js.orElse (Js.toUpperCase (Js.trim (line_method parsedLine))) "GET" in
          let pathValue := normalizedParsedPath in
          let host :=
            Js.orElse normalizedParsedHost
              (Js.orElse (resolveProjectPreviewHost resolvedProjectSlug) localServerHost) in
          let message := Js.orElse (Js.trim (line_message parsedLine)) (method +:+ " " +:+ pathValue) in
          let stableEpoch := default 0%Z (Date_parse timestamp) in
          if from_option (fun start => (stableEpoch <? start)%Z) false startMs then (Normal None, reads')
          else if from_option (fun stop => (stop <? stableEpoch)%Z) false endMs then (Normal None, reads')
          else
            (Normal (Some {| log_logId := resolvedProjectSlug +:+ "-" +:+
                                          Number_toString (Num.ofZ stableEpoch) +:+ "-" +:+
                                          Number_toString (Num.ofZ (Z.of_nat index));
                             log_timestamp := timestamp;
                             log_method := method;
                             log_statusCode := line_statusCode parsedLine;
                             log_host := host;
                             log_path := pathValue;
                             log_message := message;
                             log_projectSlug := resolvedProjectSlug;
                             log_projectName := resolveProjectName resolvedProjectSlug;
                             log_remoteAddr := line_remoteAddr parsedLine;
                             log_source := ServerAccessLog |}),
             reads')
  end.

(** The loop of [parseRequestLogEntries] from the line at [index]. *)
Fixpoint requestLogEntriesFrom (normalizedRequestedProject : option string)
    (startMs endMs : option Z) (index : nat) (lines : list string) (reads : nat)
  : Completion (list RequestLogEntry) * nat :=
  match lines with
  | [] => (Normal [], reads)
  | line :: rest =>
      match requestLogEntryOf normalizedRequestedProject startMs endMs index line reads with
      | (Throw e, reads') => (Throw e, reads')
      | (Normal pushed, reads') =>
          match requestLogEntriesFrom normalizedRequestedProject startMs endMs (S index) rest reads' with
          | (Throw e, reads'') => (Throw e, reads'')
          | (Normal entries, reads'') =>
              (Normal (match pushed with
                       | Some entry => entry :: entries
                       | None => entries
                       end), reads'')
          end
      end
  end.

(** index.ts, [parseRequestLogEntries]. *)
Definition parseRequestLogEntries (raw : string) (requestedProjectSlug : option string)
    (limit : Z) (startMs endMs : option Z) (reads : nat)
  : Completion (list RequestLogEntry) * nat :=
  let normalizedRequestedProject :=
    match requestedProjectSlug with
    | Some requested =>
        if Js.isEmpty requested then None else Some (resolveProjectSlug (Some requested))
    | None => None
    end in
  match requestLogEntriesFrom normalizedRequestedProject startMs endMs 0 (nonEmptyLines raw) reads with
  | (Throw e, reads') => (Throw e, reads')
  | (Normal parsedEntries, reads') =>
      (Normal (sliceTo limit (sortDescending requestLogTimestamp parsedEntries)), reads')
  end.

(** The body of the loop of [parseTrackerEntries] for one line: the
    deployment it pushes, if any, and the readings of the clock.  Whatever
    the line throws is caught and the line is skipped. *)
Definition trackerDeploymentOf (expectedProjectSlug expectedProjectName line : string)
    (reads : nat) : option Deployment * nat :=
  match JSON_parse line with
  | None => (None, reads)
  | Some entry =>
      match (projectValue ← prop entry "projectName";
             name ← stringMethodReceiver (orDefault projectValue (JString ""));
             Normal (normalizeProject name)) with
      | Throw _ => (None, reads)
      | Normal entryProject =>
          if Js.isEmpty entryProject || negb (bool_decide (entryProject = expectedProjectSlug))
          then (None, reads)
          else
            let get (k : string) := optProp (Some entry) k in
            let '(trackedAt, reads1) :=
              match nullish (get "trackedAt") with
              | Some t => (t, reads)
              | None => (JString (Date_toISOString (Date_now reads)), S reads)
              end in
            match stringMethodReceiver (orDefault (get "deploymentId") (JString "unknown")) with
            | Throw _ => (None, reads1)
            | Normal deploymentId =>
                let '(createdRelative, reads2) := toRelativeTime trackedAt reads1 in
                match stringMethodReceiver (orDefault (get "author") (JString "unknown")) with
                | Throw _ => (None, reads2)
                | Normal author =>
                    (Some {| dep_deploymentId := Js.toUpperCase deploymentId;
                             dep_environment := orDefault (get "environment") (JString "Production");
                             dep_status := orDefault (get "status") (JString "Ready");
                             dep_duration := orDefault (get "duration") (JString "n/a");
                             dep_projectName := expectedProjectName;
                             dep_branch := orDefault (get "branch") (JString "main");
                             dep_commitHash := orDefault (get "commitHash") (JString "unknown");
                             dep_commitMessage := orDefault (get "commitMessage") (JString "");
                             dep_trackedAt := trackedAt;
                             dep_commitAt := get "commitAt";
                             dep_createdRelative := createdRelative;
                             dep_author := mapAuthor author;
                             dep_serverHost := orDefault (get "serverHost") (JString localServerHost);
                             dep_source := ServerTracker |},
                     reads2)
                end
            end
      end
  end.

(** The loop of [parseTrackerEntries]: [parsed] in the order of the lines. *)
Fixpoint trackerDeploymentsOf (expectedProjectSlug expectedProjectName : string)
    (lines : list string) (reads : nat) : list Deployment * nat :=
  match lines with
  | [] => ([], reads)
  | line :: rest =>
      let '(pushed, reads') := trackerDeploymentOf expectedProjectSlug expectedProjectName line reads in
      let '(parsed, reads'') := trackerDeploymentsOf expectedProjectSlug expectedProjectName rest reads' in
      (match pushed with
       | Some deployment => deployment :: parsed
       | None => parsed
       end, reads'')
  end.

(** index.ts, [parseTrackerEntries]. *)
Definition parseTrackerEntries (raw expectedProjectSlug expectedProjectName : string)
    (reads : nat) : list Deployment * nat :=
  let '(parsed, reads') :=
    trackerDeploymentsOf expectedProjectSlug expectedProjectName (nonEmptyLines raw) reads in
  (rev parsed, reads').

End Logs.

(** ** The case of a text whose characters are mapped one by one *)

Section UpperCase.

Variable narrow : ascii -> ascii.
Variable up : string -> string.

Local Abbreviation mapFrom := (Js.caseFrom narrow (fun _ ch _ => up ch)).

(** A character outside ASCII: a byte outside ASCII and bytes that
    continue it. *)
Definition isWideChar (ch : string) : bool :=
  match ch with
  | String c rest => negb (Js.isAscii c) && Js.all Js.isContinuation rest
  | EmptyString => false
  end.

(** A text that does not start in the middle of a character. *)
Definition startsClean (s : string) : bool :=
  match s with
  | String c _ => negb (Js.isContinuation c)
  | EmptyString => false
  end.

Hypothesis narrow_ascii : forall c, Js.isAscii c = true -> Js.isAscii (narrow c) = true.
Hypothesis narrow_idempotent : forall c, narrow (narrow c) = narrow c.
Hypothesis up_up : forall ch, isWideChar ch = true -> mapFrom "" None (up ch) = up ch.
Hypothesis up_clean : forall ch,
  isWideChar ch = true -> startsClean ch = true -> startsClean (up ch) = true.

Lemma continuation_not_ascii c : Js.isContinuation c = true -> Js.isAscii c = false.
Proof. destruct c as [[] [] [] [] [] [] [] []]; by vm_compute. Qed.

Lemma mapFrom_before (b b' : string) (p : option string) (s : string) :
  mapFrom b p s = mapFrom b' p s.
Proof using Type.
  revert b b' p. induction s as [|c s IH]; intros b b' p; [done|].
  cbn [Js.caseFrom]. destruct (Js.isContinuation c); [apply IH|].
  f_equal. destruct (Js.isAscii c); [f_equal|]; apply IH.
Qed.

Lemma string_append_cons c (a b : string) : String c a +:+ b = String c (a +:+ b).
Proof. reflexivity. Qed.

Lemma string_append_empty_l (a : string) : "" +:+ a = a.
Proof. reflexivity. Qed.

Lemma string_append_empty_r (a : string) : a +:+ "" = a.
Proof. induction a as [|x a IH]; [done|]. rewrite string_append_cons. by f_equal. Qed.

Lemma string_append_assoc (a b c : string) : (a +:+ b) +:+ c = a +:+ (b +:+ c).
Proof. induction a as [|x a IH]; [done|]. rewrite !string_append_cons. by f_equal. Qed.

Lemma mapFrom_app (x y : string) (p : option string) :
  y = "" \/ startsClean y = true ->
  mapFrom "" p (x +:+ y) = mapFrom "" p x +:+ mapFrom "" None y.
Proof using Type.
  intros Hy. revert p. induction x as [|c x IH]; intros p.
  - rewrite string_append_empty_l. destruct Hy as [->|Hy].
    + cbn. by rewrite string_append_empty_r.
    + destruct y as [|d y]; [done|]. cbn [startsClean] in Hy.
      apply negb_true_iff in Hy. cbn [Js.caseFrom]. rewrite Hy.
      rewrite !string_append_empty_l.
      f_equal. destruct (Js.isAscii d); [f_equal|]; apply mapFrom_before.
  - rewrite string_append_cons. cbn [Js.caseFrom].
    destruct (Js.isContinuation c); [apply IH|].
    rewrite (mapFrom_before _ "" None (x +:+ y)), (mapFrom_before _ "" None x).
    rewrite (mapFrom_before _ "" (Some _) (x +:+ y)), (mapFrom_before _ "" (Some _) x).
    rewrite !IH. destruct (Js.isAscii c).
    + rewrite string_append_assoc. reflexivity.
    + by rewrite string_append_assoc.
Qed.

Lemma mapFrom_continued (ch rest : string) :
  Js.all Js.isContinuation rest = true ->
  mapFrom "" (Some ch) rest = up (ch +:+ rest).
Proof using Type.
  revert ch. induction rest as [|c rest IH]; intros ch H.
  - cbn. by rewrite string_append_empty_r.
  - cbn [Js.all] in H. apply andb_true_iff in H as [Hc H].
    cbn [Js.caseFrom]. rewrite Hc. cbn [default]. rewrite IH by done.
    by rewrite string_append_assoc.
Qed.

Lemma all_append p (a b : string) : Js.all p (a +:+ b) = Js.all p a && Js.all p b.
Proof.
  induction a as [|x a IH]; [done|].
  rewrite string_append_cons. cbn [Js.all]. by rewrite IH, andb_assoc.
Qed.

Lemma isWideChar_snoc (ch : string) (c : ascii) :
  isWideChar ch = true -> Js.isContinuation c = true ->
  isWideChar (ch +:+ String c "") = true.
Proof.
  destruct ch as [|a ch]; [done|]. rewrite string_append_cons. cbn [isWideChar].
  intros [Ha Hch]%andb_true_iff Hc.
  rewrite Ha, all_append, Hch. cbn [Js.all]. by rewrite Hc.
Qed.

Lemma startsClean_snoc (ch : string) (c : ascii) :
  startsClean ch = true -> startsClean (ch +:+ String c "") = true.
Proof. by destruct ch. Qed.

Lemma startsClean_app (a b : string) : startsClean a = true -> startsClean (a +:+ b) = true.
Proof. by destruct a. Qed.

Lemma mapFrom_pending_clean (ch s : string) :
  isWideChar ch = true -> startsClean ch = true ->
  startsClean (mapFrom "" (Some ch) s) = true.
Proof using up_clean.
  revert ch. induction s as [|c s IH]; intros ch Hwide Hclean.
  - cbn. by apply up_clean.
  - cbn [Js.caseFrom]. destruct (Js.isContinuation c) eqn:Hc.
    + cbn [default]. apply IH; [by apply isWideChar_snoc|by apply startsClean_snoc].
    + apply startsClean_app. by apply up_clean.
Qed.

(** Mapping a mapped text again changes nothing. *)
Lemma mapFrom_idempotent (s : string) (p : option string) :
  from_option (fun ch => isWideChar ch) true p = true ->
  mapFrom "" None (mapFrom "" p s) = mapFrom "" p s.
Proof using narrow_ascii narrow_idempotent up_up up_clean.
  revert p. induction s as [|c s IH]; intros p Hp.
  - destruct p as [ch|]; [|done]. cbn. by apply up_up.
  - cbn [Js.caseFrom]. destruct (Js.isContinuation c) eqn:Hc.
    + apply IH. destruct p as [ch|]; cbn [default from_option] in *.
      * by apply isWideChar_snoc.
      * rewrite string_append_empty_l. cbn [isWideChar Js.all].
        by rewrite (continuation_not_ascii c Hc).
    + assert (Hflush : mapFrom "" None (match p with Some ch => up ch | None => "" end) =
                       match p with Some ch => up ch | None => "" end).
      { destruct p as [ch|]; [by apply up_up|done]. }
      destruct (Js.isAscii c) eqn:Ha.
      * rewrite mapFrom_app.
        2:{ right. cbn. apply negb_true_iff.
            destruct (Js.isContinuation (narrow c)) eqn:E; [|done].
            apply continuation_not_ascii in E. by rewrite narrow_ascii in E. }
        rewrite Hflush. f_equal.
        cbn [Js.caseFrom].
        destruct (Js.isContinuation (narrow c)) eqn:E.
        { apply continuation_not_ascii in E. by rewrite narrow_ascii in E. }
        rewrite narrow_ascii by done. cbn [default]. change ("" +:+ ?a) with a.
        rewrite narrow_idempotent. f_equal.
        rewrite !(mapFrom_before (_ +:+ String _ "") "").
        by apply IH.
      * assert (Hchar : isWideChar (String c "") = true) by (cbn [isWideChar Js.all]; by rewrite Ha).
        assert (Hclean : startsClean (String c "") = true) by (cbn [startsClean]; by rewrite Hc).
        rewrite mapFrom_app.
        2:{ right. rewrite (mapFrom_before (_ +:+ _) ""). by apply mapFrom_pending_clean. }
        rewrite Hflush. f_equal.
        rewrite !(mapFrom_before (_ +:+ _) ""). by apply IH.
Qed.

End UpperCase.

(** ** A runtime for running the model

    [sampleRuntime vars] is a process whose environment holds [vars].  Its
    built-ins agree with JavaScript on the inputs named here and are used on
    no others: [toLowerCase] and [toUpperCase] on the characters up to
    U+017F, the Kelvin sign and the Angstrom sign; [JSON.parse] on the
    fragment of [Json.parse]; [Number] and [String] on integers written in
    decimal; [Date.parse] on the texts [toISOString] produces and on the
    dates of the lines of nginx, and [toISOString] on the years 0 to 9999;
    [new URL] on [http] and [https] addresses made of a host, a port and a
    path.  The clock starts at 2023-11-14T22:13:20Z and advances by one
    millisecond between readings. *)

Module Sample.

(** The UTF-8 text of a character below U+10000. *)
Definition character (cp : nat) : string :=
  if cp <? 128 then Js.ofBytes [cp]
  else if cp <? 2048 then Js.ofBytes [192 + cp / 64; 128 + cp mod 64]
  else Js.ofBytes [224 + cp / 4096; 128 + cp / 64 mod 64; 128 + cp mod 64].

Definition text (cps : list nat) : string :=
  fold_right (fun cp s => character cp +:+ s) EmptyString cps.

(** The lower case of the characters from U+0080 to U+017F, of the Kelvin
    sign and of the Angstrom sign. *)
Definition lowerPairs : list (nat * list nat) :=
  [
    (192, [224]); (193, [225]); (194, [226]); (195, [227]); (196, [228]); (197, [229]);
    (198, [230]); (199, [231]); (200, [232]); (201, [233]); (202, [234]); (203, [235]);
    (204, [236]); (205, [237]); (206, [238]); (207, [239]); (208, [240]); (209, [241]);
    (210, [242]); (211, [243]); (212, [244]); (213, [245]); (214, [246]); (216, [248]);
    (217, [249]); (218, [250]); (219, [251]); (220, [252]); (221, [253]); (222, [254]);
    (256, [257]); (258, [259]); (260, [261]); (262, [263]); (264, [265]); (266, [267]);
    (268, [269]); (270, [271]); (272, [273]); (274, [275]); (276, [277]); (278, [279]);
    (280, [281]); (282, [283]); (284, [285]); (286, [287]); (288, [289]); (290, [291]);
    (292, [293]); (294, [295]); (296, [297]); (298, [299]); (300, [301]); (302, [303]);
    (304, [105; 775]); (306, [307]); (308, [309]); (310, [311]); (313, [314]); (315, [316]);
    (317, [318]); (319, [320]); (321, [322]); (323, [324]); (325, [326]); (327, [328]);
    (330, [331]); (332, [333]); (334, [335]); (336, [337]); (338, [339]); (340, [341]);
    (342, [343]); (344, [345]); (346, [347]); (348, [349]); (350, [351]); (352, [353]);
    (354, [355]); (356, [357]); (358, [359]); (360, [361]); (362, [363]); (364, [365]);
    (366, [367]); (368, [369]); (370, [371]); (372, [373]); (374, [375]); (376, [255]);
    (377, [378]); (379, [380]); (381, [382]); (33 * 256 + 42, [107]); (33 * 256 + 43, [229])
  ].

(** The upper case of the characters from U+0080 to U+017F. *)
Definition upperPairs : list (nat * list nat) :=
  [
    (181, [924]); (223, [83; 83]); (224, [192]); (225, [193]); (226, [194]); (227, [195]);
    (228, [196]); (229, [197]); (230, [198]); (231, [199]); (232, [200]); (233, [201]);
    (234, [202]); (235, [203]); (236, [204]); (237, [205]); (238, [206]); (239, [207]);
    (240, [208]); (241, [209]); (242, [210]); (243, [211]); (244, [212]); (245, [213]);
    (246, [214]); (248, [216]); (249, [217]); (250, [218]); (251, [219]); (252, [220]);
    (253, [221]); (254, [222]); (255, [376]); (257, [256]); (259, [258]); (261, [260]);
    (263, [262]); (265, [264]); (267, [266]); (269, [268]); (271, [270]); (273, [272]);
    (275, [274]); (277, [276]); (279, [278]); (281, [280]); (283, [282]); (285, [284]);
    (287, [286]); (289, [288]); (291, [290]); (293, [292]); (295, [294]); (297, [296]);
    (299, [298]); (301, [300]); (303, [302]); (305, [73]); (307, [306]); (309, [308]);
    (311, [310]); (314, [313]); (316, [315]); (318, [317]); (320, [319]); (322, [321]);
    (324, [323]); (326, [325]); (328, [327]); (329, [700; 78]); (331, [330]); (333, [332]);
    (335, [334]); (337, [336]); (339, [338]); (341, [340]); (343, [342]); (345, [344]);
    (347, [346]); (349, [348]); (351, [350]); (353, [352]); (355, [354]); (357, [356]);
    (359, [358]); (361, [360]); (363, [362]); (365, [364]); (367, [366]); (369, [368]);
    (371, [370]); (373, [372]); (375, [374]); (378, [377]); (380, [379]); (382, [381]);
    (383, [83])
  ].

(** The mapping of a character by a table; a character the table does
    not hold is left as it is. *)
Definition mapped (pairs : list (nat * list nat)) (ch : string) : string :=
  match List.find (fun entry => bool_decide (character (fst entry) = ch)) pairs with
  | Some entry => text (snd entry)
  | None => ch
  end.

Definition upperCase : string -> string :=
  Js.caseFrom Js.upperChar (fun _ ch _ => mapped upperPairs ch) EmptyString None.

Lemma upperChar_ascii c : Js.isAscii c = true -> Js.isAscii (Js.upperChar c) = true.
Proof. destruct c as [[] [] [] [] [] [] [] []]; by vm_compute. Qed.

Lemma upperChar_idempotent c : Js.upperChar (Js.upperChar c) = Js.upperChar c.
Proof. destruct c as [[] [] [] [] [] [] [] []]; by vm_compute. Qed.

Lemma all_weaken (p q : ascii -> bool) s :
  (forall c, p c = true -> q c = true) -> Js.all p s = true -> Js.all q s = true.
Proof.
  intros Hpq. induction s as [|c s IH]; [done|]. cbn.
  intros [Hc Hs]%andb_true_iff. by rewrite (Hpq c Hc), IH.
Qed.

Lemma mapped_lower_letters ch :
  Js.all (fun c => negb (Js.isAscii c)) ch = true ->
  Js.all (fun c => Js.isLower c || negb (Js.isAscii c)) (mapped lowerPairs ch) = true.
Proof.
  intros Hch. unfold mapped.
  destruct (List.find _ lowerPairs) as [entry|] eqn:Hfind.
  - apply find_some in Hfind as [Hin _].
    assert (Hall : forallb (fun entry => Js.all (fun c => Js.isLower c || negb (Js.isAscii c))
                                          (text (snd entry))) lowerPairs = true)
      by (vm_compute; reflexivity).
    rewrite forallb_forall in Hall. by apply Hall.
  - eapply all_weaken; [|exact Hch]. intros c Hc. by rewrite Hc, orb_true_r.
Qed.

Lemma mapped_upper_upper ch :
  isWideChar ch = true -> upperCase (mapped upperPairs ch) = mapped upperPairs ch.
Proof.
  intros Hch. unfold mapped at 1 2.
  destruct (List.find _ upperPairs) as [entry|] eqn:Hfind.
  - apply find_some in Hfind as [Hin _].
    assert (Hall : forallb (fun entry => bool_decide (upperCase (text (snd entry)) = text (snd entry)))
                     upperPairs = true)
      by (vm_compute; reflexivity).
    rewrite forallb_forall in Hall. eapply bool_decide_eq_true_1. by apply Hall.
  - destruct ch as [|c rest]; [done|]. cbn [isWideChar] in Hch.
    apply andb_true_iff in Hch as [Hc Hrest]. apply negb_true_iff in Hc.
    unfold upperCase. cbn [Js.caseFrom]. rewrite Hc.
    destruct (Js.isContinuation c); cbn [default]; rewrite !string_append_empty_l;
      rewrite (mapFrom_continued _ _ _ _ Hrest); unfold mapped;
      rewrite string_append_cons, string_append_empty_l; by rewrite Hfind.
Qed.

Lemma mapped_upper_clean ch :
  isWideChar ch = true -> startsClean ch = true -> startsClean (mapped upperPairs ch) = true.
Proof.
  intros _ Hclean. unfold mapped.
  destruct (List.find _ upperPairs) as [entry|] eqn:Hfind; [|done].
  apply find_some in Hfind as [Hin _].
  assert (Hall : forallb (fun entry => startsClean (text (snd entry))) upperPairs = true)
    by (vm_compute; reflexivity).
  rewrite forallb_forall in Hall. by apply Hall.
Qed.

(** The case tables of the characters up to U+017F and of the Kelvin and
    Angstrom signs; any other character is left as it is. *)
Definition caseTables : Js.CaseTables :=
  {| Js.lowerOf := fun _ ch _ => mapped lowerPairs ch;
     Js.upperOf := mapped upperPairs;
     Js.lowerOf_letters := fun _ ch _ => mapped_lower_letters ch;
     Js.upperOf_idempotent := fun s =>
       mapFrom_idempotent Js.upperChar (mapped upperPairs) upperChar_ascii
         upperChar_idempotent mapped_upper_upper mapped_upper_clean s None eq_refl |}.

Local Open Scope Z_scope.

Fixpoint digitsOf (fuel : nat) (n : Z) (acc : string) : string :=
  match fuel with
  | O => acc
  | S fuel' =>
      let acc' := String (ascii_of_nat (48 + Z.to_nat (n mod 10))) acc in
      if n <? 10 then acc' else digitsOf fuel' (n / 10) acc'
  end.

(** The decimal text of an integer. *)
Definition decimal (z : Z) : string :=
  let text (n : Z) := digitsOf (S (Z.to_nat (Z.log2 n))) n EmptyString in
  if z <? 0 then "-" +:+ text (- z) else text z.

(** The decimal text padded with zeros to [width] digits. *)
Definition padded (width : nat) (z : Z) : string :=
  let text := decimal z in
  Js.join EmptyString (repeat "0"%string (width - String.length text)) +:+ text.

Definition numberToString (x : spec_float) : string :=
  match x with
  | S754_nan => "NaN"
  | S754_infinity false => "Infinity"
  | S754_infinity true => "-Infinity"
  | _ => decimal (Num.truncZ x)
  end.

Definition numberOfString (s : string) : spec_float :=
  let text := Js.trim s in
  let negative := Js.startsWith "-" text in
  let digits := if negative || Js.startsWith "+" text then Js.drop 1 text else text in
  if Js.isEmpty text then S754_zero false
  else if Js.isEmpty digits || negb (Js.all Js.isDigit digits) then S754_nan
  else
    let magnitude := Num.ofZ (Json.digitsValue 0 digits) in
    if negative then SFopp magnitude else magnitude.

(** Days since 1970-01-01 of a date of the proleptic Gregorian calendar. *)
Definition daysFromCivil (year month day : Z) : Z :=
  let y := if month <=? 2 then year - 1 else year in
  let era := y / 400 in
  let yoe := y - era * 400 in
  let doy := (153 * (if 2 <? month then month - 3 else month + 9) + 2) / 5 + day - 1 in
  let doe := yoe * 365 + yoe / 4 - yoe / 100 + doy in
  era * 146097 + doe - 719468.

(** The year, month and day of a number of days since 1970-01-01. *)
Definition civilFromDays (days : Z) : Z * Z * Z :=
  let z := days + 719468 in
  let era := z / 146097 in
  let doe := z - era * 146097 in
  let yoe := (doe - doe / 1460 + doe / 36524 - doe / 146096) / 365 in
  let doy := doe - (365 * yoe + yoe / 4 - yoe / 100) in
  let mp := (5 * doy + 2) / 153 in
  let day := doy - (153 * mp + 2) / 5 + 1 in
  let month := if mp <? 10 then mp + 3 else mp - 9 in
  (yoe + era * 400 + (if month <=? 2 then 1 else 0), month, day).

Definition msPerDay : Z := 86400000.

Definition toISOString (t : Z) : string :=
  let days := t / msPerDay in
  let ms := t mod msPerDay in
  let '(year, month, day) := civilFromDays days in
  padded 4 year +:+ "-" +:+ padded 2 month +:+ "-" +:+ padded 2 day +:+ "T" +:+
  padded 2 (ms / 3600000) +:+ ":" +:+ padded 2 (ms / 60000 mod 60) +:+ ":" +:+
  padded 2 (ms / 1000 mod 60) +:+ "." +:+ padded 3 (ms mod 1000) +:+ "Z".

(** The digits of [s] from [start], [count] of them, as a number. *)
Definition field (s : string) (start count : nat) : option Z :=
  let text := Js.take count (Js.drop start s) in
  if (String.length text =? count)%nat && Js.all Js.isDigit text
  then Some (Json.digitsValue 0 text) else None.

(** The time value of a date and a time of day, in milliseconds. *)
Definition timeValue (year month day hour minute second ms : Z) : option Z :=
  if (1 <=? month) && (month <=? 12) && (1 <=? day) &&
     bool_decide (civilFromDays (daysFromCivil year month day) = (year, month, day)) &&
     (hour <? 24) && (minute <? 60) && (second <? 60)
  then Some (daysFromCivil year month day * msPerDay +
             hour * 3600000 + minute * 60000 + second * 1000 + ms)
  else None.

(** A text of [toISOString]: [2024-10-10T13:55:36.000Z]. *)
Definition isoDateParse (s : string) : option Z :=
  let punctuation :=
    List.map (fun i => Js.take 1 (Js.drop i s)) [4; 7; 10; 13; 16; 19; 23]%nat in
  if (String.length s =? 24)%nat &&
     bool_decide (punctuation = ["-"; "-"; "T"; ":"; ":"; "."; "Z"]%string)
  then
    year ← field s 0 4; month ← field s 5 2; day ← field s 8 2;
    hour ← field s 11 2; minute ← field s 14 2; second ← field s 17 2;
    ms ← field s 20 3;
    timeValue year month day hour minute second ms
  else None.

Definition monthNames : list string :=
  ["Jan"; "Feb"; "Mar"; "Apr"; "May"; "Jun"; "Jul"; "Aug"; "Sep"; "Oct"; "Nov"; "Dec"]%string.

Fixpoint monthFrom (number : Z) (names : list string) (name : string) : option Z :=
  match names with
  | [] => None
  | first :: rest =>
      if bool_decide (first = name) then Some number else monthFrom (number + 1) rest name
  end.

(** The date of a line of nginx once [parseNginxTimestamp] has put a space
    after the year: [10/Oct/2024 13:55:36 +0000], with the offset of the
    time zone in hours and minutes. *)
Definition nginxDateParse (s : string) : option Z :=
  let punctuation :=
    List.map (fun i => Js.take 1 (Js.drop i s)) [2; 6; 11; 14; 17; 20]%nat in
  if (String.length s =? 26)%nat &&
     bool_decide (punctuation = ["/"; "/"; " "; ":"; ":"; " "]%string)
  then
    day ← field s 0 2; month ← monthFrom 1 monthNames (Js.take 3 (Js.drop 3 s));
    year ← field s 7 4;
    hour ← field s 12 2; minute ← field s 15 2; second ← field s 18 2;
    sign ← (if Js.startsWith "+" (Js.drop 21 s) then Some 1
            else if Js.startsWith "-" (Js.drop 21 s) then Some (-1) else None);
    zoneHours ← field s 22 2; zoneMinutes ← field s 24 2;
    local ← timeValue year month day hour minute second 0;
    Some (local - sign * (zoneHours * 60 + zoneMinutes) * 60000)
  else None.

Definition dateParse (s : string) : option Z :=
  match isoDateParse s with
  | Some t => Some t
  | None => nginxDateParse s
  end.

Definition isHostChar (c : ascii) : bool :=
  Js.isLower c || Js.isUpper c || Js.isDigit c ||
  bool_decide (c = "."%char) || bool_decide (c = "-"%char).

Definition urlHostname (s : string) : option string :=
  let afterScheme :=
    if Js.startsWith "http://" s then Some (Js.drop 7 s)
    else if Js.startsWith "https://" s then Some (Js.drop 8 s)
    else None in
  rest ← afterScheme;
  let host := Js.takeWhile isHostChar rest in
  let tail := Js.dropWhile isHostChar rest in
  if Js.isEmpty host then None
  else if Js.isEmpty tail || Js.startsWith "/" tail ||
          (Js.startsWith ":" tail &&
           Js.all Js.isDigit (Js.takeWhile (notChar "/") (Js.drop 1 tail)))
  then Some (Js.asciiLower host)
  else None.

Definition lookup (vars : list (string * string)) (name : string) : option string :=
  snd <$> List.find (fun kv => bool_decide (fst kv = name)) vars.

Definition jsonParse (text : string) : option JValue :=
  match Json.parse text with
  | Json.Parsed v _ => Some v
  | _ => None
  end.

End Sample.

Definition sampleRuntime (vars : list (string * string)) : Runtime :=
  {| caseTables := Sample.caseTables;
     env := Sample.lookup vars;
     os_hostname := "control-plane";
     JSON_parse := Sample.jsonParse;
     Number_ofString := Sample.numberOfString;
     Number_toString := Sample.numberToString;
     Date_parse := Sample.dateParse;
     Date_ofObject := fun _ => None;
     Date_toISOString := Sample.toISOString;
     Date_now := fun reads => (1700000000000 + Z.of_nat reads)%Z;
     URL_hostname := Sample.urlHostname;
     randomUUID := fun draws => "job-" +:+ Sample.decimal (Z.of_nat draws) |}.

(** ** Data for the examples *)

Module Demo.

(** A JSON object text from its keys and the texts of its values. *)
Definition object (fields : list (string * string)) : string :=
  "{" +:+ Js.join "," (List.map (fun kv => Json.quote (fst kv) +:+ ":" +:+ snd kv) fields) +:+ "}".

Definition array (items : list string) : string := "[" +:+ Js.join "," items +:+ "]".

(** One entry of [AUTO_DEPLOY_PROJECTS]. *)
Definition project (name repo branchName : string) (domainNames : list string) : string :=
  object [ ("projectName", Json.quote name);
           ("repository", Json.quote repo);
           ("branch", Json.quote branchName);
           ("repoPath", Json.quote ("/var/www/projects/" +:+
                                   @normalizeProject Sample.caseTables name));
           ("deployCommand", Json.quote "npm run deploy");
           ("domains", array (List.map Json.quote domainNames)) ].

(** A process with auto deploy enabled, the token [s3cret-token] and the
    given projects. *)
Definition tokenRuntime (projects : list string) : Runtime :=
  sampleRuntime [ ("AUTO_DEPLOY_ENABLED", "true");
                  ("AUTO_DEPLOY_WEBHOOK_TOKEN", "s3cret-token");
                  ("AUTO_DEPLOY_PROJECTS", array projects) ].

(** The same with a webhook secret configured as well. *)
Definition tokenAndSecretRuntime (projects : list string) : Runtime :=
  sampleRuntime [ ("AUTO_DEPLOY_ENABLED", "true");
                  ("AUTO_DEPLOY_WEBHOOK_TOKEN", "s3cret-token");
                  ("GITHUB_WEBHOOK_SECRET", "hmac-key");
                  ("AUTO_DEPLOY_PROJECTS", array projects) ].

(** Auto deploy enabled and neither a token nor a secret. *)
Definition noAuthRuntime (projects : list string) : Runtime :=
  sampleRuntime [ ("AUTO_DEPLOY_ENABLED", "true");
                  ("AUTO_DEPLOY_PROJECTS", array projects) ].

Definition acmeMain : string := project "Acme App" "org/acme" "main" ["acme.example.com"].
Definition acmeAnyBranch : string := project "Acme App" "org/acme" "*" ["acme.example.com"].
Definition betaMain : string := project "Beta App" "org/beta" "main" [].

(** The payload of a push to [ref] of the repository [fullName]. *)
Definition pushPayload (ref name fullName : string) : JValue :=
  JObject [ ("ref", JString ref);
            ("after", JString "0123456789abcdef0123456789abcdef01234567");
            ("repository", JObject [("name", JString name); ("full_name", JString fullName)]);
            ("pusher", JObject [("name", JString "octocat")]) ].

(** A delivery of [event] with the query token [token]. *)
Definition delivery (event : string) (token : option string) (payload : JValue) : WebhookRequest :=
  {| query_token := token;
     headers := {[ "x-github-event" := HeaderOne event ]};
     body := Some payload |}.

Definition pushTo (ref : string) : WebhookRequest :=
  delivery "push" (Some "s3cret-token") (pushPayload ref "acme" "org/acme").

(** A request body with a space after the colon, the same with a tab in
    its place, and what [JSON.stringify] makes of the value of either. *)
Definition spacedBody : string :=
  "{" +:+ Json.quote "ref" +:+ ": " +:+ Json.quote "refs/heads/main" +:+ "}".
Definition tabbedBody : string :=
  "{" +:+ Json.quote "ref" +:+ String ":" (String "009" (Json.quote "refs/heads/main" +:+ "}")).
Definition compactBody : string :=
  "{" +:+ Json.quote "ref" +:+ ":" +:+ Json.quote "refs/heads/main" +:+ "}".
Definition bodyPayload : JValue := JObject [("ref", JString "refs/heads/main")].

(** The number of positions at which two texts differ, the longer one's
    extra characters included. *)
Fixpoint differences (a b : string) : nat :=
  match a, b with
  | String x a', String y b' => (if bool_decide (x = y) then 0 else 1) + differences a' b'
  | EmptyString, rest | rest, EmptyString => String.length rest
  end.

(** The header GitHub sends for a body signed with [key]. *)
Definition signatureOf (key text : string) : string :=
  "sha256=" +:+ Hex.encode (Sha256.hmac key text).

(** Two projects, [acme-app] with the domain [acme.example.com] and
    [beta-app] without a domain. *)
Definition twoProjects : Runtime := tokenRuntime [acmeMain; betaMain].

(** A parsed access-log line. *)
Definition line (host path : string) (hint : option string) : ParsedRequestLogLine :=
  {| line_timestamp := None; line_method := "GET"; line_statusCode := Some 200%Z;
     line_host := host; line_path := path; line_message := "GET " +:+ path;
     line_remoteAddr := None; line_projectHint := hint |}.

(** The two configurations [twoProjects] parses. *)
Definition acmeConfig : AutoDeployProjectConfig :=
  {| projectName := "Acme App"; projectSlug := "acme-app"; repository := "org/acme";
     repositoryCanonical := "acme"; branch := "main";
     repoPath := "/var/www/projects/acme-app"; deployCommand := "npm run deploy";
     environment := "Production"; remoteHost := None; domains := ["acme.example.com"] |}.

Definition betaConfig : AutoDeployProjectConfig :=
  {| projectName := "Beta App"; projectSlug := "beta-app"; repository := "org/beta";
     repositoryCanonical := "beta"; branch := "main";
     repoPath := "/var/www/projects/beta-app"; deployCommand := "npm run deploy";
     environment := "Production"; remoteHost := None; domains := [] |}.

(** A JSON log line for the host of [acme-app] that names [Beta App]. *)
Definition hintedLine : string :=
  object [("request", Json.quote "GET / HTTP/1.1");
          ("host", Json.quote "acme.example.com");
          ("project", Json.quote "Beta App")].

(** A combined-format line without a host whose path goes through
    [/beta-app/] and ends in [acme-app]. *)
Definition nestedPathLine : string :=
  "1.2.3.4 - - [10/Oct/2024:13:55:36 +0000] " +:+
  Json.quote "GET /beta-app/acme-app HTTP/1.1" +:+ " 200 512 " +:+
  Json.quote "-" +:+ " " +:+ Json.quote "curl".

(** The normalised host, the path, and the slug the line is attributed to. *)
Definition attributionOf {rt : Runtime} (text : string) : option (string * string * string) :=
  match parseRequestLogLine text with
  | Normal (Some entry) =>
      Some (normalizeHost (line_host entry), line_path entry,
            resolveProjectSlugFromRequestLog entry)
  | _ => None
  end.

End Demo.

From Stdlib Require Import Sorting.Sorted.

(** ** The other functions of index.ts *)

(** index.ts, [deriveProjectCategory]; a backslash becomes a slash. *)
Definition deriveProjectCategory (repoPath : string) : string :=
  let normalizedPath :=
    Js.map (fun c => if bool_decide (c = Json.backslash) then "/"%char else c)
      (Js.trim repoPath) in
  let marker := "/var/www/projects/" in
  if negb (Js.startsWith marker normalizedPath) then "uncategorized"
  else
    let relative := Js.drop (String.length marker) normalizedPath in
    match head (Js.split "/" relative) with
    | Some category => Js.orElse (Js.trim category) "uncategorized"
    | None => "uncategorized"
    end.

(** A character of ASCII that is not white space. *)
Definition isVisible (c : ascii) : bool := Js.isAscii c && negb (Js.isSpace c).

(** A byte of white space: white space of ASCII, or a byte of a character
    outside ASCII. *)
Definition isSpaceByte (c : ascii) : bool := Js.isSpace c || negb (Js.isAscii c).

(** A character of one part of the name of a repository: a character of
    ASCII that is no white space and no slash. *)
Definition isRepoPartChar (c : ascii) : bool :=
  isVisible c && negb (bool_decide (c = "/"%char)).

(** A character of ASCII that is no line terminator, that is, no line
    feed and no carriage return. *)
Definition isLineChar (c : ascii) : bool :=
  Js.isAscii c && negb (Js.startsTerminator (String c EmptyString)).

(** A character of a host name: a character of ASCII that is no white
    space, no slash and no colon. *)
Definition isHostnameChar (c : ascii) : bool :=
  isVisible c && negb (bool_decide (c = "/"%char)) && negb (bool_decide (c = ":"%char)).

(** A position at which [[^/\s]+] stops: a slash or white space. *)
Definition endsRepoPart (s : string) : bool := Js.startsWith "/" s || Js.startsSpace s.

(** The two groups of [([^/\s]+)\/([^/\s]+)$] at the start of [s]: the
    first run stops at the first slash or white space, which has to be a
    slash, and the second run has to reach the end of the input. *)
Definition ownerAndRepo (s : string) : option (string * string) :=
  let owner := Js.takeUntil endsRepoPart s in
  match Js.dropUntil endsRepoPart s with
  | String c repo =>
      if bool_decide (c = "/"%char) && negb (Js.isEmpty owner) &&
         negb (Js.isEmpty repo) && negb (Js.anywhere endsRepoPart repo)
      then Some (owner, repo) else None
  | EmptyString => None
  end.

(** [s.match(/literal([^/\s]+)\/([^/\s]+)$/i)] for a [literal] of ASCII
    in lower case: the leftmost position at which the pattern matches. *)
Fixpoint matchOwnerAndRepo (literal s : string) : option (string * string) :=
  match (if Js.startsWith literal (Js.asciiLower s)
         then ownerAndRepo (Js.drop (String.length literal) s) else None) with
  | Some groups => Some groups
  | None =>
      match s with
      | EmptyString => None
      | String _ s' => matchOwnerAndRepo literal s'
      end
  end.

(** A character of the name of a GitHub account or repository: a letter,
    a digit, a dash, an underscore or a dot. *)
Definition isGitHubNameChar (c : ascii) : bool :=
  isLetter c || Js.isDigit c || Js.includes (String c EmptyString) "-_.".

(** index.ts, [parseGitHubRepoFromRemote]: the owner and the repository. *)
Definition parseGitHubRepoFromRemote (remoteUrl : string) : option (string * string) :=
  let trimmed := stripGitSuffix (Js.trim remoteUrl) in
  match matchOwnerAndRepo "github.com:" trimmed with
  | Some sshLike => Some sshLike
  | None => matchOwnerAndRepo "github.com/" trimmed
  end.

(** [Math.max(x, y)] *)
Definition mathMax (x y : spec_float) : spec_float :=
  match x, y with
  | S754_nan, _ | _, S754_nan => S754_nan
  | S754_zero sx, S754_zero sy => S754_zero (sx && sy)
  | _, _ => if SFltb x y then y else x
  end.

(** A process to start: the arguments of [execFileAsync(file, args)]. *)
Record Command : Set := {
  command_file : string;
  command_args : list string;
}.

(** The reply of [GET /v1/deployments/latest]: an error with its status,
    or the field [data] of the body. *)
Inductive LatestReply : Type :=
| LatestError (status : nat) (error : string)
| LatestData (data : option Deployment).

(** What the auto-deploy queue goes through: a job is queued, or the job
    at a position of the list of scheduled jobs settles. *)
Inductive QueueEvent : Type :=
| Queued (project : AutoDeployProjectConfig) (context : AutoDeployContext)
| Settled (job : nat).

Section Service.

Context {rt : Runtime}.

(** index.ts, [toPositiveInteger]; the fallback and [Math.trunc] of a
    finite number are integers. *)
Definition toPositiveInteger (rawValue : option string) (fallback : Z) : Z :=
  let parsed := toNumber rawValue in
  if negb (Num.isFinite parsed) || SFleb parsed (Num.ofZ 0) then fallback
  else Num.truncZ parsed.

Definition remoteTrackerLogPath : string :=
  default "~/.runcloud-clone/deployments.jsonl" (env "DEPLOY_TRACKER_REMOTE_LOG_PATH").

Definition requestLogRemoteHost : option string :=
  let value := Js.trim (default autoDeployDefaultRemoteHost (env "REQUEST_LOG_REMOTE_HOST")) in
  if Js.isEmpty value then None else Some value.

Definition requestLogRemotePath : string :=
  Js.orElse (Js.trim (default "/var/log/nginx/access.log" (env "REQUEST_LOG_REMOTE_PATH")))
    "/var/log/nginx/access.log".

Definition requestLogTailLines : Z := toPositiveInteger (env "REQUEST_LOG_TAIL_LINES") 600.

Definition requestLogTailMultiplier : Z :=
  toPositiveInteger (env "REQUEST_LOG_TAIL_MULTIPLIER") 25.

(** index.ts, [validateProjectInput]: the error, if any. The keys of the
    map come in the order in which they were first inserted. *)
Definition validateProjectInput (input : option string) : option string :=
  match input with
  | None => None
  | Some text =>
      if Js.isEmpty text then None
      else
        let normalized := normalizeProject text in
        if bool_decide (size autoDeployProjectsBySlug = 0) then
          if bool_decide (normalized = fallbackProjectSlug) then None
          else Some ("Only " +:+ fallbackProjectName +:+ " (" +:+ fallbackProjectSlug +:+
                     ") is configured right now")
        else if bool_decide (is_Some (autoDeployProjectsBySlug !! normalized)) then None
        else
          let available := Js.join ", " (dedupe (List.map projectSlug autoDeployProjects)) in
          Some ("Unknown project (" +:+ normalized +:+ "). Configured projects: " +:+ available)
  end.

(** index.ts, [runAutoDeploy]: the process it starts. *)
Definition runAutoDeployCommand (project : AutoDeployProjectConfig) (context : AutoDeployContext)
  : Command :=
  let script := buildAutoDeployScript project (ctx_branch context) in
  let targetHost := Js.trim <$> remoteHost project in
  match targetHost with
  | Some host =>
      if Js.isEmpty host then {| command_file := "bash"; command_args := ["-lc"; script] |}
      else {| command_file := "ssh";
              command_args := ["-o"; "BatchMode=yes"; "-o"; "ConnectTimeout=10"; host;
                               "bash -lc " +:+ shellQuote script] |}
  | None => {| command_file := "bash"; command_args := ["-lc"; script] |}
  end.

(** index.ts, [readRemoteTracker]: the command it runs on the remote host
    for a [limit] that is an integer. *)
Definition remoteTrackerCommand (limit : Z) : string :=
  "tail -n " +:+
  Number_toString (mathMax (Num.mul (Num.ofZ limit) (Num.ofZ 5)) (Num.ofZ 100)) +:+
  " " +:+ shellQuote remoteTrackerLogPath +:+ " || true".

(** index.ts, [readRemoteRequestLogs]: the number of lines it asks for. *)
Definition tailedLines (limit : Z) : spec_float :=
  mathMax (Num.ofZ requestLogTailLines)
    (Num.mul (Num.ofZ limit) (Num.ofZ requestLogTailMultiplier)).

(** index.ts, [readRemoteRequestLogs]: the command it runs on the remote
    host. *)
Definition remoteRequestLogsCommand (limit : Z) : string :=
  "tail -n " +:+ Number_toString (tailedLines limit) +:+ " " +:+
  shellQuote requestLogRemotePath +:+ " || true".

(** index.ts, [readLocalTracker] and [readRemoteTracker], from the text
    they have read. *)
Definition readTracker (content expectedProjectSlug : string) (limit : Z) (reads : nat)
  : list Deployment * nat :=
  let expectedProjectName := resolveProjectName expectedProjectSlug in
  let '(parsed, reads') :=
    parseTrackerEntries content expectedProjectSlug expectedProjectName reads in
  (sliceTo limit parsed, reads').

(** index.ts, the handler of [GET /v1/deployments/latest], from the text
    of the tracker: the error of [validateProjectInput] with the status
    400, or [payload.data[0] ?? null]. *)
Definition latestDeployment (content : string) (project : option string) (reads : nat)
  : LatestReply :=
  match validateProjectInput project with
  | Some projectError => LatestError 400 projectError
  | None => LatestData (head (fst (readTracker content (resolveProjectSlug project) 1 reads)))
  end.

(** One event of the queue. *)
Definition queueEvent (event : QueueEvent) (st : ServerState) : ServerState :=
  match event with
  | Queued project context => snd (queueAutoDeploy project context st)
  | Settled job => settleAutoDeploy job st
  end.

(** The events of a list, one after the other. *)
Definition queueEvents (events : list QueueEvent) (st : ServerState) : ServerState :=
  foldl (fun state event => queueEvent event state) st events.

End Service.

(** ** The webhook and its queue, seen from outside *)

(** The event of a request, as the handler of the webhook reads it. *)
Definition eventOf {tables : Js.CaseTables} (request : WebhookRequest) : string :=
  Js.toLowerCase (extractHeaderValue (headers request !! "x-github-event")).


(** The jobs of one queue key are in order when the map holds, for a key,
    the last job queued under it, and a job waits, if it waits, for the
    job queued under its key just before it. *)
Definition queueInOrder (st : ServerState) : Prop :=
  (forall key n,
     autoDeployQueues st !! key = Some n ->
     exists job,
       scheduled st !! n = Some job /\ job_queueKey job = key /\
       forall m later, n < m -> scheduled st !! m = Some later -> job_queueKey later <> key) /\
  (forall n job p,
     scheduled st !! n = Some job -> job_after job = Some p ->
     p < n /\
     exists previous,
       scheduled st !! p = Some previous /\ job_queueKey previous = job_queueKey job /\
       forall m between, p < m < n -> scheduled st !! m = Some between ->
                         job_queueKey between <> job_queueKey job).

(** ** More data for the examples *)

Module Cases.

(** Two lines of the log of the tracker, for the project [acme-app]. *)
Definition firstDeployment : string :=
  Demo.object [("projectName", Json.quote "Acme App"); ("deploymentId", Json.quote "dep-1");
               ("trackedAt", Json.quote "2023-11-14T22:00:00.000Z"); ("author", Json.quote "dev")].

Definition secondDeployment : string :=
  Demo.object [("projectName", Json.quote "acme-app"); ("deploymentId", Json.quote "dep-2");
               ("trackedAt", Json.quote "2023-11-14T22:10:00.000Z");
               ("author", Json.quote "Hello-CMS-AI bot")].

(** An access log of two lines, one in each format. *)
Definition accessLog : string := Demo.hintedLine +:+ newline +:+ Demo.nestedPathLine.

(** The entries of [accessLog] for a project, for the process of
    [Demo.twoProjects]. *)
Definition entriesOf (requestedProjectSlug : option string) : list RequestLogEntry :=
  match fst (@parseRequestLogEntries Demo.twoProjects accessLog requestedProjectSlug 10 None None 0)
  with
  | Normal entries => entries
  | Throw _ => []
  end.

End Cases.

(** * Properties *)

(** ** Characters *)

Ltac ascii_cases :=
  let c := fresh "c" in
  intros c; destruct c as [[] [] [] [] [] [] [] []];
  vm_compute; intros; congruence.

Lemma isSlugChar_visible : forall c, isSlugChar c = true -> isVisible c = true.
Proof. ascii_cases. Qed.

Lemma isVisible_not_space : forall c, isVisible c = true -> Js.isSpace c = false.
Proof. ascii_cases. Qed.

Lemma isVisible_ascii : forall c, isVisible c = true -> Js.isAscii c = true.
Proof. ascii_cases. Qed.

Lemma isVisible_not_continuation : forall c, isVisible c = true -> Js.isContinuation c = false.
Proof. ascii_cases. Qed.

Lemma isSlugChar_lowerChar : forall c, isSlugChar c = true -> Js.lowerChar c = c.
Proof. ascii_cases. Qed.

Lemma isDash_not_alnum : forall c, isDash c = true -> isLowerAlnum c = false.
Proof. ascii_cases. Qed.

Lemma isDash_eq c : isDash c = true <-> c = "-"%char.
Proof. unfold isDash. apply bool_decide_eq_true. Qed.

(** ** Strings *)

Lemma all_impl (p q : ascii -> bool) s :
  (forall c, p c = true -> q c = true) -> Js.all p s = true -> Js.all q s = true.
Proof.
  intros Hpq. induction s as [|c s IH]; simpl; [done|].
  rewrite !andb_true_iff. intros [Hc Hs]. auto.
Qed.

Lemma all_dropWhile p q s : Js.all p s = true -> Js.all p (Js.dropWhile q s) = true.
Proof.
  induction s as [|c s IH]; simpl; [done|].
  rewrite andb_true_iff. intros [Hc Hs].
  destruct (q c); [auto|]. simpl. by rewrite Hc, Hs.
Qed.

Lemma all_dropWhileEnd p q s : Js.all p s = true -> Js.all p (Js.dropWhileEnd q s) = true.
Proof.
  induction s as [|c s IH]; simpl; [done|].
  rewrite andb_true_iff. intros [Hc Hs].
  destruct (q c && Js.isEmpty (Js.dropWhileEnd q s)); [done|].
  simpl. by rewrite Hc, IH.
Qed.

Lemma all_map_id p f s :
  (forall c, p c = true -> f c = c) -> Js.all p s = true -> Js.map f s = s.
Proof.
  intros Hf. induction s as [|c s IH]; simpl; [done|].
  rewrite andb_true_iff. intros [Hc Hs]. by rewrite Hf, IH.
Qed.

Lemma dropWhile_none p s :
  Js.all (fun c => negb (p c)) s = true -> Js.dropWhile p s = s.
Proof.
  destruct s as [|c s]; simpl; [done|].
  rewrite andb_true_iff, negb_true_iff. by intros [-> _].
Qed.

Lemma dropWhileEnd_none p s :
  Js.all (fun c => negb (p c)) s = true -> Js.dropWhileEnd p s = s.
Proof.
  induction s as [|c s IH]; simpl; [done|].
  rewrite andb_true_iff, negb_true_iff. intros [-> Hs]. simpl. by rewrite IH.
Qed.

Lemma startsWith_cons a p b s :
  Js.startsWith (String a p) (String b s) = bool_decide (a = b) && Js.startsWith p s.
Proof. reflexivity. Qed.

(** [includes] is monotone along suffixes and prefixes. *)
Lemma includes_tail sub c s :
  Js.includes sub s = true -> Js.includes sub (String c s) = true.
Proof. intros H. simpl. rewrite H. apply orb_true_r. Qed.

Lemma includes_dropWhile sub p s :
  Js.includes sub (Js.dropWhile p s) = true -> Js.includes sub s = true.
Proof.
  induction s as [|c s IH]; [done|].
  cbn [Js.dropWhile]. destruct (p c); [|done].
  intros H. apply includes_tail. auto.
Qed.

Lemma startsWith_dropWhileEnd sub p s :
  Js.startsWith sub (Js.dropWhileEnd p s) = true -> Js.startsWith sub s = true.
Proof.
  revert sub. induction s as [|c s IH]; intros sub; [done|].
  cbn [Js.dropWhileEnd].
  destruct (p c && Js.isEmpty (Js.dropWhileEnd p s)).
  - destruct sub; [done|]. simpl. done.
  - destruct sub as [|a sub]; [done|]. simpl.
    rewrite !andb_true_iff. intros [? ?]. split; [done|]. by apply IH.
Qed.

Lemma includes_dropWhileEnd sub p s :
  Js.includes sub (Js.dropWhileEnd p s) = true -> Js.includes sub s = true.
Proof.
  induction s as [|c s IH]; [done|].
  cbn [Js.dropWhileEnd].
  destruct (p c && Js.isEmpty (Js.dropWhileEnd p s)) eqn:E.
  - cbn [Js.includes]. rewrite orb_false_r. destruct sub; [done|]. simpl. done.
  - cbn [Js.includes]. rewrite !orb_true_iff. intros [H|H].
    + left. apply (startsWith_dropWhileEnd sub p (String c s)).
      cbn [Js.dropWhileEnd]. by rewrite E.
    + right. auto.
Qed.

Lemma dropWhile_head p s c s' : Js.dropWhile p s = String c s' -> p c = false.
Proof.
  induction s as [|a s IH]; simpl; [done|].
  destruct (p a) eqn:E; [done|]. intros [= -> _]. done.
Qed.

(** ** Substrings *)

Lemma map_append f (a b : string) : Js.map f (a +:+ b) = Js.map f a +:+ Js.map f b.
Proof.
  induction a as [|x a IH]; [done|].
  rewrite string_append_cons. cbn [Js.map]. by rewrite string_append_cons, IH.
Qed.

Lemma startsWith_iff (p s : string) :
  Js.startsWith p s = true <-> exists post, s = p +:+ post.
Proof.
  revert s. induction p as [|c p IH]; intros s.
  - split; [by exists s|done].
  - destruct s as [|d s].
    + split; [done|]. intros [post Hpost]. by rewrite string_append_cons in Hpost.
    + cbn [Js.startsWith]. rewrite andb_true_iff, bool_decide_eq_true, IH. split.
      * intros [-> [post ->]]. by exists post.
      * intros [post Hpost]. rewrite string_append_cons in Hpost.
        injection Hpost as -> ->. split; [done|]. by exists post.
Qed.

Lemma includes_iff (sub s : string) :
  Js.includes sub s = true <-> exists pre post, s = pre +:+ sub +:+ post.
Proof.
  induction s as [|c s IH]; cbn [Js.includes].
  - rewrite orb_false_r, startsWith_iff. split.
    + intros [post Hpost]. by exists "", post.
    + intros (pre & post & H). destruct pre; [by exists post|done].
  - rewrite orb_true_iff, startsWith_iff, IH. split.
    + intros [[post Hpost]|(pre & post & ->)].
      * by exists "", post.
      * by exists (String c pre), post.
    + intros (pre & post & H). destruct pre as [|x pre].
      * left. by exists post.
      * right. rewrite string_append_cons in H. injection H as -> ->. by exists pre, post.
Qed.

Lemma includes_trans (a b c : string) :
  Js.includes a b = true -> Js.includes b c = true -> Js.includes a c = true.
Proof.
  rewrite !includes_iff. intros (p1 & q1 & ->) (p2 & q2 & ->).
  exists (p2 +:+ p1), (q1 +:+ q2). by rewrite !string_append_assoc.
Qed.

Lemma includes_append_l (sub a b : string) :
  Js.includes sub a = true -> Js.includes sub (a +:+ b) = true.
Proof.
  rewrite !includes_iff. intros (pre & post & ->).
  exists pre, (post +:+ b). by rewrite !string_append_assoc.
Qed.

Lemma includes_map f (sub s : string) :
  Js.includes sub s = true -> Js.includes (Js.map f sub) (Js.map f s) = true.
Proof.
  rewrite !includes_iff. intros (pre & post & ->).
  exists (Js.map f pre), (Js.map f post). by rewrite !map_append.
Qed.

(** ** Lists *)

Lemma In_dedupe (x : string) (xs : list string) : In x xs -> In x (dedupe xs).
Proof.
  induction xs as [|y xs IH]; [done|]. intros [->|Hin]; cbn [dedupe]; [by left|].
  destruct (decide (y = x)) as [->|Hne]; [by left|].
  right. apply filter_In. split; [by apply IH|].
  apply negb_true_iff, bool_decide_eq_false. congruence.
Qed.

Lemma In_insertDescending {A : Type} (key : A -> Z) (x y : A) (sorted : list A) :
  In y (insertDescending key x sorted) -> y = x \/ In y sorted.
Proof.
  induction sorted as [|z sorted IH]; cbn [insertDescending].
  - intros [->|[]]. by left.
  - destruct (key z <=? key x)%Z.
    + intros [->|H]; [by left|by right].
    + intros [->|H]; [right; by left|].
      destruct (IH H) as [->|?]; [by left|right; by right].
Qed.

Lemma In_sortDescending {A : Type} (key : A -> Z) (y : A) (xs : list A) :
  In y (sortDescending key xs) -> In y xs.
Proof.
  induction xs as [|x xs IH]; [done|]. cbn. intros H.
  apply In_insertDescending in H as [->|H]; [by left|right; by apply IH].
Qed.

Lemma In_firstn_list {A : Type} (n : nat) (y : A) (xs : list A) :
  In y (firstn n xs) -> In y xs.
Proof.
  revert xs. induction n as [|n IH]; intros [|x xs]; cbn; try done.
  intros [->|H]; [by left|right; by apply IH].
Qed.

Lemma In_sliceTo {A : Type} (limit : Z) (y : A) (xs : list A) :
  In y (sliceTo limit xs) -> In y xs.
Proof. unfold sliceTo. destruct (0 <=? limit)%Z; apply In_firstn_list. Qed.

(** ** White space *)

Lemma isVisible_not_spaceByte : forall c, isVisible c = true -> isSpaceByte c = false.
Proof. ascii_cases. Qed.

Lemma length_append (a b : string) : String.length (a +:+ b) = String.length a + String.length b.
Proof. induction a as [|x a IH]; [done|]. rewrite string_append_cons. cbn. by rewrite IH. Qed.

Lemma take_drop (n : nat) (s : string) : Js.take n s +:+ Js.drop n s = s.
Proof.
  revert s. induction n as [|n IH]; intros [|c s]; try done.
  cbn [Js.take Js.drop]. by rewrite string_append_cons, IH.
Qed.

Lemma take_append (a b : string) : Js.take (String.length a) (a +:+ b) = a.
Proof.
  induction a as [|x a IH]; [by destruct b|]. rewrite string_append_cons. cbn. by rewrite IH.
Qed.

Lemma drop_length_append (a b : string) : Js.drop (String.length a) (a +:+ b) = b.
Proof. induction a as [|x a IH]; [done|]. rewrite string_append_cons. cbn. by rewrite IH. Qed.

Lemma startsWith_append_same (a b : string) : Js.startsWith a (a +:+ b) = true.
Proof. apply startsWith_iff. by exists b. Qed.

Lemma startsWith_append_l (w a b : string) :
  Js.startsWith w a = true -> Js.startsWith w (a +:+ b) = true.
Proof.
  rewrite !startsWith_iff. intros [post ->]. exists (post +:+ b).
  by rewrite string_append_assoc.
Qed.

(** The white space outside ASCII: no text of the table starts another,
    and all are bytes outside ASCII. *)
Lemma wideSpaces_bytes w :
  In w Js.wideSpaces -> Js.all (fun c => negb (Js.isAscii c)) w = true /\ 2 <= String.length w.
Proof.
  intros Hin.
  assert (H : forallb (fun w => Js.all (fun c => negb (Js.isAscii c)) w &&
                                (2 <=? String.length w)) Js.wideSpaces = true)
    by (vm_compute; reflexivity).
  rewrite forallb_forall in H. apply H, andb_true_iff in Hin as [? ?%Nat.leb_le]. done.
Qed.

Lemma find_wideSpace_append (a b : string) w :
  List.find (fun w => Js.startsWith w a) Js.wideSpaces = Some w ->
  List.find (fun w => Js.startsWith w (a +:+ b)) Js.wideSpaces = Some w.
Proof.
  intros Hfind.
  assert (Hfirst : forall ws w', List.find (fun w => Js.startsWith w a) ws = Some w' ->
            (forall v, In v ws -> Js.startsWith v (a +:+ b) = true -> Js.startsWith v a = true) ->
            List.find (fun w => Js.startsWith w (a +:+ b)) ws = Some w').
  { induction ws as [|v ws IH]; intros w' Hw' Hback; [done|].
    cbn [List.find] in *. destruct (Js.startsWith v a) eqn:Hv.
    - by rewrite startsWith_append_l.
    - destruct (Js.startsWith v (a +:+ b)) eqn:Hvb.
      + rewrite Hback in Hv; [done|by left|done].
      + apply IH; [done|]. intros u Hu. apply Hback. by right. }
  apply Hfirst; [done|].
  intros v Hv Hvb.
  apply find_some in Hfind as [Hw Hwa].
  apply startsWith_iff in Hwa as [post ->].
  rewrite string_append_assoc in Hvb.
  revert Hvb. generalize (post +:+ b). generalize post. clear -Hv Hw.
  intros post rest.
  cbn in Hv, Hw.
  repeat (destruct Hw as [<-|Hw]; [repeat (destruct Hv as [<-|Hv]; [by vm_compute|]); done|]).
  done.
Qed.

Lemma spaceWidth_visible c (r : string) : isVisible c = true -> Js.spaceWidth (String c r) = 0.
Proof.
  revert c. intros c; destruct c as [[] [] [] [] [] [] [] []]; vm_compute; congruence.
Qed.

Lemma spaceWidth_space c (r : string) : Js.isSpace c = true -> Js.spaceWidth (String c r) = 1.
Proof. intros H. unfold Js.spaceWidth. by rewrite H. Qed.

(** The white space a text starts with lies in the text, is made of bytes
    of white space, and is the white space any longer text starts with. *)
Lemma spaceWidth_prefix (s : string) (k : nat) :
  Js.spaceWidth s = S k ->
  exists w r, s = w +:+ r /\ String.length w = S k /\ Js.all isSpaceByte w = true /\
              forall b, Js.spaceWidth (s +:+ b) = S k.
Proof.
  unfold Js.spaceWidth. destruct s as [|c s]; [done|].
  destruct (Js.isSpace c) eqn:Hc.
  - intros [= <-]. exists (String c ""), s. repeat split.
    + cbn. unfold isSpaceByte. by rewrite Hc.
    + intros b. rewrite string_append_cons. by rewrite Hc.
  - destruct (List.find _ Js.wideSpaces) as [w|] eqn:Hfind; [|done].
    intros Hw. pose proof Hfind as Hin. apply find_some in Hin as [Hin Hstart].
    apply startsWith_iff in Hstart as [r Hr]. exists w, r. repeat split; [done..| |].
    + destruct (wideSpaces_bytes w Hin) as [Hbytes _].
      eapply all_impl; [|exact Hbytes]. intros x Hx. unfold isSpaceByte. by rewrite Hx, orb_true_r.
    + intros b. rewrite string_append_cons, Hc.
      rewrite <- string_append_cons. by rewrite (find_wideSpace_append _ b w Hfind).
Qed.

Lemma spaceWidth_bounds (s : string) : Js.spaceWidth s <= String.length s.
Proof.
  destruct (Js.spaceWidth s) as [|k] eqn:E; [lia|].
  destruct (spaceWidth_prefix s k E) as (w & r & -> & Hlen & _). rewrite length_append. lia.
Qed.

Lemma spaceWidth_append (a b : string) (k : nat) :
  Js.spaceWidth a = S k -> Js.spaceWidth (a +:+ b) = S k.
Proof. intros H. by destruct (spaceWidth_prefix a k H) as (_ & _ & _ & _ & _ & Hb). Qed.

Lemma startsSpace_append (a b : string) :
  Js.startsSpace a = true -> Js.startsSpace (a +:+ b) = true.
Proof.
  unfold Js.startsSpace. destruct (Js.spaceWidth a) as [|k] eqn:E; [done|].
  by rewrite (spaceWidth_append a b k E).
Qed.

Lemma startsSpace_visible c (r : string) : isVisible c = true -> Js.startsSpace (String c r) = false.
Proof. intros H. unfold Js.startsSpace. by rewrite spaceWidth_visible. Qed.

Lemma startsSpace_space c (r : string) : Js.isSpace c = true -> Js.startsSpace (String c r) = true.
Proof. intros H. unfold Js.startsSpace. by rewrite spaceWidth_space. Qed.

Lemma startsSpace_empty : Js.startsSpace "" = false.
Proof. reflexivity. Qed.

(** *** [trimStart] *)

Lemma drop_empty (k : nat) : Js.drop k "" = "".
Proof. by destruct k. Qed.

Lemma dropSpaces_skip (k : nat) (s : string) : Js.dropSpaces k s = Js.trimStart (Js.drop k s).
Proof.
  revert k. induction s as [|c s IH]; intros k; [by rewrite drop_empty|].
  destruct k as [|k]; [done|]. cbn [Js.dropSpaces Js.drop]. apply IH.
Qed.

Lemma trimStart_unfold (s : string) :
  Js.trimStart s =
  match Js.spaceWidth s with
  | O => s
  | S k => Js.trimStart (Js.drop (S k) s)
  end.
Proof.
  destruct s as [|c s]; [done|]. unfold Js.trimStart at 1. cbn [Js.dropSpaces].
  destruct (Js.spaceWidth (String c s)) as [|k]; [done|]. cbn [Js.drop]. apply dropSpaces_skip.
Qed.

Lemma trimStart_visible c (r : string) :
  isVisible c = true -> Js.trimStart (String c r) = String c r.
Proof. intros H. by rewrite trimStart_unfold, spaceWidth_visible. Qed.

Lemma trimStart_space c (r : string) :
  Js.isSpace c = true -> Js.trimStart (String c r) = Js.trimStart r.
Proof. intros H. by rewrite trimStart_unfold, spaceWidth_space. Qed.

Lemma spaceWidth_dropSpaces (s : string) (k : nat) : Js.spaceWidth (Js.dropSpaces k s) = 0.
Proof.
  revert k. induction s as [|c s IH]; intros k; [done|].
  cbn [Js.dropSpaces]. destruct k as [|k]; [|apply IH].
  destruct (Js.spaceWidth (String c s)) as [|j] eqn:E; [done|apply IH].
Qed.

Lemma spaceWidth_trimStart (s : string) : Js.spaceWidth (Js.trimStart s) = 0.
Proof. apply spaceWidth_dropSpaces. Qed.

Lemma trimStart_idem (s : string) : Js.trimStart (Js.trimStart s) = Js.trimStart s.
Proof. by rewrite (trimStart_unfold (Js.trimStart s)), spaceWidth_trimStart. Qed.

Lemma trimStart_fixed (s : string) : Js.spaceWidth s = 0 -> Js.trimStart s = s.
Proof. intros H. by rewrite trimStart_unfold, H. Qed.

(** A text of white space is made of bytes of white space. *)
Lemma dropSpaces_empty_bytes (s : string) (k : nat) :
  Js.dropSpaces k s = "" -> Js.all isSpaceByte (Js.drop k s) = true.
Proof.
  revert k. induction s as [|c s IH]; intros k H; [by rewrite drop_empty|].
  destruct k as [|k]; [|by apply IH].
  cbn [Js.dropSpaces] in H. cbn [Js.drop].
  destruct (Js.spaceWidth (String c s)) as [|j] eqn:E; [done|].
  destruct (spaceWidth_prefix _ _ E) as (w & r & Hs & Hlen & Hbytes & _).
  apply IH in H.
  rewrite <- (take_drop (S j) (String c s)).
  rewrite all_append. apply andb_true_iff. split; [|done].
  by rewrite Hs, <- Hlen, take_append.
Qed.

Lemma isBlank_bytes (s : string) : Js.isBlank s = true -> Js.all isSpaceByte s = true.
Proof.
  unfold Js.isBlank, Js.trimStart. intros H.
  apply (dropSpaces_empty_bytes s 0). by destruct (Js.dropSpaces 0 s).
Qed.

Lemma isBlank_visible (a : string) c (r : string) :
  isVisible c = true -> Js.isBlank (a +:+ String c r) = false.
Proof.
  intros Hc. destruct (Js.isBlank _) eqn:E; [|done].
  apply isBlank_bytes in E. rewrite all_append in E.
  apply andb_true_iff in E as [_ E]. cbn [Js.all] in E.
  by rewrite (isVisible_not_spaceByte c Hc) in E.
Qed.

Lemma dropSpaces_append_blank (a b : string) (k : nat) :
  k <= String.length a -> Js.dropSpaces k a = "" ->
  Js.dropSpaces k (a +:+ b) = Js.trimStart b.
Proof.
  revert k. induction a as [|c a IH]; intros k Hk H.
  - cbn in Hk. by replace k with 0 by lia.
  - rewrite string_append_cons. destruct k as [|k].
    + cbn [Js.dropSpaces] in *. rewrite <- string_append_cons.
      destruct (Js.spaceWidth (String c a)) as [|j] eqn:E; [done|].
      rewrite (spaceWidth_append _ b j E).
      apply IH; [|done]. pose proof (spaceWidth_bounds (String c a)) as Hle.
      rewrite E in Hle. cbn in Hle. lia.
    + cbn [Js.dropSpaces] in *. apply IH; [cbn in Hk; lia|done].
Qed.

Lemma trimStart_append_blank (a b : string) :
  Js.isBlank a = true -> Js.trimStart (a +:+ b) = Js.trimStart b.
Proof.
  unfold Js.isBlank, Js.trimStart. intros H.
  apply dropSpaces_append_blank; [lia|]. by destruct (Js.dropSpaces 0 a).
Qed.

Lemma isBlank_append (a b : string) :
  Js.isBlank a = true -> Js.isBlank b = true -> Js.isBlank (a +:+ b) = true.
Proof. intros Ha Hb. unfold Js.isBlank. by rewrite trimStart_append_blank. Qed.

(** The white space before a visible character is all that [trimStart]
    takes. *)
Lemma dropSpaces_append_visible (a : string) c (r : string) (k : nat) :
  isVisible c = true -> k <= String.length a ->
  exists a', Js.dropSpaces k (a +:+ String c r) = a' +:+ String c r.
Proof.
  intros Hc. revert k. induction a as [|x a IH]; intros k Hk.
  - cbn in Hk. replace k with 0 by lia. exists "".
    rewrite !string_append_empty_l. by apply trimStart_visible.
  - rewrite string_append_cons. destruct k as [|k].
    + cbn [Js.dropSpaces]. rewrite <- string_append_cons.
      destruct (Js.spaceWidth (String x a +:+ String c r)) as [|j] eqn:E; [by eexists|].
      apply IH.
      destruct (spaceWidth_prefix _ _ E) as (w & rest & Hs & Hlen & Hbytes & _).
      destruct (decide (S j <= String.length (String x a))) as [Hle|Hgt]; [cbn in Hle; lia|].
      exfalso.
      assert (Hw : w = Js.take (S j) (String x a +:+ String c r))
        by (by rewrite Hs, <- Hlen, take_append).
      assert (Hsplit : exists extra, S j = String.length (String x a) + S extra)
        by (exists (S j - String.length (String x a) - 1); lia).
      destruct Hsplit as [extra Hextra].
      assert (Htake : forall (u v : string) n,
                Js.take (String.length u + n) (u +:+ v) = u +:+ Js.take n v).
      { clear. induction u as [|y u IHu]; intros v n; [done|].
        rewrite string_append_cons. cbn. by rewrite IHu. }
      rewrite Hextra, Htake in Hw. cbn [Js.take] in Hw. subst w.
      rewrite all_append in Hbytes. apply andb_true_iff in Hbytes as [_ Hbytes].
      cbn [Js.all] in Hbytes. by rewrite (isVisible_not_spaceByte c Hc) in Hbytes.
    + cbn [Js.dropSpaces]. apply IH. cbn in Hk. lia.
Qed.

Lemma trimStart_append_visible (a : string) c (r : string) :
  isVisible c = true -> exists a', Js.trimStart (a +:+ String c r) = a' +:+ String c r.
Proof. intros Hc. apply dropSpaces_append_visible; [done|lia]. Qed.

(** *** [trimEnd] and [trim] *)

Lemma isBlank_empty : Js.isBlank "" = true.
Proof. reflexivity. Qed.

Lemma trimEnd_split (s : string) :
  exists v, s = Js.trimEnd s +:+ v /\ Js.isBlank v = true.
Proof.
  induction s as [|c s (v & Hs & Hv)]; [by exists ""|].
  cbn [Js.trimEnd]. destruct (Js.isBlank (String c s)) eqn:E.
  - by exists (String c s).
  - exists v. rewrite string_append_cons. by rewrite <- Hs.
Qed.

Lemma trimEnd_idem (s : string) : Js.trimEnd (Js.trimEnd s) = Js.trimEnd s.
Proof.
  induction s as [|c s IH]; [done|].
  cbn [Js.trimEnd]. destruct (Js.isBlank (String c s)) eqn:E; [done|].
  cbn [Js.trimEnd]. rewrite IH.
  destruct (Js.isBlank (String c (Js.trimEnd s))) eqn:E'; [|done].
  destruct (trimEnd_split s) as (v & Hs & Hv).
  rewrite Hs, <- string_append_cons, isBlank_append in E; done.
Qed.

Lemma trimEnd_blank (s : string) : Js.isBlank s = true -> Js.trimEnd s = "".
Proof. intros H. destruct s as [|c s]; [done|]. cbn [Js.trimEnd]. by rewrite H. Qed.

(** Nothing before a visible character is taken by [trimEnd]. *)
Lemma trimEnd_append_visible (a : string) c (r : string) :
  isVisible c = true -> Js.trimEnd (a +:+ String c r) = a +:+ String c (Js.trimEnd r).
Proof.
  intros Hc. induction a as [|x a IH].
  - rewrite !string_append_empty_l. cbn [Js.trimEnd].
    pose proof (isBlank_visible "" c r Hc) as H. rewrite string_append_empty_l in H.
    by rewrite H.
  - rewrite !string_append_cons. cbn [Js.trimEnd].
    pose proof (isBlank_visible (String x a) c r Hc) as H. rewrite string_append_cons in H.
    by rewrite H, IH.
Qed.

Lemma trimEnd_visible (s : string) : Js.all isVisible s = true -> Js.trimEnd s = s.
Proof.
  induction s as [|c s IH]; [done|]. cbn [Js.all]. intros [Hc Hs]%andb_true_iff.
  rewrite <- (string_append_empty_l (String c s)), trimEnd_append_visible by done.
  by rewrite IH.
Qed.

Lemma trim_visible (s : string) : Js.all isVisible s = true -> Js.trim s = s.
Proof.
  intros H. unfold Js.trim. destruct s as [|c s]; [done|].
  cbn [Js.all] in H. apply andb_true_iff in H as [Hc Hs].
  rewrite trimStart_visible by done. apply trimEnd_visible. cbn [Js.all]. by rewrite Hc.
Qed.

(** White space after visible characters is what [trimEnd] and [trim]
    take. *)
Lemma trimEnd_visible_blank (a v : string) :
  Js.all isVisible a = true -> Js.isBlank v = true -> Js.trimEnd (a +:+ v) = a.
Proof.
  intros Ha Hv. induction a as [|c a IH].
  - rewrite string_append_empty_l. by apply trimEnd_blank.
  - cbn [Js.all] in Ha. apply andb_true_iff in Ha as [Hc Ha].
    rewrite string_append_cons, <- (string_append_empty_l (String c (a +:+ v))).
    rewrite trimEnd_append_visible by done. by rewrite IH, string_append_empty_l.
Qed.

Lemma trim_blank (v : string) : Js.isBlank v = true -> Js.trim v = "".
Proof.
  unfold Js.trim, Js.isBlank. intros H. by destruct (Js.trimStart v).
Qed.

Lemma trim_visible_blank (a v : string) :
  Js.all isVisible a = true -> Js.isBlank v = true -> Js.trim (a +:+ v) = a.
Proof.
  intros Ha Hv. destruct a as [|c a].
  - rewrite string_append_empty_l. by apply trim_blank.
  - pose proof Ha as Hall. cbn [Js.all] in Ha. apply andb_true_iff in Ha as [Hc Ha].
    unfold Js.trim. rewrite string_append_cons, trimStart_visible by done.
    rewrite <- string_append_cons. by apply trimEnd_visible_blank.
Qed.

Lemma all_trimEnd p (s : string) : Js.all p s = true -> Js.all p (Js.trimEnd s) = true.
Proof.
  intros H. destruct (trimEnd_split s) as (v & Hs & _).
  rewrite Hs, all_append in H. by apply andb_true_iff in H as [? _].
Qed.

Lemma spaceWidth_trimEnd (s : string) : Js.spaceWidth s = 0 -> Js.spaceWidth (Js.trimEnd s) = 0.
Proof.
  intros H. destruct (Js.spaceWidth (Js.trimEnd s)) as [|k] eqn:E; [done|].
  destruct (trimEnd_split s) as (v & Hs & _).
  rewrite Hs, (spaceWidth_append _ v k E) in H. done.
Qed.

Lemma trim_idem (s : string) : Js.trim (Js.trim s) = Js.trim s.
Proof.
  unfold Js.trim.
  rewrite (trimStart_fixed (Js.trimEnd _)) by apply spaceWidth_trimEnd, spaceWidth_trimStart.
  apply trimEnd_idem.
Qed.

Lemma trim_empty : Js.trim "" = "".
Proof. reflexivity. Qed.

(** The trimmed text of a text that starts with a visible character and
    goes on: the start stays, the end is trimmed. *)
Lemma trim_visible_start c (r : string) :
  isVisible c = true -> Js.trim (String c r) = String c (Js.trimEnd r).
Proof.
  intros Hc. unfold Js.trim. rewrite trimStart_visible by done.
  by rewrite <- (string_append_empty_l (String c r)), trimEnd_append_visible.
Qed.

Lemma trim_visible_append (a : string) c (r : string) :
  Js.all isVisible a = true -> isVisible c = true ->
  Js.trim (a +:+ String c r) = a +:+ String c (Js.trimEnd r).
Proof.
  intros Ha Hc. destruct a as [|x a].
  - rewrite !string_append_empty_l. by apply trim_visible_start.
  - cbn [Js.all] in Ha. apply andb_true_iff in Ha as [Hx Ha].
    rewrite !string_append_cons, trim_visible_start by done.
    by rewrite trimEnd_append_visible.
Qed.

Lemma trimEnd_visible_append (a r : string) :
  Js.all isVisible a = true -> Js.trimEnd (a +:+ r) = a +:+ Js.trimEnd r.
Proof.
  induction a as [|c a IH]; [done|]. cbn [Js.all]. intros [Hc Ha]%andb_true_iff.
  rewrite !string_append_cons, <- (string_append_empty_l (String c (a +:+ r))).
  rewrite trimEnd_append_visible by done. by rewrite IH, string_append_empty_l.
Qed.

Lemma all_dropSpaces p (k : nat) (s : string) :
  Js.all p s = true -> Js.all p (Js.dropSpaces k s) = true.
Proof.
  revert k. induction s as [|c s IH]; intros k H; [done|].
  pose proof H as Hall. cbn [Js.all] in H. apply andb_true_iff in H as [_ Hs].
  cbn [Js.dropSpaces]. destruct k as [|k]; [|by apply IH].
  destruct (Js.spaceWidth (String c s)); [done|by apply IH].
Qed.

Lemma all_trim p (s : string) : Js.all p s = true -> Js.all p (Js.trim s) = true.
Proof. intros H. unfold Js.trim, Js.trimStart. by apply all_trimEnd, all_dropSpaces. Qed.

(** *** Runs without white space *)

Lemma takeUntil_dropUntil stop (s : string) : Js.takeUntil stop s +:+ Js.dropUntil stop s = s.
Proof.
  induction s as [|c s IH]; [done|]. cbn [Js.takeUntil Js.dropUntil].
  destruct (stop (String c s)); [done|]. by rewrite string_append_cons, IH.
Qed.


Lemma takeUntil_run (p : ascii -> bool) stop (a b : string) :
  (forall c r, p c = true -> stop (String c r) = false) ->
  Js.all p a = true ->
  Js.takeUntil stop (a +:+ b) = a +:+ Js.takeUntil stop b /\
  Js.dropUntil stop (a +:+ b) = Js.dropUntil stop b.
Proof.
  intros Hstop. induction a as [|c a IH]; [done|].
  cbn [Js.all]. intros [Hc Ha]%andb_true_iff.
  rewrite !string_append_cons. cbn [Js.takeUntil Js.dropUntil].
  rewrite (Hstop c _ Hc). destruct (IH Ha) as [-> ->]. done.
Qed.

Lemma anywhere_run (p : ascii -> bool) stop (s : string) :
  (forall c r, p c = true -> stop (String c r) = false) ->
  stop "" = false ->
  Js.all p s = true -> Js.anywhere stop s = false.
Proof.
  intros Hstop Hempty. induction s as [|c s IH]; [cbn; by rewrite Hempty|].
  cbn [Js.all Js.anywhere]. intros [Hc Hs]%andb_true_iff.
  by rewrite (Hstop c s Hc), IH.
Qed.

Lemma takeUntil_visible stop (a b : string) :
  (forall c r, isVisible c = true -> stop (String c r) = false) ->
  Js.all isVisible a = true ->
  Js.takeUntil stop (a +:+ b) = a +:+ Js.takeUntil stop b /\
  Js.dropUntil stop (a +:+ b) = Js.dropUntil stop b.
Proof. apply takeUntil_run. Qed.

Lemma anywhere_visible stop (s : string) :
  (forall c r, isVisible c = true -> stop (String c r) = false) ->
  stop "" = false ->
  Js.all isVisible s = true -> Js.anywhere stop s = false.
Proof. apply anywhere_run. Qed.

Lemma anywhere_append p (a b : string) :
  Js.anywhere p (a +:+ b) = true -> Js.anywhere (fun s => p (s +:+ b)) a = true \/ Js.anywhere p b = true.
Proof.
  induction a as [|c a IH].
  - rewrite string_append_empty_l. by right.
  - rewrite string_append_cons. cbn [Js.anywhere]. rewrite <- string_append_cons.
    intros [H|H]%orb_true_iff.
    + left. by rewrite H.
    + destruct (IH H) as [H'|H']; [left; by rewrite H', orb_true_r|by right].
Qed.

(** ** The case of a text *)

Section CaseFacts.

Variable narrow : ascii -> ascii.
Variable wide : string -> string -> string -> string.

(** The bytes of ASCII of a text are mapped where they stand. *)
Lemma caseFrom_ascii (a s : string) (before : string) (pending : option string) :
  Js.all Js.isAscii a = true -> Js.isEmpty a = false ->
  Js.caseFrom narrow wide before pending (a +:+ s) =
  match pending with
  | Some ch => wide before ch (a +:+ s)
  | None => ""
  end +:+ Js.map narrow a +:+
  Js.caseFrom narrow wide (before +:+ default "" pending +:+ a) None s.
Proof.
  revert before pending. induction a as [|c a IH]; intros before pending Ha Hne; [done|].
  cbn [Js.all] in Ha. apply andb_true_iff in Ha as [Hc Ha].
  rewrite string_append_cons. cbn [Js.caseFrom].
  assert (Hcont : Js.isContinuation c = false).
  { destruct (Js.isContinuation c) eqn:E; [|done].
    apply continuation_not_ascii in E. congruence. }
  rewrite Hcont, Hc. f_equal. cbn [Js.map]. rewrite string_append_cons. f_equal.
  destruct a as [|d a].
  - rewrite !string_append_empty_l. cbn [Js.map]. rewrite ?string_append_empty_l.
    f_equal. by rewrite !string_append_assoc.
  - rewrite IH by done. cbn [default from_option]. rewrite !string_append_empty_l.
    f_equal. f_equal. rewrite !string_append_assoc. by rewrite string_append_cons.
Qed.

Lemma caseFrom_all_ascii (a : string) (before : string) :
  Js.all Js.isAscii a = true ->
  Js.caseFrom narrow wide before None a = Js.map narrow a.
Proof.
  intros Ha. destruct a as [|c a]; [done|].
  rewrite <- (string_append_empty_r (String c a)) at 1.
  rewrite caseFrom_ascii by done. cbn [Js.caseFrom].
  by rewrite string_append_empty_l, string_append_empty_r.
Qed.

End CaseFacts.

Section CaseOfText.

Context {tables : Js.CaseTables}.

Lemma toLowerCase_ascii (s : string) :
  Js.all Js.isAscii s = true -> Js.toLowerCase s = Js.asciiLower s.
Proof. apply caseFrom_all_ascii. Qed.

Lemma toUpperCase_ascii (s : string) :
  Js.all Js.isAscii s = true -> Js.toUpperCase s = Js.map Js.upperChar s.
Proof. apply caseFrom_all_ascii. Qed.

(** The lower case of a text that starts with ASCII starts with the lower
    case of that start. *)
Lemma toLowerCase_ascii_start (a s : string) :
  Js.all Js.isAscii a = true ->
  exists rest, Js.toLowerCase (a +:+ s) = Js.asciiLower a +:+ rest.
Proof.
  intros Ha. destruct a as [|c a]; [by exists (Js.toLowerCase s)|].
  unfold Js.toLowerCase. rewrite caseFrom_ascii by done.
  rewrite string_append_empty_l. by eexists.
Qed.

Lemma toUpperCase_idempotent (s : string) :
  Js.toUpperCase (Js.toUpperCase s) = Js.toUpperCase s.
Proof. apply Js.upperOf_idempotent. Qed.

Lemma includes_append_r (sub a b : string) :
  Js.includes sub b = true -> Js.includes sub (a +:+ b) = true.
Proof.
  rewrite !includes_iff. intros (pre & post & ->).
  exists (a +:+ pre), post. by rewrite !string_append_assoc.
Qed.

(** A text of ASCII in lower case that occurs in a text occurs in its
    lower case. *)
Lemma includes_caseFrom (sub s : string) (before : string) (pending : option string) :
  Js.all Js.isAscii sub = true -> Js.asciiLower sub = sub ->
  Js.includes sub s = true ->
  Js.includes sub (Js.caseFrom Js.lowerChar Js.lowerOf before pending s) = true.
Proof.
  intros Hascii Hlower. revert before pending.
  induction s as [|c s IH]; intros before pending Hin.
  - cbn [Js.includes] in Hin. rewrite orb_false_r in Hin.
    destruct sub; [|done]. by destruct (Js.caseFrom _ _ _ _ _).
  - cbn [Js.includes] in Hin. apply orb_true_iff in Hin as [Hstart|Htail].
    + destruct sub as [|d sub]; [by destruct (Js.caseFrom _ _ _ _ _)|].
      apply startsWith_iff in Hstart as [post ->].
      rewrite caseFrom_ascii by done.
      apply includes_append_r. unfold Js.asciiLower in Hlower. rewrite Hlower.
      apply includes_iff. by exists "", (Js.caseFrom Js.lowerChar Js.lowerOf
        (before +:+ default "" pending +:+ String d sub) None post).
    + cbn [Js.caseFrom]. destruct (Js.isContinuation c); [by apply IH|].
      apply includes_append_r. destruct (Js.isAscii c).
      * apply includes_tail. by apply IH.
      * by apply IH.
Qed.

Lemma includes_toLowerCase (sub s : string) :
  Js.all Js.isAscii sub = true -> Js.asciiLower sub = sub ->
  Js.includes sub s = true -> Js.includes sub (Js.toLowerCase s) = true.
Proof. apply includes_caseFrom. Qed.

End CaseOfText.

(** ** [normalizeProject]: shape of the result and idempotence *)

Lemma replaceNonAlnumRuns_slugChars b s :
  Js.all isSlugChar (replaceNonAlnumRuns b s) = true.
Proof.
  revert b. induction s as [|c s IH]; intros b; simpl; [done|].
  destruct (isLowerAlnum c) eqn:E.
  - simpl. unfold isSlugChar at 1. by rewrite E, IH.
  - destruct b; [done|]. simpl. by rewrite IH.
Qed.

Lemma replaceNonAlnumRuns_inRun_head s :
  Js.startsWith "-" (replaceNonAlnumRuns true s) = false.
Proof.
  induction s as [|c s IH]; simpl; [done|].
  destruct (isLowerAlnum c) eqn:E; [|done].
  simpl. rewrite andb_true_r. apply bool_decide_eq_false. intros <-. done.
Qed.

Lemma replaceNonAlnumRuns_no_double_dash b s :
  Js.includes "--" (replaceNonAlnumRuns b s) = false.
Proof.
  revert b. induction s as [|c s IH]; intros b; simpl; [done|].
  destruct (isLowerAlnum c) eqn:E.
  - cbn [Js.includes]. rewrite IH, orb_false_r. simpl.
    apply andb_false_iff. left. apply bool_decide_eq_false. intros <-. done.
  - destruct b; [done|].
    cbn [Js.includes]. rewrite IH, orb_false_r.
    rewrite startsWith_cons, replaceNonAlnumRuns_inRun_head.
    apply andb_false_r.
Qed.

Lemma stripEdgeDashes_head s : Js.startsWith "-" (stripEdgeDashes s) = false.
Proof.
  unfold stripEdgeDashes.
  destruct (Js.startsWith "-" (Js.dropWhileEnd isDash (Js.dropWhile isDash s))) eqn:E; [|done].
  apply startsWith_dropWhileEnd in E.
  destruct (Js.dropWhile isDash s) as [|c s'] eqn:D; [done|].
  apply dropWhile_head in D. simpl in E. rewrite andb_true_r in E.
  apply bool_decide_eq_true in E. subst c. done.
Qed.

Lemma dropWhileEnd_dash_last s : Js.endsWith "-" (Js.dropWhileEnd isDash s) = false.
Proof.
  induction s as [|c s IH]; [done|].
  cbn [Js.dropWhileEnd].
  destruct (isDash c && Js.isEmpty (Js.dropWhileEnd isDash s)) eqn:E; [done|].
  cbn [Js.endsWith]. rewrite IH, orb_false_r.
  apply bool_decide_eq_false. intros [= -> Hr].
  rewrite Hr in E. done.
Qed.

Lemma dropWhile_dash_id s : Js.startsWith "-" s = false -> Js.dropWhile isDash s = s.
Proof.
  destruct s as [|c s]; simpl; [done|].
  rewrite andb_true_r. unfold isDash. intros H.
  apply bool_decide_eq_false in H.
  rewrite bool_decide_eq_false_2; [done|]. intros ->. done.
Qed.

Lemma dropWhileEnd_dash_id s : Js.endsWith "-" s = false -> Js.dropWhileEnd isDash s = s.
Proof.
  induction s as [|c s IH]; [done|].
  cbn [Js.endsWith Js.dropWhileEnd]. rewrite orb_false_iff. intros [Hne Hs].
  rewrite (IH Hs).
  destruct (isDash c && Js.isEmpty s) eqn:E; [|done].
  apply andb_true_iff in E as [Hc He]. apply isDash_eq in Hc. subst c.
  destruct s; [|done]. done.
Qed.

Lemma replaceNonAlnumRuns_fixed b s :
  Js.all isSlugChar s = true ->
  Js.includes "--" s = false ->
  (b = true -> Js.startsWith "-" s = false) ->
  replaceNonAlnumRuns b s = s.
Proof.
  revert b. induction s as [|c s IH]; intros b Hall Hdd Hb; [done|].
  cbn [Js.all] in Hall. apply andb_true_iff in Hall as [Hc Hall].
  cbn [Js.includes] in Hdd. apply orb_false_iff in Hdd as [Hhd Hdd].
  cbn [replaceNonAlnumRuns].
  destruct (isLowerAlnum c) eqn:E.
  - f_equal. apply IH; [done|done|done].
  - unfold isSlugChar in Hc. rewrite E in Hc. simpl in Hc.
    apply isDash_eq in Hc. subst c.
    destruct b.
    + specialize (Hb eq_refl). done.
    + f_equal. apply IH; [done|done|]. intros _.
      simpl in Hhd. destruct s as [|d s]; [done|].
      simpl. rewrite andb_true_r. simpl in Hhd. by rewrite andb_true_r in Hhd.
Qed.

Section Slug.

Context {tables : Js.CaseTables}.

Lemma normalizeProject_fixed s :
  Js.all isSlugChar s = true ->
  Js.startsWith "-" s = false ->
  Js.endsWith "-" s = false ->
  Js.includes "--" s = false ->
  normalizeProject s = s.
Proof.
  intros Hall Hhd Hlast Hdd. unfold normalizeProject.
  rewrite trim_visible by (eapply all_impl; [apply isSlugChar_visible|exact Hall]).
  rewrite toLowerCase_ascii
    by (eapply all_impl; [|exact Hall]; intros c Hc; by apply isVisible_ascii, isSlugChar_visible).
  unfold Js.asciiLower. rewrite (all_map_id isSlugChar); [|apply isSlugChar_lowerChar|done].
  rewrite replaceNonAlnumRuns_fixed; [|done|done|done].
  unfold stripEdgeDashes. rewrite dropWhile_dash_id by done.
  by apply dropWhileEnd_dash_id.
Qed.

(** C9. [normalizeProject] is a total function (a Rocq function) whose result
    contains only characters of [[a-z0-9-]], neither starts nor ends with a
    dash, contains no two consecutive dashes, and is a fixed point of
    [normalizeProject]: normalising twice is normalising once. *)
Theorem normalizeProject_idempotent_shape (s : string) :
  normalizeProject (normalizeProject s) = normalizeProject s /\
  Js.all isSlugChar (normalizeProject s) = true /\
  Js.startsWith "-" (normalizeProject s) = false /\
  Js.endsWith "-" (normalizeProject s) = false /\
  Js.includes "--" (normalizeProject s) = false.
Proof.
  assert (Hall : Js.all isSlugChar (normalizeProject s) = true).
  { unfold normalizeProject, stripEdgeDashes.
    apply all_dropWhileEnd, all_dropWhile, replaceNonAlnumRuns_slugChars. }
  assert (Hhd : Js.startsWith "-" (normalizeProject s) = false)
    by apply stripEdgeDashes_head.
  assert (Hlast : Js.endsWith "-" (normalizeProject s) = false)
    by apply dropWhileEnd_dash_last.
  assert (Hdd : Js.includes "--" (normalizeProject s) = false).
  { unfold normalizeProject, stripEdgeDashes.
    match goal with |- ?x = false => destruct x eqn:E end; [|done].
    apply includes_dropWhileEnd, includes_dropWhile in E.
    by rewrite replaceNonAlnumRuns_no_double_dash in E. }
  split; [by apply normalizeProject_fixed|done].
Qed.

End Slug.

Example normalizeProject_kani :
  @normalizeProject Sample.caseTables "  KANI  TAXI! " = "kani-taxi".
Proof. vm_compute. reflexivity. Qed.

Example normalizeProject_garbage : @normalizeProject Sample.caseTables " --__-- " = "".
Proof. vm_compute. reflexivity. Qed.

(** Outside ASCII: the Kelvin sign is a [k] in lower case, a no-break
    space is white space, and the capital I with a dot is an [i] followed
    by a dot above, which is no letter of a slug. *)
Example normalizeProject_wide :
  @normalizeProject Sample.caseTables (Sample.character (33 * 256 + 42) +:+ "ANI TAXI")
    = "kani-taxi" /\
  @normalizeProject Sample.caseTables (Sample.character 160 +:+ "x" +:+ Sample.character 160)
    = "x" /\
  @normalizeProject Sample.caseTables (Sample.character 304 +:+ "stanbul") = "i-stanbul".
Proof. vm_compute. repeat split; reflexivity. Qed.

(** ** Shell quoting *)

(** Inside single quotes, the escaped text reads back as the text. *)
Lemma lex_single_escaped s : forall acc rest,
  Sh.lex Sh.Single (Some acc) (escapeSingleQuotes s +:+ rest) =
  Sh.lex Sh.Single (Some (acc +:+ s)) rest.
Proof.
  induction s as [|c s IH]; intros acc rest.
  - cbn [escapeSingleQuotes]. by rewrite string_append_empty_l, string_append_empty_r.
  - cbn [escapeSingleQuotes].
    destruct (bool_decide_reflect (c = "'"%char)) as [->|Hc].
    + change (Sh.lex Sh.Single (Some acc)
                (String "'" (String Json.quoteChar (String "'" (String Json.quoteChar
                   (String "'" (escapeSingleQuotes s)))) ) +:+ rest))
        with (Sh.lex Sh.Single (Some (acc +:+ "'"))
                (escapeSingleQuotes s +:+ rest)).
      rewrite IH. by rewrite string_append_assoc.
    + change (String c (escapeSingleQuotes s) +:+ rest)
        with (String c (escapeSingleQuotes s +:+ rest)).
      cbn [Sh.lex]. rewrite bool_decide_eq_false_2 by done.
      unfold Sh.push. cbn [default]. rewrite IH.
      by rewrite string_append_assoc.
Qed.

(** A quoted value in the middle of a command line adds the value, as it
    is, to the word being read. *)
Lemma lex_plain_shellQuote cur v rest :
  Sh.lex Sh.Plain cur (shellQuote v +:+ rest) =
  Sh.lex Sh.Plain (Some (default "" cur +:+ v)) rest.
Proof.
  unfold shellQuote.
  change (("'" +:+ escapeSingleQuotes v +:+ "'") +:+ rest)
    with (String "'" ((escapeSingleQuotes v +:+ "'") +:+ rest)).
  rewrite string_append_assoc.
  change (Sh.lex Sh.Plain cur (String "'" (escapeSingleQuotes v +:+ "'" +:+ rest)))
    with (Sh.lex Sh.Single (Some (default "" cur)) (escapeSingleQuotes v +:+ "'" +:+ rest)).
  by rewrite lex_single_escaped.
Qed.

Lemma shellQuote_one_word s : Sh.tokens (shellQuote s) = Some [Sh.Word s].
Proof.
  unfold Sh.tokens. rewrite <- (string_append_empty_r (shellQuote s)).
  by rewrite lex_plain_shellQuote.
Qed.

Example shellQuote_obrien :
  Sh.tokens ("echo " +:+ shellQuote "feature/o'brien") =
  Some [Sh.Word "echo"; Sh.Word "feature/o'brien"].
Proof. reflexivity. Qed.

(** Reading a command line piece by piece. *)

Lemma lex_plain_char c cur rest :
  Sh.isOrdinaryChar c = true ->
  Sh.lex Sh.Plain cur (String c rest) = Sh.lex Sh.Plain (Sh.push cur c) rest.
Proof.
  unfold Sh.isOrdinaryChar. rewrite negb_true_iff, !orb_false_iff.
  intros [[[[[[Hblank Hnl] Hsq] Hdq] Hbs] Hop] Hexp].
  cbn [Sh.lex]. by rewrite Hblank, Hnl, Hsq, Hdq, Hbs, Hop, Hexp.
Qed.

Lemma lex_plain_word w : forall cur rest,
  Js.all Sh.isOrdinaryChar w = true -> Js.isEmpty w = false ->
  Sh.lex Sh.Plain cur (w +:+ rest) = Sh.lex Sh.Plain (Some (default "" cur +:+ w)) rest.
Proof.
  induction w as [|c w IH]; intros cur rest Hall Hne; [done|].
  cbn [Js.all] in Hall. apply andb_true_iff in Hall as [Hc Hall].
  rewrite string_append_cons, lex_plain_char by done.
  destruct w as [|d w].
  - by rewrite string_append_empty_l.
  - rewrite IH by done. unfold Sh.push. cbn.
    rewrite string_append_assoc. reflexivity.
Qed.

Lemma lex_plain_blank cur rest :
  Sh.lex Sh.Plain cur (" " +:+ rest) =
  ts ← Sh.lex Sh.Plain None rest; Some (Sh.flush cur ts).
Proof. reflexivity. Qed.

Lemma lex_plain_newline cur rest :
  Sh.lex Sh.Plain cur (newline +:+ rest) =
  ts ← Sh.lex Sh.Plain None rest; Some (Sh.flush cur (Sh.Newline :: ts)).
Proof. reflexivity. Qed.

Lemma lex_plain_or cur rest :
  Sh.lex Sh.Plain cur ("||" +:+ rest) =
  ts ← Sh.lex Sh.Plain None rest; Some (Sh.flush cur (Sh.Op "||" :: ts)).
Proof. reflexivity. Qed.

Lemma lex_plain_semicolon_blank cur rest :
  Sh.lex Sh.Plain cur (";" +:+ " " +:+ rest) =
  ts ← (ts' ← Sh.lex Sh.Plain None rest; Some (Sh.flush None ts'));
  Some (Sh.flush cur (Sh.Op ";" :: ts)).
Proof. reflexivity. Qed.

Lemma lex_plain_end cur : Sh.lex Sh.Plain cur "" = Some (Sh.flush cur []).
Proof. reflexivity. Qed.

(** The script, cut at the boundaries of its tokens. *)
Lemma buildAutoDeployScript_pieces (project : AutoDeployProjectConfig) (branchName : string) :
  buildAutoDeployScript project branchName =
  "set" +:+ " " +:+ "-euo" +:+ " " +:+ "pipefail" +:+ newline +:+
  "cd" +:+ " " +:+ shellQuote (repoPath project) +:+ newline +:+
  "git" +:+ " " +:+ "fetch" +:+ " " +:+ "origin" +:+ " " +:+ shellQuote branchName +:+ newline +:+
  "git" +:+ " " +:+ "checkout" +:+ " " +:+ shellQuote branchName +:+ " " +:+ "||" +:+ " " +:+
  "git" +:+ " " +:+ "checkout" +:+ " " +:+ "-b" +:+ " " +:+ shellQuote branchName +:+ " " +:+
  shellQuote ("origin/" +:+ branchName) +:+ newline +:+
  "git" +:+ " " +:+ "reset" +:+ " " +:+ "--hard" +:+ " " +:+
  shellQuote ("origin/" +:+ branchName) +:+ newline +:+
  "if" +:+ " " +:+ "[[" +:+ " " +:+ "-x" +:+ " " +:+ "./deploy-with-track.sh" +:+ " " +:+
  "]]" +:+ ";" +:+ " " +:+ "then" +:+ newline +:+
  " " +:+ " " +:+ "./deploy-with-track.sh" +:+ " " +:+ "bash" +:+ " " +:+ "-lc" +:+ " " +:+
  shellQuote (deployCommand project) +:+ newline +:+
  "else" +:+ newline +:+
  " " +:+ " " +:+ "bash" +:+ " " +:+ "-lc" +:+ " " +:+
  shellQuote (deployCommand project) +:+ newline +:+
  "fi" +:+ "".
Proof.
  unfold buildAutoDeployScript. cbn [Js.join].
  rewrite !string_append_assoc. reflexivity.
Qed.

(** C2. [shellQuote s] is read by the shell as one word whose value, after
    quote removal, is [s], for every [s]; and in the script of
    [buildAutoDeployScript] the repository path, the branch, the origin ref
    and the deploy command each stand as one such word wherever they are
    interpolated. *)
Theorem shellQuote_roundtrip_and_script (project : AutoDeployProjectConfig) (s branchName : string) :
  Sh.tokens (shellQuote s) = Some [Sh.Word s] /\
  Sh.tokens (buildAutoDeployScript project branchName) = Some
    [ Sh.Word "set"; Sh.Word "-euo"; Sh.Word "pipefail"; Sh.Newline;
      Sh.Word "cd"; Sh.Word (repoPath project); Sh.Newline;
      Sh.Word "git"; Sh.Word "fetch"; Sh.Word "origin"; Sh.Word branchName; Sh.Newline;
      Sh.Word "git"; Sh.Word "checkout"; Sh.Word branchName; Sh.Op "||";
      Sh.Word "git"; Sh.Word "checkout"; Sh.Word "-b"; Sh.Word branchName;
      Sh.Word ("origin/" +:+ branchName); Sh.Newline;
      Sh.Word "git"; Sh.Word "reset"; Sh.Word "--hard";
      Sh.Word ("origin/" +:+ branchName); Sh.Newline;
      Sh.Word "if"; Sh.Word "[["; Sh.Word "-x"; Sh.Word "./deploy-with-track.sh";
      Sh.Word "]]"; Sh.Op ";"; Sh.Word "then"; Sh.Newline;
      Sh.Word "./deploy-with-track.sh"; Sh.Word "bash"; Sh.Word "-lc";
      Sh.Word (deployCommand project); Sh.Newline;
      Sh.Word "else"; Sh.Newline;
      Sh.Word "bash"; Sh.Word "-lc"; Sh.Word (deployCommand project); Sh.Newline;
      Sh.Word "fi" ].
Proof.
  split; [apply shellQuote_one_word|].
  unfold Sh.tokens. rewrite buildAutoDeployScript_pieces.
  repeat first
    [ rewrite lex_plain_shellQuote
    | rewrite lex_plain_blank
    | rewrite lex_plain_newline
    | rewrite lex_plain_or
    | rewrite lex_plain_semicolon_blank
    | rewrite lex_plain_end
    | rewrite lex_plain_word by reflexivity ].
  reflexivity.
Qed.

(** ** [toSafeLimit] *)

Section SafeLimit.

Context {rt : Runtime}.

(** Whenever [Number(rawLimit)] is finite the result is clamped. *)
Lemma toSafeLimit_finite (rawLimit : option string) (fallback : Z) :
  Num.isFinite (toNumber rawLimit) = true ->
  (1 <= toSafeLimit rawLimit fallback <= 100)%Z.
Proof. intros H. unfold toSafeLimit. rewrite H. simpl. lia. Qed.

(** Otherwise the fallback is returned as it is. *)
Lemma toSafeLimit_not_finite (rawLimit : option string) (fallback : Z) :
  Num.isFinite (toNumber rawLimit) = false ->
  toSafeLimit rawLimit fallback = fallback.
Proof. intros H. unfold toSafeLimit. by rewrite H. Qed.

(** The result is in [1, 100] or it is the fallback. *)
Lemma toSafeLimit_range_or_fallback (rawLimit : option string) (fallback : Z) :
  (1 <= toSafeLimit rawLimit fallback <= 100)%Z \/ toSafeLimit rawLimit fallback = fallback.
Proof.
  destruct (Num.isFinite (toNumber rawLimit)) eqn:E.
  - left. by apply toSafeLimit_finite.
  - right. by apply toSafeLimit_not_finite.
Qed.

(** With a fallback in [1, 100], as in the handlers of the deployments and
    of the repositories, the limit is in [1, 100] for every input. *)
Lemma deploymentsSafeLimit_range (limit : option string) :
  (1 <=? deploymentsSafeLimit limit)%Z && (deploymentsSafeLimit limit <=? 100)%Z = true.
Proof.
  unfold deploymentsSafeLimit.
  destruct (toSafeLimit_range_or_fallback limit 20) as [H| ->]; [|done].
  apply andb_true_iff. split; apply Z.leb_le; lia.
Qed.

(** A [limit] whose [Number] is not finite leaves the handler of
    [GET /v1/logs] with its fallback. *)
Lemma logsSafeLimit_non_numeric (limit : string) :
  Num.isFinite (Number_ofString limit) = false -> logsSafeLimit (Some limit) = 120%Z.
Proof. intros H. unfold logsSafeLimit. by apply toSafeLimit_not_finite. Qed.

(** C5, the code at the failing input.  Without a [limit] parameter the
    handler of [GET /v1/logs] applies the limit 120, which is above 100. *)
Theorem logsSafeLimit_fallback_exceeds_bound :
  logsSafeLimit None = 120%Z /\ (logsSafeLimit None <=? 100)%Z = false.
Proof. split; reflexivity. Qed.

End SafeLimit.

Example logsSafeLimit_samples :
  let rt := sampleRuntime [] in
  List.map logsSafeLimit [None; Some ""; Some "abc"; Some "7"; Some "180"; Some "-3"] =
  [120; 1; 120; 7; 100; 1]%Z.
Proof. reflexivity. Qed.

(** ** [verifyGitHubSignature] *)

Ltac each_ascii :=
  let c := fresh "c" in
  intros c; destruct c as [[] [] [] [] [] [] [] []]; vm_compute; reflexivity.

Lemma hex_value_high : forall c,
  Hex.value (Hex.digit (nat_of_ascii c / 16)) = Some (nat_of_ascii c / 16).
Proof. each_ascii. Qed.

Lemma hex_value_low : forall c,
  Hex.value (Hex.digit (nat_of_ascii c mod 16)) = Some (nat_of_ascii c mod 16).
Proof. each_ascii. Qed.

Lemma hex_recompose : forall c,
  ascii_of_nat (16 * (nat_of_ascii c / 16) + nat_of_ascii c mod 16) = c.
Proof. each_ascii. Qed.

(** Decoding what [encode] wrote gives the bytes back. *)
Lemma hex_decode_encode (bytes : string) : Hex.decode (Hex.encode bytes) = bytes.
Proof.
  induction bytes as [|c rest IH]; [done|].
  cbn [Hex.encode Hex.decode].
  by rewrite hex_value_high, hex_value_low, hex_recompose, IH.
Qed.

Lemma hex_decode_length (n : nat) : forall text,
  String.length text = 2 * n -> Js.all Hex.isHexDigit text = true ->
  String.length (Hex.decode text) = n.
Proof.
  induction n as [|n IH]; intros text Hlen Hall.
  - by destruct text.
  - destruct text as [|a [|b rest]]; [done|simpl in Hlen; lia|].
    cbn [Js.all] in Hall. apply andb_true_iff in Hall as [Ha Hall].
    apply andb_true_iff in Hall as [Hb Hall].
    cbn [Hex.decode]. unfold Hex.isHexDigit in Ha, Hb.
    destruct (Hex.value a); [|done]. destruct (Hex.value b); [|done].
    cbn [String.length]. f_equal. apply IH; [|done].
    cbn [String.length] in Hlen. lia.
Qed.

Lemma digest_length (s : Sha256.State) :
  String.length (Sha256.stringOf (Sha256.digestBytes s)) = 32.
Proof. reflexivity. Qed.

Lemma hmac_length (key msg : string) : String.length (Sha256.hmac key msg) = 32.
Proof. unfold Sha256.hmac, Sha256.hmacBytes, Sha256.hashBytes. apply digest_length. Qed.

Lemma startsWith_append (p s : string) : Js.startsWith p (p +:+ s) = true.
Proof.
  induction p as [|c p IH]; [done|].
  change (String c p +:+ s) with (String c (p +:+ s)).
  cbn [Js.startsWith]. by rewrite bool_decide_eq_true_2, IH.
Qed.

Lemma drop_append (p s : string) : Js.drop (String.length p) (p +:+ s) = s.
Proof. induction p as [|c p IH]; [done|]. exact IH. Qed.

Lemma startsWith_split (p s : string) :
  Js.startsWith p s = true -> s = p +:+ Js.drop (String.length p) s.
Proof.
  revert s. induction p as [|c p IH]; intros s H; [done|].
  destruct s as [|d s]; [done|]. cbn [Js.startsWith] in H.
  apply andb_true_iff in H as [Hc Hp]. apply bool_decide_eq_true in Hc. subst d.
  change (String c p +:+ Js.drop (String.length (String c p)) (String c s))
    with (String c (p +:+ Js.drop (String.length p) s)).
  f_equal. by apply IH.
Qed.

Section Signature.

Context {rt : Runtime}.

(** X29. [verifyGitHubSignature] returns for every input, and it accepts
    exactly the headers that, once trimmed, are [sha256=] followed by 64
    hexadecimal digits of either case whose bytes are the HMAC-SHA256,
    under the secret, of [JSON.stringify] of the parsed payload; in
    particular a signature of another length is rejected. *)
Theorem verifyGitHubSignature_accepts_iff (signatureHeader : string) (payload : JValue)
    (secret : string) :
  (verifyGitHubSignature signatureHeader payload secret = Normal true <->
   exists signatureHex,
     Js.trim signatureHeader = "sha256=" +:+ signatureHex /\
     String.length signatureHex = 64 /\
     Js.all Hex.isHexDigit signatureHex = true /\
     Hex.decode signatureHex =
       Sha256.hmac (Js.utf8 secret) (Js.utf8 (JSON_stringify payload))) /\
  (exists accepted, verifyGitHubSignature signatureHeader payload secret = Normal accepted).
Proof.
  unfold verifyGitHubSignature.
  set (trimmed := Js.trim signatureHeader).
  set (digest := Sha256.hmac (Js.utf8 secret) (Js.utf8 (JSON_stringify payload))).
  rewrite hex_decode_encode.
  destruct (Js.startsWith "sha256=" trimmed) eqn:Hprefix; cbn [negb].
  2:{ split; [|by eexists]. split; [done|].
      intros (hex & Heq & _). rewrite Heq, startsWith_append in Hprefix. done. }
  set (hex := Js.drop (String.length "sha256=") trimmed).
  assert (Hsplit : trimmed = "sha256=" +:+ hex) by by apply startsWith_split.
  destruct (String.length hex =? 64) eqn:Hlen; cbn [andb negb].
  2:{ split; [|by eexists]. split; [done|].
      intros (hex' & Heq & Hlen' & _). rewrite Hsplit in Heq.
      apply (inj _) in Heq. subst hex'.
      rewrite Hlen' in Hlen. done. }
  apply Nat.eqb_eq in Hlen.
  destruct (Js.all Hex.isHexDigit hex) eqn:Hall; cbn [negb].
  2:{ split; [|by eexists]. split; [done|].
      intros (hex' & Heq & _ & Hall' & _). rewrite Hsplit in Heq.
      apply (inj _) in Heq. subst hex'. congruence. }
  assert (Hdec : String.length (Hex.decode hex) = 32)
    by (apply hex_decode_length; [by rewrite Hlen|done]).
  unfold timingSafeEqual.
  rewrite Hdec. unfold digest at 1 2. rewrite hmac_length. cbn [Nat.eqb negb].
  split; [|by eexists]. split.
  - intros [= Heq]. apply bool_decide_eq_true in Heq. by exists hex.
  - intros (hex' & Heq & _ & _ & Hd). rewrite Hsplit in Heq.
    apply (inj _) in Heq. subst hex'. by rewrite bool_decide_eq_true_2.
Qed.

End Signature.

Example hmac_rfc4231_case_2 :
  Hex.encode (Sha256.hmac "Jefe" "what do ya want for nothing?") =
  "5bdcc146bf60754e6a042426089575c75a003f089d2739839dec58b964ec3843".
Proof. vm_compute. reflexivity. Qed.

(** C1, the code at the failing input. The body with a space after the
    colon and the body with a tab in its place differ in one byte and parse
    to the same payload. The header that carries the HMAC of the exact body,
    the one GitHub sends, is rejected, and the header that carries the HMAC
    of the re-serialised payload is accepted, for the one body as for the
    other: the code signs [JSON.stringify] of the parsed body where the
    claim has the raw body. *)
Lemma verifyGitHubSignature_signs_reserialised_payload :
  Json.parse Demo.spacedBody = Json.Parsed Demo.bodyPayload "" /\
  Json.parse Demo.tabbedBody = Json.Parsed Demo.bodyPayload "" /\
  Demo.differences Demo.spacedBody Demo.tabbedBody = 1 /\
  @JSON_stringify (sampleRuntime []) Demo.bodyPayload = Demo.compactBody /\
  @verifyGitHubSignature (sampleRuntime [])
     (Demo.signatureOf "hmac-key" Demo.spacedBody) Demo.bodyPayload "hmac-key" = Normal false /\
  @verifyGitHubSignature (sampleRuntime [])
     (Demo.signatureOf "hmac-key" Demo.compactBody) Demo.bodyPayload "hmac-key" = Normal true.
Proof. vm_compute. repeat split; reflexivity. Qed.

(** ** [findAutoDeployProject] and the reply to a push *)

Lemma lowerChar_slash : forall x,
  bool_decide ("/"%char = Js.lowerChar x) = bool_decide ("/"%char = x).
Proof. intros x; destruct x as [[] [] [] [] [] [] [] []]; vm_compute; reflexivity. Qed.

Lemma includes_char_append c (a b : string) :
  Js.includes (String c "") (a +:+ b) = Js.includes (String c "") a || Js.includes (String c "") b.
Proof.
  induction a as [|x a IH]; [done|].
  rewrite string_append_cons. cbn [Js.includes Js.startsWith].
  rewrite IH, !andb_true_r. by rewrite orb_assoc.
Qed.

Lemma includes_char_all c (s : string) :
  Js.all (fun x => negb (bool_decide (c = x))) s = true -> Js.includes (String c "") s = false.
Proof.
  induction s as [|x s IH]; [done|]. cbn [Js.all Js.includes Js.startsWith].
  intros [Hx Hs]%andb_true_iff. apply negb_true_iff in Hx. by rewrite Hx, IH.
Qed.

Lemma letter_not_slash : forall x,
  Js.isLower x || negb (Js.isAscii x) = true -> negb (bool_decide ("/"%char = x)) = true.
Proof. ascii_cases. Qed.

Lemma not_ascii_not_slash : forall x,
  Js.isAscii x = false -> bool_decide ("/"%char = x) = false.
Proof. ascii_cases. Qed.

Section LowerCaseSlash.

Context {tables : Js.CaseTables}.

Lemma lowerOf_no_slash before ch after :
  Js.all (fun c => negb (Js.isAscii c)) ch = true ->
  Js.includes "/" (Js.lowerOf before ch after) = false.
Proof.
  intros Hch. apply includes_char_all.
  eapply all_impl; [apply letter_not_slash|]. by apply Js.lowerOf_letters.
Qed.

(** The lower case of a text has a slash exactly when the text has one:
    the lower case of a character outside ASCII holds none. *)
Lemma includes_slash_caseFrom (s : string) (before : string) (pending : option string) :
  Js.all (fun c => negb (Js.isAscii c)) (default "" pending) = true ->
  Js.includes "/" (Js.caseFrom Js.lowerChar Js.lowerOf before pending s) = Js.includes "/" s.
Proof.
  revert before pending. induction s as [|c s IH]; intros before pending Hp.
  - cbn [Js.caseFrom]. destruct pending as [ch|]; [|done]. by apply lowerOf_no_slash.
  - cbn [Js.caseFrom Js.includes Js.startsWith]. rewrite andb_true_r.
    destruct (Js.isContinuation c) eqn:Hc.
    + rewrite IH.
      * by rewrite (not_ascii_not_slash c (continuation_not_ascii c Hc)).
      * change (Js.all (fun x => negb (Js.isAscii x)) (default "" pending +:+ String c "") = true).
        rewrite all_append, Hp. cbn [Js.all].
        by rewrite (continuation_not_ascii c Hc).
    + rewrite includes_char_append.
      assert (Hflush : Js.includes "/" match pending with
                                       | Some ch => Js.lowerOf before ch (String c s)
                                       | None => ""
                                       end = false).
      { destruct pending as [ch|]; [|done]. by apply lowerOf_no_slash. }
      rewrite Hflush. cbn [orb].
      destruct (Js.isAscii c) eqn:Ha.
      * cbn [Js.includes Js.startsWith]. rewrite andb_true_r, lowerChar_slash.
        by rewrite IH.
      * rewrite IH
          by (change (Js.all (fun x => negb (Js.isAscii x)) (String c "") = true);
              cbn [Js.all]; by rewrite Ha).
        by rewrite (not_ascii_not_slash c Ha).
Qed.

Lemma includes_slash_toLowerCase (s : string) :
  Js.includes "/" (Js.toLowerCase s) = Js.includes "/" s.
Proof. by apply includes_slash_caseFrom. Qed.

End LowerCaseSlash.

Lemma find_ext_Forall {A : Type} (f g : A -> bool) (l : list A) :
  Forall (fun x => f x = g x) l -> List.find f l = List.find g l.
Proof.
  induction 1 as [|x l Hx _ IH]; [done|]. cbn. by rewrite Hx, IH.
Qed.

Section Matching.

Context {rt : Runtime}.

Lemma parseAutoDeployProject_canonical defaultRemoteHost entry project :
  parseAutoDeployProject defaultRemoteHost entry = Some project ->
  repositoryCanonical project = canonicalRepoName (repository project).
Proof.
  unfold parseAutoDeployProject. intros H.
  repeat case_match; simplify_eq; reflexivity.
Qed.

(** Every configured project carries the canonical form of its own
    repository. *)
Lemma autoDeployProjects_canonical :
  Forall (fun project => repositoryCanonical project = canonicalRepoName (repository project))
    autoDeployProjects.
Proof.
  unfold autoDeployProjects, parseAutoDeployProjects.
  repeat case_match; try constructor.
  apply Forall_forall. intros project Hin.
  apply list_elem_of_omap in Hin as (entry & _ & Hentry).
  by eapply parseAutoDeployProject_canonical.
Qed.

Lemma findAutoDeployProject_spec (repositoryName repositoryFullName branchName : string) :
  findAutoDeployProject repositoryName repositoryFullName branchName =
  List.find (projectMatchesSpec repositoryName repositoryFullName branchName) autoDeployProjects.
Proof.
  unfold findAutoDeployProject, findAutoDeployProjectIn.
  apply find_ext_Forall.
  eapply Forall_impl; [apply autoDeployProjects_canonical|].
  intros project Hcanonical. cbn beta.
  unfold projectMatchesSpec. rewrite includes_slash_toLowerCase, Hcanonical.
  destruct (Js.includes "/" (repository project)); cbn [negb andb orb];
    rewrite ?orb_false_r;
    by destruct (bool_decide (branch project = "*")),
               (bool_decide (branch project = branchName)), (bool_decide _).
Qed.

Lemma deployPush_no_match payload branchName repositoryName repositoryFullName st :
  findAutoDeployProject repositoryName repositoryFullName branchName = None ->
  deployPush payload branchName repositoryName repositoryFullName st =
  Normal (reply 202 (BodyIgnored ("No matching auto deploy project for " +:+
                                  repositoryFullName +:+ ":" +:+ branchName +:+ ".")), st).
Proof. intros H. unfold deployPush. by rewrite H. Qed.

End Matching.

(** C6. [findAutoDeployProject] returns the first configured project, in
    the order of the configuration, that matches as the specification words
    it; a valid push that no project matches is answered 202 [ignored] and
    changes nothing. With [org/acme] configured on [main], a push to
    [refs/heads/main] of [org/acme] is queued and a push to
    [refs/heads/develop] is ignored; configured on the star, pushes to
    [develop] and to [feature/x] are queued; a project on the star matches
    whatever the branch. *)
Theorem findAutoDeployProject_first_match :
  (forall (rt : Runtime) (repositoryName repositoryFullName branchName : string),
     findAutoDeployProject repositoryName repositoryFullName branchName =
     List.find (projectMatchesSpec repositoryName repositoryFullName branchName)
       autoDeployProjects) /\
  (forall (rt : Runtime) request st payload branchName repositoryName repositoryFullName,
     validateWebhook request = Normal (ValidPush payload branchName repositoryName repositoryFullName) ->
     Forall (fun project =>
               projectMatchesSpec repositoryName repositoryFullName branchName project = false)
       autoDeployProjects ->
     webhookGithub request st =
     Normal (reply 202 (BodyIgnored ("No matching auto deploy project for " +:+
                                     repositoryFullName +:+ ":" +:+ branchName +:+ ".")), st)) /\
  (forall (rt : Runtime) (repositoryName repositoryFullName branchName other : string) project,
     branch project = "*" ->
     projectMatchesSpec repositoryName repositoryFullName branchName project =
     projectMatchesSpec repositoryName repositoryFullName other project) /\
  fst <$> @webhookGithub (Demo.tokenRuntime [Demo.acmeMain]) (Demo.pushTo "refs/heads/main") initialState
    = Normal (reply 202 (BodyQueued "job-0" "Acme App" "main" "org/acme")) /\
  fst <$> @webhookGithub (Demo.tokenRuntime [Demo.acmeMain]) (Demo.pushTo "refs/heads/develop") initialState
    = Normal (reply 202 (BodyIgnored "No matching auto deploy project for org/acme:develop.")) /\
  fst <$> @webhookGithub (Demo.tokenRuntime [Demo.acmeAnyBranch]) (Demo.pushTo "refs/heads/develop") initialState
    = Normal (reply 202 (BodyQueued "job-0" "Acme App" "develop" "org/acme")) /\
  fst <$> @webhookGithub (Demo.tokenRuntime [Demo.acmeAnyBranch]) (Demo.pushTo "refs/heads/feature/x") initialState
    = Normal (reply 202 (BodyQueued "job-0" "Acme App" "feature/x" "org/acme")).
Proof.
  split; [intros; apply findAutoDeployProject_spec|].
  split.
  { intros rt request st payload branchName repositoryName repositoryFullName Hvalid Hnone.
    unfold webhookGithub. rewrite Hvalid. cbn.
    apply deployPush_no_match. rewrite findAutoDeployProject_spec.
    induction Hnone as [|project rest Hp _ IH]; [done|]. cbn. by rewrite Hp. }
  split.
  { intros ?????? Hstar. unfold projectMatchesSpec. by rewrite Hstar. }
  repeat split; vm_compute; reflexivity.
Qed.

(** The push to [develop] of a repository configured on [main], through
    the general statement. *)
Lemma findAutoDeployProject_first_match_sample :
  @webhookGithub (Demo.tokenRuntime [Demo.acmeMain]) (Demo.pushTo "refs/heads/develop") initialState
  = Normal (reply 202 (BodyIgnored "No matching auto deploy project for org/acme:develop."),
            initialState).
Proof.
  apply (proj1 (proj2 findAutoDeployProject_first_match)
           (Demo.tokenRuntime [Demo.acmeMain]) (Demo.pushTo "refs/heads/develop") initialState
           (Demo.pushPayload "refs/heads/develop" "acme" "org/acme") "develop" "acme" "org/acme").
  - vm_compute. reflexivity.
  - assert (Hconfigured : @autoDeployProjects (Demo.tokenRuntime [Demo.acmeMain]) = [Demo.acmeConfig])
      by (vm_compute; reflexivity).
    rewrite Hconfigured. constructor; [vm_compute; reflexivity | constructor].
Defined.

(** The case of a repository is that of JavaScript: a repository configured
    with the Kelvin sign, whose lower case is the letter [k], matches the
    push of [org/kani]. *)
Example findAutoDeployProject_kelvin_sign :
  fst <$> @webhookGithub
            (Demo.tokenRuntime
               [Demo.project "Kani Taxi" ("org/" +:+ Js.ofBytes [226; 132; 170] +:+ "ani") "main" []])
            (Demo.delivery "push" (Some "s3cret-token")
               (Demo.pushPayload "refs/heads/main" "kani" "org/kani"))
            initialState
  = Normal (reply 202 (BodyQueued "job-0" "Kani Taxi" "main" "org/kani")).
Proof. vm_compute. reflexivity. Qed.

(** ** The queue key of an accepted push *)

Ltac unfold_completion := unfold mbind, Completion_bind, mret, Completion_ret in *.

Section QueueKey.

Context {rt : Runtime}.

(** A reply sent during validation is never [queued]. *)
Lemma validateWebhook_rejected_not_queued request r jobId name branchName repo :
  validateWebhook request = Normal (Rejected r) ->
  reply_body r = BodyQueued jobId name branchName repo -> False.
Proof.
  unfold validateWebhook, reply. unfold_completion. intros H Hbody.
  repeat case_match; simplify_eq; discriminate.
Qed.

(** What validation has established when it lets a push through. *)
Lemma validateWebhook_valid_push request payload branchName repositoryName repositoryFullName :
  validateWebhook request = Normal (ValidPush payload branchName repositoryName repositoryFullName) ->
  body request = Some payload /\
  (prop payload "ref" ≫= branchFromRef) = Normal branchName /\
  Js.isEmpty branchName = false.
Proof.
  unfold validateWebhook, reply. intros H. unfold_completion.
  repeat case_match; simplify_eq; repeat split; congruence.
Qed.

Lemma findAutoDeployProject_some repositoryName repositoryFullName branchName project :
  findAutoDeployProject repositoryName repositoryFullName branchName = Some project ->
  In project autoDeployProjects /\ (branch project = branchName \/ branch project = "*").
Proof.
  unfold findAutoDeployProject, findAutoDeployProjectIn. intros H.
  apply find_some in H as [Hin Hmatch]. split; [done|].
  apply andb_true_iff in Hmatch as [_ Hbranch].
  destruct (bool_decide_reflect (branch project = "*")) as [?|_]; [by right|].
  destruct (bool_decide_reflect (branch project = branchName)) as [?|_]; [by left|].
  done.
Qed.

(** C3, as the code has it. An accepted push creates one job, chained to
    the job the map held for its key, under the key made of the slug and of
    the configured branch of the project it matched; that branch is the
    branch of the push or the star, so the key names the branch of the push
    exactly when the project is not configured on the star. *)
Theorem queued_push_queue_key (request : WebhookRequest) (st st' : ServerState) (r : Reply)
    (jobId name branchName repo : string) :
  webhookGithub request st = Normal (r, st') ->
  reply_body r = BodyQueued jobId name branchName repo ->
  exists payload project job,
    body request = Some payload /\
    (prop payload "ref" ≫= branchFromRef) = Normal branchName /\
    In project autoDeployProjects /\
    projectName project = name /\
    (branch project = branchName \/ branch project = "*") /\
    scheduled st' = scheduled st ++ [job] /\
    job_id job = jobId /\
    job_project job = project /\
    ctx_branch (job_context job) = branchName /\
    job_queueKey job = projectSlug project +:+ ":" +:+ branch project /\
    (branch project <> "*" ->
     job_queueKey job = projectSlug project +:+ ":" +:+ branchName) /\
    job_after job = autoDeployQueues st !! job_queueKey job /\
    autoDeployQueues st' = <[job_queueKey job := length (scheduled st)]> (autoDeployQueues st).
Proof.
  unfold webhookGithub. intros H Hbody.
  destruct (validateWebhook request) as [[r0|payload b repositoryName repositoryFullName]|e]
    eqn:Hvalid; cbn in H; [..|done].
  { simplify_eq. by destruct (validateWebhook_rejected_not_queued _ _ _ _ _ _ Hvalid Hbody). }
  apply validateWebhook_valid_push in Hvalid as (Hpayload & Href & _).
  unfold deployPush in H.
  destruct (findAutoDeployProject repositoryName repositoryFullName b) as [project|] eqn:Hfind;
    [|by simplify_eq].
  apply findAutoDeployProject_some in Hfind as [Hin Hbranch].
  unfold mbind, Completion_bind, queueAutoDeploy, reply in H.
  repeat case_match; simplify_eq; cbn in Hbody; simplify_eq;
    (eexists payload, project, _; cbn; repeat split; try done;
     intros Hstar; by destruct Hbranch as [->|?]).
Qed.

End QueueKey.

(** The push to [main] of a repository configured on [main]. *)
Lemma queued_push_queue_key_sample :
  exists payload project job,
    body (Demo.pushTo "refs/heads/main") = Some payload /\
    (prop payload "ref" ≫= branchFromRef) = Normal "main" /\
    In project (@autoDeployProjects (Demo.tokenRuntime [Demo.acmeMain])) /\
    projectName project = "Acme App" /\
    (branch project = "main" \/ branch project = "*") /\
    scheduled (@stateAfter (Demo.tokenRuntime [Demo.acmeMain]) [Demo.pushTo "refs/heads/main"])
      = scheduled initialState ++ [job] /\
    job_id job = "job-0" /\
    job_project job = project /\
    ctx_branch (job_context job) = "main" /\
    job_queueKey job = projectSlug project +:+ ":" +:+ branch project /\
    (branch project <> "*" -> job_queueKey job = projectSlug project +:+ ":" +:+ "main") /\
    job_after job = autoDeployQueues initialState !! job_queueKey job /\
    autoDeployQueues (@stateAfter (Demo.tokenRuntime [Demo.acmeMain]) [Demo.pushTo "refs/heads/main"])
      = <[job_queueKey job := length (scheduled initialState)]> (autoDeployQueues initialState).
Proof.
  apply (@queued_push_queue_key (Demo.tokenRuntime [Demo.acmeMain])
           (Demo.pushTo "refs/heads/main") initialState
           (@stateAfter (Demo.tokenRuntime [Demo.acmeMain]) [Demo.pushTo "refs/heads/main"])
           (reply 202 (BodyQueued "job-0" "Acme App" "main" "org/acme"))
           "job-0" "Acme App" "main" "org/acme").
  - vm_compute. reflexivity.
  - reflexivity.
Defined.

(** C3, the claim at concrete pushes. With the project configured on the
    star, a push to [main] and a push to [develop] are both queued under the
    key [acme-app:*], not under [acme-app:main] and [acme-app:develop], and
    the second job waits for the first. *)
Lemma wildcard_branches_share_queue_key :
  fst (@deliverAll (Demo.tokenRuntime [Demo.acmeAnyBranch])
         [Demo.pushTo "refs/heads/main"; Demo.pushTo "refs/heads/develop"] initialState)
  = [ reply 202 (BodyQueued "job-0" "Acme App" "main" "org/acme");
      reply 202 (BodyQueued "job-1" "Acme App" "develop" "org/acme") ] /\
  List.map (fun job => (ctx_branch (job_context job), job_queueKey job, job_after job))
    (scheduled (@stateAfter (Demo.tokenRuntime [Demo.acmeAnyBranch])
                  [Demo.pushTo "refs/heads/main"; Demo.pushTo "refs/heads/develop"]))
  = [("main", "acme-app:*", None); ("develop", "acme-app:*", Some 0)].
Proof. vm_compute. split; reflexivity. Qed.

(** ** Configuration of the webhook's authentication *)

Section AuthModes.

Context {rt : Runtime}.

Lemma validateWebhook_auth_missing request :
  autoDeployEnabled = true -> isObjectValue (body request) = true ->
  autoDeployWebhookToken = "" -> githubWebhookSecret = "" ->
  validateWebhook request = Normal (Rejected authMissingReply).
Proof.
  intros Henabled Hobject Htoken Hsecret. unfold validateWebhook.
  rewrite Henabled, Htoken, Hsecret.
  destruct (body request) as [[]|]; done.
Qed.

Lemma validateWebhook_auth_missing_inv request :
  validateWebhook request = Normal (Rejected authMissingReply) ->
  autoDeployWebhookToken = "" /\ githubWebhookSecret = "".
Proof.
  unfold validateWebhook, reply, authMissingReply. intros H.
  unfold mbind, Completion_bind in H.
  repeat case_match; simplify_eq;
    match goal with
    | Hboth : Js.isEmpty _ && Js.isEmpty _ = true |- _ =>
        apply andb_true_iff in Hboth as [Ht Hs];
        by destruct autoDeployWebhookToken, githubWebhookSecret
    end.
Qed.

Lemma deployPush_not_auth_missing payload branchName repositoryName repositoryFullName st st' :
  deployPush payload branchName repositoryName repositoryFullName st =
  Normal (authMissingReply, st') -> False.
Proof.
  unfold deployPush, reply, authMissingReply. intros H.
  unfold mbind, Completion_bind in H.
  repeat case_match; simplify_eq.
Qed.

(** With a token configured the signature header is never read. *)
Lemma validateWebhook_token_ignores_signature request :
  Js.isEmpty autoDeployWebhookToken = false ->
  validateWebhook (withoutSignature request) = validateWebhook request.
Proof.
  intros Htoken. unfold validateWebhook, withoutSignature. cbn.
  rewrite Htoken. cbn [negb andb].
  by rewrite lookup_delete_ne.
Qed.

(** C4, as the code has it. Once the payload is an object and auto deploy
    is enabled, the endpoint answers with the 500 of the missing
    authentication exactly when neither the token nor the secret is
    configured; and when a token is configured, alone or beside a secret,
    the request is validated by the token and the signature header is not
    read. *)
Theorem webhook_auth_missing_iff_neither (request : WebhookRequest) (st : ServerState) :
  (autoDeployEnabled = true -> isObjectValue (body request) = true ->
   (webhookGithub request st = Normal (authMissingReply, st) <->
    autoDeployWebhookToken = "" /\ githubWebhookSecret = "")) /\
  (Js.isEmpty autoDeployWebhookToken = false ->
   webhookGithub (withoutSignature request) st = webhookGithub request st).
Proof.
  split.
  - intros Henabled Hobject. split.
    + unfold webhookGithub. intros H.
      destruct (validateWebhook request) as [[r|payload b name fullName]|e] eqn:Hvalid;
        cbn in H; [..|done].
      * simplify_eq. by apply (validateWebhook_auth_missing_inv request).
      * by destruct (deployPush_not_auth_missing _ _ _ _ _ _ H).
    + intros [Htoken Hsecret]. unfold webhookGithub.
      by rewrite validateWebhook_auth_missing.
  - intros Htoken. unfold webhookGithub.
    by rewrite validateWebhook_token_ignores_signature.
Qed.

End AuthModes.

(** A push to a process with neither a token nor a secret. *)
Lemma webhook_auth_missing_sample :
  @webhookGithub (Demo.noAuthRuntime [Demo.acmeMain]) (Demo.pushTo "refs/heads/main") initialState
  = Normal (authMissingReply, initialState).
Proof.
  apply (proj1 (@webhook_auth_missing_iff_neither (Demo.noAuthRuntime [Demo.acmeMain])
                  (Demo.pushTo "refs/heads/main") initialState));
    try reflexivity.
  split; reflexivity.
Defined.

(** C4, the claim at a concrete process. With a token and a secret both
    configured, a push that carries the token and no signature is not
    answered with the 500 of a misconfiguration: it is queued. *)
Lemma both_auth_modes_configured_proceeds :
  @autoDeployWebhookToken (Demo.tokenAndSecretRuntime [Demo.acmeMain]) = "s3cret-token" /\
  @githubWebhookSecret (Demo.tokenAndSecretRuntime [Demo.acmeMain]) = "hmac-key" /\
  headers (Demo.pushTo "refs/heads/main") !! "x-hub-signature-256" = None /\
  fst <$> @webhookGithub (Demo.tokenAndSecretRuntime [Demo.acmeMain])
            (Demo.pushTo "refs/heads/main") initialState
  = Normal (reply 202 (BodyQueued "job-0" "Acme App" "main" "org/acme")).
Proof. vm_compute. repeat split; reflexivity. Qed.

(** ** [parseRequestLogLine] *)

Section RequestLogLine.

Context {rt : Runtime}.

(** The [try] of [parseJsonRequestLogLine] catches whatever its body
    throws. *)
Lemma parseJsonRequestLogLine_returns (line : string) :
  exists parsed, parseJsonRequestLogLine line = Normal parsed.
Proof.
  unfold parseJsonRequestLogLine.
  destruct (negb (Js.startsWith "{" line) || negb (Js.endsWith "}" line)); [by eexists|].
  unfold catch. case_match; by eexists.
Qed.

Lemma parseJsonRequestLogLine_not_json (line : string) :
  Js.startsWith "{" line && Js.endsWith "}" line = false \/ JSON_parse line = None ->
  parseJsonRequestLogLine line = Normal None.
Proof.
  unfold parseJsonRequestLogLine. intros [H|H].
  - apply andb_false_iff in H as [-> | ->]; [done|]. by rewrite orb_true_r.
  - rewrite H. by destruct (negb _ || negb _).
Qed.

Lemma parseRequestLogLine_returns (line : string) :
  exists parsed, parseRequestLogLine line = Normal parsed.
Proof.
  unfold parseRequestLogLine.
  destruct (parseJsonRequestLogLine_returns line) as [parsed ->].
  cbn. destruct parsed; by eexists.
Qed.

(** C8. [parseRequestLogLine] returns for every line, it never throws; and
    for a line that is not a JSON object line (it lacks the braces, or
    [JSON.parse] rejects it) and that the regular expression of the combined
    log format does not match, it returns none. *)
Theorem parseRequestLogLine_total_and_rejects (line : string) :
  (exists parsed, parseRequestLogLine line = Normal parsed) /\
  (Js.startsWith "{" line && Js.endsWith "}" line = false \/ JSON_parse line = None ->
   matchNginxLine line = None ->
   parseRequestLogLine line = Normal None).
Proof.
  split; [apply parseRequestLogLine_returns|].
  intros Hjson Hnginx. unfold parseRequestLogLine.
  rewrite (parseJsonRequestLogLine_not_json line Hjson). cbn.
  unfold parseNginxRequestLogLine. by rewrite Hnginx.
Qed.

End RequestLogLine.

(** A line in braces that is not JSON and is not in the combined log
    format either. *)
Lemma parseRequestLogLine_rejects_sample :
  @parseRequestLogLine (sampleRuntime []) "{ GET /index.html 200 }" = Normal None.
Proof.
  apply (@parseRequestLogLine_total_and_rejects (sampleRuntime []) "{ GET /index.html 200 }").
  - right. reflexivity.
  - reflexivity.
Defined.

(** The fields of the combined log format are separated by the white space
    of JavaScript: a line with a no-break space after the remote address
    is matched. *)
Example parseRequestLogLine_no_break_space :
  line_remoteAddr <$>
    (match @parseRequestLogLine (sampleRuntime [])
             ("1.2.3.4" +:+ Js.ofBytes [194; 160] +:+ "- - [10/Oct/2024:13:55:36 +0000] " +:+
              Json.quote "GET /index.html HTTP/1.1" +:+ " 200 512") with
     | Normal parsed => parsed
     | Throw _ => None
     end) = Some (Some "1.2.3.4").
Proof. vm_compute. reflexivity. Qed.

(** ** [parseTrackerEntries] *)

Section Tracker.

Context {rt : Runtime}.




End Tracker.

(** Two lines of [acme-app] under different spellings and one of another
    project: the two are returned, the later first, under the name given. *)
Example parseTrackerEntries_sample :
  let rt := sampleRuntime [] in
  let entry (name id : string) :=
    Demo.object [("projectName", Json.quote name); ("deploymentId", Json.quote id);
                 ("trackedAt", Json.quote "2023-11-14T22:00:00.000Z")] in
  let raw := Js.join newline [entry "Acme App" "dep-1"; entry "Beta App" "dep-2"; "not json";
                              entry "acme-app" "dep-3"] in
  List.map (fun d => (dep_deploymentId d, dep_projectName d, dep_createdRelative d))
    (fst (parseTrackerEntries raw "acme-app" "ACME (display)" 0)) =
  [("DEP-3", "ACME (display)", "13 min ago"); ("DEP-1", "ACME (display)", "13 min ago")].
Proof. vm_compute. reflexivity. Qed.

(** ** Attribution of a log line to a project *)

Section Attribution.

Context {rt : Runtime}.

(** The two projects of the example: [acme-app], one of whose domains is
    [acme.example.com], then [beta-app]. *)
Variables acme beta : AutoDeployProjectConfig.
Hypothesis configured : autoDeployProjects = [acme; beta].
Hypothesis acme_slug : projectSlug acme = "acme-app".
Hypothesis acme_domain : In "acme.example.com" (domains acme).
Hypothesis beta_slug : projectSlug beta = "beta-app".

Lemma projectsBySlug_two :
  autoDeployProjectsBySlug = <["beta-app" := beta]> (<["acme-app" := acme]> ∅).
Proof using configured acme_slug beta_slug.
  unfold autoDeployProjectsBySlug. rewrite configured. cbn.
  by rewrite acme_slug, beta_slug.
Qed.

(** The hint stage returns exactly for a hint that names one of the two. *)
Lemma resolveByHint_two (hint : option string) :
  resolveByHint hint =
  let slug := normalizeProject (default "" hint) in
  if bool_decide (slug = "acme-app") || bool_decide (slug = "beta-app") then Some slug else None.
Proof using configured acme_slug beta_slug.
  unfold resolveByHint. rewrite projectsBySlug_two, configured. cbn zeta.
  set (slug := normalizeProject (default "" hint)).
  destruct (bool_decide_reflect (slug = "acme-app")) as [->|Hacme]; [done|].
  destruct (bool_decide_reflect (slug = "beta-app")) as [->|Hbeta]; [done|].
  cbn [orb].
  destruct (Js.isEmpty slug); [done|].
  rewrite bool_decide_eq_false_2; [done|].
  rewrite lookup_insert_ne by done. rewrite lookup_insert_ne by done.
  rewrite lookup_empty. by intros [? ?].
Qed.

Lemma acme_configured_host :
  In "acme.example.com" (resolveProjectConfiguredHosts "acme-app").
Proof using configured acme_slug acme_domain beta_slug.
  unfold resolveProjectConfiguredHosts. rewrite projectsBySlug_two.
  rewrite lookup_insert_ne by done. rewrite lookup_insert_eq. cbn [from_option].
  apply In_dedupe, filter_In. split; [|done].
  change "acme.example.com" with (normalizeHost "acme.example.com") at 1.
  apply in_map, in_or_app. by left.
Qed.

Lemma hostMatchesProject_acme : hostMatchesProject "acme.example.com" acme = true.
Proof using configured acme_slug acme_domain beta_slug.
  unfold hostMatchesProject. rewrite acme_slug.
  apply orb_true_iff. left. apply orb_true_iff. right.
  apply existsb_exists. exists "acme.example.com". split; [apply acme_configured_host|].
  by apply bool_decide_eq_true.
Qed.

Lemma textMatchesProject_beta (haystack : string) :
  Js.includes "beta-app" haystack = true -> textMatchesProject haystack beta = true.
Proof using beta_slug.
  intros H. unfold textMatchesProject. rewrite beta_slug. by rewrite H.
Qed.

(** A path through [/beta-app/] puts [beta-app] into the searched text. *)
Lemma haystack_names_beta (entry : ParsedRequestLogLine) :
  Js.includes "/beta-app/" (line_path entry) = true ->
  Js.includes "beta-app" (haystackOf entry) = true.
Proof.
  intros H. unfold haystackOf.
  apply includes_toLowerCase; [done..|].
  apply includes_append_l.
  by apply (includes_trans _ "/beta-app/").
Qed.

Lemma resolve_unfold (entry : ParsedRequestLogLine) :
  resolveProjectSlugFromRequestLog entry =
  match resolveByHint (line_projectHint entry) with
  | Some hint => hint
  | None =>
      match resolveByHost (normalizeHost (line_host entry)) with
      | Some slug => slug
      | None =>
          if textMatchesProject (haystackOf entry) acme then "acme-app"
          else if textMatchesProject (haystackOf entry) beta then "beta-app"
          else ""
      end
  end.
Proof using configured acme_slug beta_slug.
  unfold resolveProjectSlugFromRequestLog. fold (haystackOf entry).
  rewrite configured. cbn [List.find].
  destruct (resolveByHint (line_projectHint entry)); [done|].
  destruct (resolveByHost (normalizeHost (line_host entry))); [done|].
  destruct (textMatchesProject (haystackOf entry) acme); [done|].
  by destruct (textMatchesProject (haystackOf entry) beta).
Qed.

(** A line whose attribution is the empty slug pushes no entry. *)
Lemma requestLogEntryOf_unattributed requested startMs endMs index line entry reads :
  parseRequestLogLine line = Normal (Some entry) ->
  resolveProjectSlugFromRequestLog entry = "" ->
  requestLogEntryOf requested startMs endMs index line reads = (Normal None, reads).
Proof.
  intros Hparse Hslug. unfold requestLogEntryOf. rewrite Hparse, Hslug. cbn.
  by case_match.
Qed.

Lemma requestLogEntryOf_attributed requested startMs endMs index line reads pushed reads' :
  requestLogEntryOf requested startMs endMs index line reads = (Normal (Some pushed), reads') ->
  exists entry,
    parseRequestLogLine line = Normal (Some entry) /\
    log_projectSlug pushed = resolveProjectSlugFromRequestLog entry /\
    Js.isEmpty (log_projectSlug pushed) = false.
Proof.
  unfold requestLogEntryOf. intros H.
  destruct (parseRequestLogLine line) as [[entry|]|e]; [|done..].
  exists entry. cbv zeta in H.
  destruct (isDashboardUsageRequest _ _); [done|].
  destruct (Js.isEmpty (resolveProjectSlugFromRequestLog entry)) eqn:Hslug; [done|].
  destruct (match requested with Some _ => _ | None => _ end); [done|].
  destruct (match line_timestamp entry with Some _ => _ | None => _ end) as [timestamp reads1].
  destruct (from_option _ false startMs); [done|].
  destruct (from_option _ false endMs); [done|].
  by simplify_eq.
Qed.

Lemma requestLogEntriesFrom_attributed requested startMs endMs lines :
  forall index reads entries reads',
  requestLogEntriesFrom requested startMs endMs index lines reads = (Normal entries, reads') ->
  Forall (fun pushed =>
            exists line entry,
              In line lines /\
              parseRequestLogLine line = Normal (Some entry) /\
              log_projectSlug pushed = resolveProjectSlugFromRequestLog entry /\
              Js.isEmpty (log_projectSlug pushed) = false) entries.
Proof.
  induction lines as [|line lines IH]; intros index reads entries reads' H;
    cbn [requestLogEntriesFrom] in H.
  - simplify_eq. constructor.
  - destruct (requestLogEntryOf requested startMs endMs index line reads)
      as [[pushed|e] reads1] eqn:Hline; [|done].
    destruct (requestLogEntriesFrom requested startMs endMs (S index) lines reads1)
      as [[rest|e] reads2] eqn:Hrest; [|done].
    apply IH in Hrest.
    assert (Hrest' : Forall (fun pushed =>
              exists line0 entry,
                In line0 (line :: lines) /\
                parseRequestLogLine line0 = Normal (Some entry) /\
                log_projectSlug pushed = resolveProjectSlugFromRequestLog entry /\
                Js.isEmpty (log_projectSlug pushed) = false) rest).
    { eapply Forall_impl; [exact Hrest|].
      intros pushed' (line0 & entry & Hin & ?). exists line0, entry. split; [by right|done]. }
    simplify_eq. destruct pushed as [pushed|]; [|done].
    constructor; [|done].
    apply requestLogEntryOf_attributed in Hline as (entry & ? & ? & ?).
    exists line, entry. split; [by left|done].
Qed.

(** Every entry [parseRequestLogEntries] returns comes from a line of the
    log that parsed and whose attribution is not empty. *)
Lemma parseRequestLogEntries_attributed raw requested limit startMs endMs reads entries reads' :
  parseRequestLogEntries raw requested limit startMs endMs reads = (Normal entries, reads') ->
  Forall (fun pushed =>
            exists line entry,
              In line (nonEmptyLines raw) /\
              parseRequestLogLine line = Normal (Some entry) /\
              log_projectSlug pushed = resolveProjectSlugFromRequestLog entry /\
              Js.isEmpty (log_projectSlug pushed) = false) entries.
Proof.
  unfold parseRequestLogEntries. intros H.
  destruct (requestLogEntriesFrom _ startMs endMs 0 (nonEmptyLines raw) reads)
    as [[parsedEntries|e] reads1] eqn:Hloop; [|done].
  simplify_eq. apply requestLogEntriesFrom_attributed in Hloop.
  rewrite Forall_forall in Hloop |- *. intros pushed Hin. apply Hloop.
  apply list_elem_of_In. apply list_elem_of_In in Hin.
  by eapply In_sortDescending, In_sliceTo.
Qed.

(** C7, as the code has it, for the two projects in the order [acme-app],
    [beta-app]. A line whose host normalises to [acme.example.com] resolves
    to [acme-app] unless its hint names [beta-app]; a line with an empty
    host whose path contains [/beta-app/] resolves to [beta-app] unless its
    hint names [acme-app] or its text names [acme-app]; a line that no
    stage matches resolves to the empty slug, pushes no entry, and no entry
    returned has an empty slug. *)
Theorem attribution_of_two_projects (entry : ParsedRequestLogLine) :
  (normalizeHost (line_host entry) = "acme.example.com" ->
   hintOf entry <> "beta-app" ->
   resolveProjectSlugFromRequestLog entry = "acme-app") /\
  (normalizeHost (line_host entry) = "" ->
   Js.includes "/beta-app/" (line_path entry) = true ->
   hintOf entry <> "acme-app" ->
   textMatchesProject (haystackOf entry) acme = false ->
   resolveProjectSlugFromRequestLog entry = "beta-app") /\
  (resolveByHint (line_projectHint entry) = None ->
   resolveByHost (normalizeHost (line_host entry)) = None ->
   textMatchesProject (haystackOf entry) acme = false ->
   textMatchesProject (haystackOf entry) beta = false ->
   resolveProjectSlugFromRequestLog entry = "" /\
   forall requested startMs endMs index line reads,
     parseRequestLogLine line = Normal (Some entry) ->
     requestLogEntryOf requested startMs endMs index line reads = (Normal None, reads)) /\
  (forall raw requested limit startMs endMs reads entries reads',
     parseRequestLogEntries raw requested limit startMs endMs reads = (Normal entries, reads') ->
     Forall (fun pushed =>
               exists line parsed,
                 In line (nonEmptyLines raw) /\
                 parseRequestLogLine line = Normal (Some parsed) /\
                 log_projectSlug pushed = resolveProjectSlugFromRequestLog parsed /\
                 Js.isEmpty (log_projectSlug pushed) = false) entries).
Proof using configured acme_slug acme_domain beta_slug.
  split; [|split; [|split]].
  - intros Hhost Hhint. rewrite resolve_unfold, resolveByHint_two. cbn zeta.
    fold (hintOf entry).
    destruct (bool_decide_reflect (hintOf entry = "acme-app")) as [->|_]; [done|].
    rewrite (bool_decide_eq_false_2 _ Hhint). cbn [orb].
    rewrite Hhost. unfold resolveByHost. cbn [Js.isEmpty].
    rewrite configured. cbn [List.find]. by rewrite hostMatchesProject_acme, acme_slug.
  - intros Hhost Hpath Hhint Htext. rewrite resolve_unfold, resolveByHint_two. cbn zeta.
    fold (hintOf entry).
    rewrite (bool_decide_eq_false_2 _ Hhint). cbn [orb].
    destruct (bool_decide_reflect (hintOf entry = "beta-app")) as [->|_]; [done|].
    rewrite Hhost. cbn. rewrite Htext.
    by rewrite textMatchesProject_beta by by apply haystack_names_beta.
  - intros Hhint Hhost Hacme Hbeta.
    assert (Hslug : resolveProjectSlugFromRequestLog entry = "")
      by by rewrite resolve_unfold, Hhint, Hhost, Hacme, Hbeta.
    split; [done|]. intros. by apply (requestLogEntryOf_unattributed _ _ _ _ _ entry).
  - intros. by eapply parseRequestLogEntries_attributed.
Qed.

End Attribution.

(** The theorem at the two projects of [Demo.twoProjects]. *)
Lemma attribution_of_two_projects_sample :
  @resolveProjectSlugFromRequestLog Demo.twoProjects
    (Demo.line "ACME.example.com:443" "/" None) = "acme-app" /\
  @resolveProjectSlugFromRequestLog Demo.twoProjects
    (Demo.line "" "/beta-app/index.html" None) = "beta-app" /\
  @resolveProjectSlugFromRequestLog Demo.twoProjects
    (Demo.line "other.example.org" "/" None) = "".
Proof.
  assert (configured : @autoDeployProjects Demo.twoProjects = [Demo.acmeConfig; Demo.betaConfig])
    by (vm_compute; reflexivity).
  pose proof (fun entry =>
    @attribution_of_two_projects Demo.twoProjects Demo.acmeConfig Demo.betaConfig
      configured eq_refl (or_introl eq_refl) eq_refl entry) as H.
  split; [|split].
  - apply (H (Demo.line "ACME.example.com:443" "/" None));
      [vm_compute; reflexivity | vm_compute; discriminate].
  - apply (H (Demo.line "" "/beta-app/index.html" None));
      [vm_compute; reflexivity | vm_compute; reflexivity
      | vm_compute; discriminate | vm_compute; reflexivity].
  - apply (H (Demo.line "other.example.org" "/" None)); vm_compute; reflexivity.
Defined.

(** C7 as stated fails on two lines of a log: a line for the host
    [acme.example.com] whose [project] field names [Beta App] is
    attributed to [beta-app], and a line without a host whose path contains
    [/beta-app/] and also [acme-app] is attributed to [acme-app]. *)
Lemma attribution_hint_first_and_text_in_order :
  @autoDeployProjects Demo.twoProjects = [Demo.acmeConfig; Demo.betaConfig] /\
  @Demo.attributionOf Demo.twoProjects Demo.hintedLine =
    Some ("acme.example.com", "/", "beta-app") /\
  @Demo.attributionOf Demo.twoProjects Demo.nestedPathLine =
    Some ("", "/beta-app/acme-app", "acme-app") /\
  Js.includes "/beta-app/" "/beta-app/acme-app" = true.
Proof. vm_compute. by repeat split. Qed.

(** ** More on strings *)

Lemma length_map f (s : string) : String.length (Js.map f s) = String.length s.
Proof. induction s as [|c s IH]; [done|]. cbn. by rewrite IH. Qed.

Lemma isEmpty_append (a b : string) :
  Js.isEmpty (a +:+ b) = Js.isEmpty a && Js.isEmpty b.
Proof. by destruct a. Qed.


Lemma isEmpty_true (s : string) : Js.isEmpty s = true <-> s = "".
Proof. by destruct s. Qed.

Lemma all_map p f (s : string) : Js.all p (Js.map f s) = Js.all (fun c => p (f c)) s.
Proof. induction s as [|c s IH]; [done|]. cbn. by rewrite IH. Qed.

Lemma all_ext p q (s : string) : (forall c, p c = q c) -> Js.all p s = Js.all q s.
Proof. intros H. induction s as [|c s IH]; [done|]. cbn. by rewrite H, IH. Qed.

Lemma all_filter p (s : string) : Js.all p (Js.filter p s) = true.
Proof.
  induction s as [|c s IH]; [done|]. cbn.
  destruct (p c) eqn:E; [|done]. cbn. by rewrite E.
Qed.

Lemma filter_all p (s : string) : Js.all p s = true -> Js.filter p s = s.
Proof.
  induction s as [|c s IH]; [done|]. cbn.
  intros [Hc Hs]%andb_true_iff. by rewrite Hc, IH.
Qed.

Lemma all_takeWhile p (s : string) : Js.all p (Js.takeWhile p s) = true.
Proof.
  induction s as [|c s IH]; [done|]. cbn.
  destruct (p c) eqn:E; [|done]. cbn. by rewrite E.
Qed.

Lemma all_take p n (s : string) : Js.all p s = true -> Js.all p (Js.take n s) = true.
Proof.
  revert s. induction n as [|n IH]; intros [|c s]; cbn; try done.
  intros [Hc Hs]%andb_true_iff. by rewrite Hc, IH.
Qed.

Lemma all_drop p n (s : string) : Js.all p s = true -> Js.all p (Js.drop n s) = true.
Proof.
  revert s. induction n as [|n IH]; intros [|c s]; cbn; try done.
  intros [Hc Hs]%andb_true_iff. by apply IH.
Qed.

Lemma takeWhile_dropWhile p (s : string) : Js.takeWhile p s +:+ Js.dropWhile p s = s.
Proof.
  induction s as [|c s IH]; [done|]. cbn.
  destruct (p c); [|done]. by rewrite string_append_cons, IH.
Qed.

Lemma takeWhile_all p (s : string) : Js.all p s = true -> Js.takeWhile p s = s.
Proof.
  induction s as [|c s IH]; [done|]. cbn.
  intros [Hc Hs]%andb_true_iff. by rewrite Hc, IH.
Qed.

Lemma dropWhile_all p (s : string) : Js.all p s = true -> Js.dropWhile p s = "".
Proof.
  induction s as [|c s IH]; [done|]. cbn.
  intros [Hc Hs]%andb_true_iff. by rewrite Hc, IH.
Qed.

(** A run that a character outside the class stops. *)
Lemma takeWhile_stop p (a : string) c (b : string) :
  Js.all p a = true -> p c = false -> Js.takeWhile p (a +:+ String c b) = a.
Proof.
  intros Ha Hc. induction a as [|x a IH].
  - rewrite string_append_empty_l. cbn. by rewrite Hc.
  - cbn in Ha. apply andb_true_iff in Ha as [Hx Ha].
    rewrite string_append_cons. cbn. by rewrite Hx, IH.
Qed.

Lemma dropWhile_stop p (a : string) c (b : string) :
  Js.all p a = true -> p c = false -> Js.dropWhile p (a +:+ String c b) = String c b.
Proof.
  intros Ha Hc. induction a as [|x a IH].
  - rewrite string_append_empty_l. cbn. by rewrite Hc.
  - cbn in Ha. apply andb_true_iff in Ha as [Hx Ha].
    rewrite string_append_cons. cbn. by rewrite Hx, IH.
Qed.

(** *** The end of a string *)

Lemma dropWhileEnd_append p (a b : string) :
  Js.dropWhileEnd p (a +:+ b) =
  if Js.isEmpty (Js.dropWhileEnd p b) then Js.dropWhileEnd p a
  else a +:+ Js.dropWhileEnd p b.
Proof.
  induction a as [|x a IH].
  - rewrite string_append_empty_l. cbn. by destruct (Js.dropWhileEnd p b).
  - rewrite string_append_cons. cbn [Js.dropWhileEnd]. rewrite IH.
    destruct (Js.isEmpty (Js.dropWhileEnd p b)) eqn:E; [done|].
    rewrite isEmpty_append, E, andb_false_r, andb_false_r.
    by rewrite string_append_cons.
Qed.

Lemma dropWhileEnd_last p (a : string) c :
  p c = false -> Js.dropWhileEnd p (a +:+ String c "") = a +:+ String c "".
Proof.
  intros Hc. rewrite dropWhileEnd_append. cbn. by rewrite Hc.
Qed.

Lemma dropWhile_append_head p c (b : string) :
  p c = false -> Js.dropWhile p (String c b) = String c b.
Proof. intros Hc. cbn. by rewrite Hc. Qed.

Lemma endsWith_append_same (a b : string) : Js.endsWith b (a +:+ b) = true.
Proof.
  induction a as [|x a IH].
  - rewrite string_append_empty_l. destruct b; cbn [Js.endsWith]; by rewrite bool_decide_eq_true_2.
  - rewrite string_append_cons. cbn [Js.endsWith]. rewrite IH. apply orb_true_r.
Qed.

Lemma endsWith_iff (suffix s : string) :
  Js.endsWith suffix s = true <-> exists pre, s = pre +:+ suffix.
Proof.
  split.
  - induction s as [|c s IH]; cbn [Js.endsWith].
    + rewrite orb_false_r. intros ->%bool_decide_eq_true. by exists "".
    + intros [->%bool_decide_eq_true | H]%orb_true_iff; [by exists ""|].
      destruct (IH H) as [pre ->]. by exists (String c pre).
  - intros [pre ->]. apply endsWith_append_same.
Qed.

(** A suffix of a string of the class is of the class. *)
Lemma endsWith_all p (suffix s : string) :
  Js.all p s = true -> Js.endsWith suffix s = true -> Js.all p suffix = true.
Proof.
  intros Hs [pre ->]%endsWith_iff. rewrite all_append in Hs.
  by apply andb_true_iff in Hs as [_ ?].
Qed.

(** A suffix without [c] of a string through [c] lies after it. *)
Lemma endsWith_after (suffix a : string) c (b : string) :
  Js.all (fun x => negb (bool_decide (x = c))) suffix = true ->
  Js.endsWith suffix (a +:+ String c b) = Js.endsWith suffix b.
Proof.
  intros Hsuffix. induction a as [|x a IH].
  - rewrite string_append_empty_l. cbn [Js.endsWith].
    rewrite bool_decide_eq_false_2; [done|].
    intros <-. cbn in Hsuffix. by rewrite bool_decide_eq_true_2 in Hsuffix.
  - rewrite string_append_cons. cbn [Js.endsWith]. rewrite IH.
    rewrite bool_decide_eq_false_2; [done|].
    intros <-. rewrite <- string_append_cons, all_append in Hsuffix.
    apply andb_true_iff in Hsuffix as [_ Hsuffix].
    cbn in Hsuffix. by rewrite bool_decide_eq_true_2 in Hsuffix.
Qed.

(** *** Splitting *)

Lemma split_not_nil sep (s : string) : Js.split sep s <> [].
Proof.
  induction s as [|c s IH]; [done|]. cbn.
  destruct (bool_decide (c = sep)); [done|]. by destruct (Js.split sep s).
Qed.

Lemma split_none sep (s : string) :
  Js.all (fun c => negb (bool_decide (c = sep))) s = true -> Js.split sep s = [s].
Proof.
  induction s as [|c s IH]; [done|]. cbn.
  intros [Hc Hs]%andb_true_iff. apply negb_true_iff in Hc. by rewrite Hc, IH.
Qed.

Lemma split_cons_other sep c (s : string) :
  c <> sep ->
  exists w ws, Js.split sep s = w :: ws /\ Js.split sep (String c s) = String c w :: ws.
Proof.
  intros Hc. cbn. rewrite bool_decide_eq_false_2 by done.
  destruct (Js.split sep s) as [|w ws] eqn:E; [by apply split_not_nil in E|].
  by exists w, ws.
Qed.

Lemma split_append sep (a b : string) :
  Js.split sep (a +:+ String sep b) = Js.split sep a ++ Js.split sep b.
Proof.
  induction a as [|c a IH].
  - rewrite string_append_empty_l. cbn. by rewrite bool_decide_eq_true_2.
  - rewrite string_append_cons. cbn [Js.split]. rewrite IH.
    destruct (bool_decide (c = sep)); [done|].
    destruct (Js.split sep a) as [|w ws] eqn:E; [by apply split_not_nil in E|done].
Qed.

(** The piece before the first separator. *)
Lemma split_head sep (a b : string) :
  Js.all (fun c => negb (bool_decide (c = sep))) a = true ->
  head (Js.split sep (a +:+ String sep b)) = Some a.
Proof. intros Ha. by rewrite split_append, split_none. Qed.

Lemma split_pieces sep (s : string) :
  Forall (fun piece => Js.all (fun c => negb (bool_decide (c = sep))) piece = true)
    (Js.split sep s).
Proof.
  induction s as [|c s IH]; [by repeat constructor|]. cbn.
  destruct (bool_decide_reflect (c = sep)) as [->|Hc]; [by constructor|].
  destruct (Js.split sep s) as [|w ws]; [repeat constructor; cbn; by rewrite bool_decide_eq_false_2|].
  inversion IH; subst. constructor; [|done]. cbn. by rewrite bool_decide_eq_false_2.
Qed.

(** *** Letter case *)

Lemma lowerChar_idem : forall c, Js.lowerChar (Js.lowerChar c) = Js.lowerChar c.
Proof. ascii_cases. Qed.

Lemma lowerChar_upperChar : forall c, Js.lowerChar (Js.upperChar c) = Js.lowerChar c.
Proof. ascii_cases. Qed.

Lemma isLowerAlnum_lowerChar : forall c, isLowerAlnum c = true -> Js.lowerChar c = c.
Proof. ascii_cases. Qed.

Lemma isLowerAlnum_visible : forall c, isLowerAlnum c = true -> isVisible c = true.
Proof. ascii_cases. Qed.

Lemma asciiLower_idem (s : string) : Js.asciiLower (Js.asciiLower s) = Js.asciiLower s.
Proof.
  unfold Js.asciiLower. induction s as [|c s IH]; [done|]. cbn. by rewrite lowerChar_idem, IH.
Qed.

Lemma asciiLower_upper (s : string) : Js.asciiLower (Js.map Js.upperChar s) = Js.asciiLower s.
Proof.
  unfold Js.asciiLower. induction s as [|c s IH]; [done|]. cbn. by rewrite lowerChar_upperChar, IH.
Qed.

Lemma all_ascii_map f (s : string) :
  (forall c, Js.isAscii c = true -> Js.isAscii (f c) = true) ->
  Js.all Js.isAscii s = true -> Js.all Js.isAscii (Js.map f s) = true.
Proof.
  intros Hf. induction s as [|c s IH]; [done|]. cbn [Js.all Js.map].
  intros [Hc Hs]%andb_true_iff. by rewrite (Hf c Hc), IH.
Qed.

Lemma lowerChar_ascii : forall c, Js.isAscii c = true -> Js.isAscii (Js.lowerChar c) = true.
Proof. ascii_cases. Qed.

Lemma all_visible_ascii (s : string) : Js.all isVisible s = true -> Js.all Js.isAscii s = true.
Proof. apply all_impl, isVisible_ascii. Qed.

(** ** Repository names *)

Lemma isRepoPartChar_not_slash : forall c,
  isRepoPartChar c = true -> negb (bool_decide (c = "/"%char)) = true.
Proof. intros c. unfold isRepoPartChar. by intros [_ ?]%andb_true_iff. Qed.

Lemma isRepoPartChar_visible : forall c, isRepoPartChar c = true -> isVisible c = true.
Proof. intros c. unfold isRepoPartChar. by intros [? _]%andb_true_iff. Qed.

Lemma isRepoPartChar_ascii : forall c, isRepoPartChar c = true -> Js.isAscii c = true.
Proof. intros c Hc. by apply isVisible_ascii, isRepoPartChar_visible. Qed.

Lemma isRepoPartChar_upperChar : forall c, isRepoPartChar (Js.upperChar c) = isRepoPartChar c.
Proof. intros c. destruct c as [[] [] [] [] [] [] [] []]; reflexivity. Qed.

Lemma isLowerAlnum_repoPart : forall c, isLowerAlnum c = true -> isRepoPartChar c = true.
Proof. ascii_cases. Qed.

(** The white space around an owner, a slash and a name goes; the slash
    and the name stay. *)
Lemma trim_owner_name (owner name : string) :
  Js.all isRepoPartChar name = true ->
  exists owner', Js.trim (owner +:+ "/" +:+ name) = owner' +:+ "/" +:+ name.
Proof.
  intros Hname.
  change ("/" +:+ name) with (String "/" name).
  destruct (trimStart_append_visible owner "/" name eq_refl) as [owner' Hstart].
  exists owner'. unfold Js.trim. rewrite Hstart.
  rewrite trimEnd_append_visible by done.
  rewrite trimEnd_visible; [done|].
  eapply all_impl; [|exact Hname]. apply isRepoPartChar_visible.
Qed.

Lemma lastNonEmptySegment_after_slash (owner name : string) :
  Js.isEmpty name = false -> Js.all isRepoPartChar name = true ->
  lastNonEmptySegment (owner +:+ "/" +:+ name) = Some name.
Proof.
  intros Hne Hname. unfold lastNonEmptySegment.
  change ("/" +:+ name) with (String "/" name).
  rewrite split_append, List.filter_app.
  rewrite (split_none "/" name).
  2:{ eapply all_impl; [|exact Hname]. apply isRepoPartChar_not_slash. }
  cbn [List.filter]. rewrite Hne. cbn [negb]. apply last_snoc.
Qed.

Lemma lastNonEmptySegment_plain (name : string) :
  Js.all isRepoPartChar name = true ->
  default name (lastNonEmptySegment name) = name.
Proof.
  intros Hname. unfold lastNonEmptySegment.
  rewrite (split_none "/" name).
  2:{ eapply all_impl; [|exact Hname]. apply isRepoPartChar_not_slash. }
  cbn. by destruct name.
Qed.

Lemma stripGitSuffix_git (s : string) : stripGitSuffix (s +:+ ".git") = s.
Proof.
  unfold stripGitSuffix, Js.asciiLower. rewrite map_append.
  change (Js.map Js.lowerChar ".git") with ".git".
  rewrite endsWith_append_same, length_append. cbn [String.length].
  replace (String.length s + 4 - 4) with (String.length s) by lia.
  apply take_append.
Qed.

Lemma stripGitSuffix_none (s : string) :
  Js.endsWith ".git" (Js.asciiLower s) = false -> stripGitSuffix s = s.
Proof. intros H. unfold stripGitSuffix. by rewrite H. Qed.

Lemma endsWith_git_after_slash (owner name : string) :
  Js.endsWith ".git" (Js.asciiLower (owner +:+ "/" +:+ name)) =
  Js.endsWith ".git" (Js.asciiLower name).
Proof.
  unfold Js.asciiLower. rewrite !map_append.
  change (Js.map Js.lowerChar "/" +:+ Js.map Js.lowerChar name)
    with (String "/" (Js.map Js.lowerChar name)).
  by rewrite endsWith_after.
Qed.

Section RepoName.

Context {tables : Js.CaseTables}.

Lemma toLowerCase_repoPart (name : string) :
  Js.all isRepoPartChar name = true -> Js.toLowerCase name = Js.asciiLower name.
Proof.
  intros Hname. apply toLowerCase_ascii.
  eapply all_impl; [|exact Hname]. apply isRepoPartChar_ascii.
Qed.

Lemma canonicalRepoName_plain (name : string) :
  Js.all isRepoPartChar name = true ->
  Js.endsWith ".git" (Js.asciiLower name) = false ->
  canonicalRepoName name = Js.filter isLowerAlnum (Js.asciiLower name).
Proof.
  intros Hname Hgit. unfold canonicalRepoName.
  rewrite trim_visible by (eapply all_impl; [|exact Hname]; apply isRepoPartChar_visible).
  rewrite stripGitSuffix_none by done.
  by rewrite lastNonEmptySegment_plain, toLowerCase_repoPart.
Qed.

Lemma canonicalRepoName_owner (owner name : string) :
  Js.isEmpty name = false -> Js.all isRepoPartChar name = true ->
  Js.endsWith ".git" (Js.asciiLower name) = false ->
  canonicalRepoName (owner +:+ "/" +:+ name) = Js.filter isLowerAlnum (Js.asciiLower name).
Proof.
  intros Hne Hname Hgit. unfold canonicalRepoName.
  destruct (trim_owner_name owner name Hname) as [owner' ->].
  rewrite stripGitSuffix_none by by rewrite endsWith_git_after_slash.
  by rewrite lastNonEmptySegment_after_slash, toLowerCase_repoPart.
Qed.

Lemma canonicalRepoName_owner_git (owner name : string) :
  Js.isEmpty name = false -> Js.all isRepoPartChar name = true ->
  canonicalRepoName (owner +:+ "/" +:+ name +:+ ".git") =
  Js.filter isLowerAlnum (Js.asciiLower name).
Proof.
  intros Hne Hname. unfold canonicalRepoName.
  destruct (trim_owner_name owner (name +:+ ".git")) as [owner' ->].
  { by rewrite all_append, Hname. }
  rewrite <- !string_append_assoc. rewrite stripGitSuffix_git.
  rewrite string_append_assoc.
  by rewrite lastNonEmptySegment_after_slash, toLowerCase_repoPart.
Qed.

(** X1. [canonicalRepoName] is idempotent, and its result is made of lower-case
    letters and digits only. *)
Theorem canonicalRepoName_idempotent (s : string) :
  canonicalRepoName (canonicalRepoName s) = canonicalRepoName s /\
  Js.all isLowerAlnum (canonicalRepoName s) = true.
Proof.
  assert (Hall : Js.all isLowerAlnum (canonicalRepoName s) = true) by apply all_filter.
  split; [|done].
  set (o := canonicalRepoName s) in *.
  assert (Hlower : Js.asciiLower o = o)
    by (apply (all_map_id isLowerAlnum); [apply isLowerAlnum_lowerChar|done]).
  rewrite canonicalRepoName_plain.
  - rewrite Hlower. by apply filter_all.
  - eapply all_impl; [|exact Hall]. apply isLowerAlnum_repoPart.
  - rewrite Hlower. destruct (Js.endsWith ".git" o) eqn:E; [|done].
    by apply (endsWith_all isLowerAlnum) in E.
Qed.

(** X2. For a repository name of visible characters of ASCII without a
    slash that does not end in [.git], in any case of the letters, the
    canonical name is the same with an owner before it, with [.git] after
    it, and in upper case. *)
Theorem canonicalRepoName_forms (owner name : string) :
  Js.isEmpty name = false ->
  Js.all isRepoPartChar name = true ->
  Js.endsWith ".git" (Js.asciiLower name) = false ->
  canonicalRepoName (owner +:+ "/" +:+ name +:+ ".git") = canonicalRepoName name /\
  canonicalRepoName (owner +:+ "/" +:+ name) = canonicalRepoName name /\
  canonicalRepoName (Js.toUpperCase name) = canonicalRepoName name.
Proof.
  intros Hne Hname Hgit.
  rewrite canonicalRepoName_owner_git, canonicalRepoName_owner by done.
  rewrite (canonicalRepoName_plain name) by done.
  rewrite toUpperCase_ascii by (eapply all_impl; [|exact Hname]; apply isRepoPartChar_ascii).
  rewrite canonicalRepoName_plain.
  - by rewrite asciiLower_upper.
  - rewrite all_map.
    erewrite all_ext; [exact Hname|]. apply isRepoPartChar_upperChar.
  - by rewrite asciiLower_upper.
Qed.

End RepoName.

Lemma canonicalRepoName_forms_sample :
  @canonicalRepoName Sample.caseTables "Org/Acme-App.git" = "acmeapp" /\
  @canonicalRepoName Sample.caseTables "Org/Acme-App" = "acmeapp" /\
  @canonicalRepoName Sample.caseTables "ACME-APP" = "acmeapp".
Proof.
  exact (@canonicalRepoName_forms Sample.caseTables "Org" "Acme-App" eq_refl eq_refl eq_refl).
Defined.

(** ** The remote of a clone *)

Lemma isGitHubNameChar_repoPart : forall c, isGitHubNameChar c = true -> isRepoPartChar c = true.
Proof. ascii_cases. Qed.

Lemma isGitHubNameChar_visible : forall c, isGitHubNameChar c = true -> isVisible c = true.
Proof. ascii_cases. Qed.

Lemma isGitHubNameChar_not_colon : forall c,
  isGitHubNameChar c = true -> negb (bool_decide (Js.lowerChar c = ":"%char)) = true.
Proof. ascii_cases. Qed.

Lemma endsRepoPart_repoPart c (r : string) :
  isRepoPartChar c = true -> endsRepoPart (String c r) = false.
Proof.
  intros Hc. unfold endsRepoPart.
  rewrite (startsSpace_visible c r) by by apply isRepoPartChar_visible.
  rewrite orb_false_r. cbn [Js.startsWith].
  apply isRepoPartChar_not_slash, negb_true_iff, bool_decide_eq_false in Hc.
  rewrite bool_decide_eq_false_2; [done|congruence].
Qed.

Lemma ownerAndRepo_groups (owner repo : string) :
  Js.isEmpty owner = false -> Js.isEmpty repo = false ->
  Js.all isRepoPartChar owner = true -> Js.all isRepoPartChar repo = true ->
  ownerAndRepo (owner +:+ "/" +:+ repo) = Some (owner, repo).
Proof.
  intros Howner Hrepo Hallo Hallr. unfold ownerAndRepo.
  change ("/" +:+ repo) with (String "/" repo).
  destruct (takeUntil_run isRepoPartChar endsRepoPart owner (String "/" repo)
              endsRepoPart_repoPart Hallo) as [-> ->].
  cbn [Js.takeUntil Js.dropUntil].
  change (endsRepoPart (String "/" repo)) with true. cbn match.
  rewrite string_append_empty_r.
  rewrite bool_decide_eq_true_2 by done. rewrite Howner, Hrepo.
  by rewrite (anywhere_run isRepoPartChar endsRepoPart repo endsRepoPart_repoPart).
Qed.

Lemma matchOwnerAndRepo_step (literal : string) c (s : string) :
  Js.startsWith literal (Js.asciiLower (String c s)) = false ->
  matchOwnerAndRepo literal (String c s) = matchOwnerAndRepo literal s.
Proof. intros H. cbn [matchOwnerAndRepo]. by rewrite H. Qed.

Lemma matchOwnerAndRepo_here (literal rest : string) groups :
  Js.asciiLower literal = literal ->
  ownerAndRepo rest = Some groups ->
  matchOwnerAndRepo literal (literal +:+ rest) = Some groups.
Proof.
  intros Hlower Hgroups.
  assert (Hstart : Js.startsWith literal (Js.asciiLower (literal +:+ rest)) = true).
  { unfold Js.asciiLower in *. rewrite map_append, Hlower. apply startsWith_append_same. }
  destruct (literal +:+ rest) as [|c s] eqn:E;
    cbn [matchOwnerAndRepo]; rewrite Hstart, <- E, drop_length_append, Hgroups; done.
Qed.

(** A text without a colon has no match of the pattern of the [ssh] form. *)
Lemma matchOwnerAndRepo_no_colon (s : string) :
  Js.all (fun c => negb (bool_decide (Js.lowerChar c = ":"%char))) s = true ->
  matchOwnerAndRepo "github.com:" s = None.
Proof.
  assert (Hstart : forall t,
    Js.all (fun c => negb (bool_decide (Js.lowerChar c = ":"%char))) t = true ->
    Js.startsWith "github.com:" (Js.asciiLower t) = false).
  { intros t Ht. destruct (Js.startsWith _ _) eqn:E; [|done].
    apply startsWith_iff in E as [post E].
    assert (Hall : Js.all (fun c => negb (bool_decide (c = ":"%char))) (Js.asciiLower t) = true)
      by (unfold Js.asciiLower; by rewrite all_map).
    rewrite E, all_append in Hall. by apply andb_true_iff in Hall as [? _]. }
  induction s as [|c s IH]; intros Hs.
  - done.
  - rewrite matchOwnerAndRepo_step by by apply Hstart.
    cbn in Hs. apply andb_true_iff in Hs as [_ Hs]. by apply IH.
Qed.

Section Remote.

Context {tables : Js.CaseTables}.
Variables owner repo : string.
Hypothesis owner_not_empty : Js.isEmpty owner = false.
Hypothesis repo_not_empty : Js.isEmpty repo = false.
Hypothesis owner_chars : Js.all isGitHubNameChar owner = true.
Hypothesis repo_chars : Js.all isGitHubNameChar repo = true.

Lemma owner_slash_repo_groups : ownerAndRepo (owner +:+ "/" +:+ repo) = Some (owner, repo).
Proof using owner_not_empty repo_not_empty owner_chars repo_chars.
  apply ownerAndRepo_groups; try done.
  all: eapply all_impl; [apply isGitHubNameChar_repoPart|done].
Qed.

Lemma matchOwnerAndRepo_ssh :
  matchOwnerAndRepo "github.com:" ("git@github.com:" +:+ owner +:+ "/" +:+ repo) =
  Some (owner, repo).
Proof using owner_not_empty repo_not_empty owner_chars repo_chars.
  change ("git@github.com:" +:+ owner +:+ "/" +:+ repo)
    with (String "g" (String "i" (String "t" (String "@"
            ("github.com:" +:+ owner +:+ "/" +:+ repo))))).
  do 4 (rewrite matchOwnerAndRepo_step by reflexivity).
  apply matchOwnerAndRepo_here; [done|apply owner_slash_repo_groups].
Qed.

Lemma matchOwnerAndRepo_https_not_ssh :
  matchOwnerAndRepo "github.com:" ("https://github.com/" +:+ owner +:+ "/" +:+ repo) = None.
Proof using owner_chars repo_chars.
  change ("https://github.com/" +:+ owner +:+ "/" +:+ repo)
    with (String "h" (String "t" (String "t" (String "p" (String "s" (String ":"
            ("//github.com/" +:+ owner +:+ "/" +:+ repo))))))).
  do 6 (rewrite matchOwnerAndRepo_step by reflexivity).
  apply matchOwnerAndRepo_no_colon.
  rewrite !all_append.
  rewrite (all_impl _ _ owner isGitHubNameChar_not_colon owner_chars).
  by rewrite (all_impl _ _ repo isGitHubNameChar_not_colon repo_chars).
Qed.

Lemma matchOwnerAndRepo_https :
  matchOwnerAndRepo "github.com/" ("https://github.com/" +:+ owner +:+ "/" +:+ repo) =
  Some (owner, repo).
Proof using owner_not_empty repo_not_empty owner_chars repo_chars.
  change ("https://github.com/" +:+ owner +:+ "/" +:+ repo)
    with (String "h" (String "t" (String "t" (String "p" (String "s" (String ":"
            (String "/" (String "/" ("github.com/" +:+ owner +:+ "/" +:+ repo))))))))).
  do 8 (rewrite matchOwnerAndRepo_step by reflexivity).
  apply matchOwnerAndRepo_here; [done|apply owner_slash_repo_groups].
Qed.

Lemma remote_visible (scheme : string) :
  Js.all isVisible scheme = true ->
  Js.all isVisible (scheme +:+ owner +:+ "/" +:+ repo) = true.
Proof using owner_chars repo_chars.
  intros Hscheme. rewrite !all_append, Hscheme.
  rewrite (all_impl _ _ owner isGitHubNameChar_visible owner_chars).
  by rewrite (all_impl _ _ repo isGitHubNameChar_visible repo_chars).
Qed.

Lemma remote_git_visible (scheme : string) :
  Js.all isVisible scheme = true ->
  Js.all isVisible ((scheme +:+ owner +:+ "/" +:+ repo) +:+ ".git") = true.
Proof using owner_chars repo_chars.
  intros Hscheme. rewrite all_append. by rewrite remote_visible.
Qed.

Lemma remote_git_assoc (scheme : string) :
  scheme +:+ owner +:+ "/" +:+ repo +:+ ".git" = (scheme +:+ owner +:+ "/" +:+ repo) +:+ ".git".
Proof. by rewrite !string_append_assoc. Qed.

(** X3. For an owner and a repository named as GitHub names them, the remote
    of a clone in the [ssh] form, as [git config] prints it, and in the
    [https] form, with and without [.git], all parse to the owner and the
    repository. *)
Theorem parseGitHubRepoFromRemote_forms :
  parseGitHubRepoFromRemote ("git@github.com:" +:+ owner +:+ "/" +:+ repo +:+ ".git" +:+ newline)
    = Some (owner, repo) /\
  parseGitHubRepoFromRemote ("https://github.com/" +:+ owner +:+ "/" +:+ repo +:+ ".git")
    = Some (owner, repo) /\
  (Js.endsWith ".git" (Js.toLowerCase repo) = false ->
   parseGitHubRepoFromRemote ("https://github.com/" +:+ owner +:+ "/" +:+ repo)
     = Some (owner, repo)).
Proof using owner_not_empty repo_not_empty owner_chars repo_chars.
  unfold parseGitHubRepoFromRemote. repeat split.
  - assert (Htrim : Js.trim ("git@github.com:" +:+ owner +:+ "/" +:+ repo +:+ ".git" +:+ newline)
                    = ("git@github.com:" +:+ owner +:+ "/" +:+ repo) +:+ ".git").
    { replace ("git@github.com:" +:+ owner +:+ "/" +:+ repo +:+ ".git" +:+ newline)
        with ((("git@github.com:" +:+ owner +:+ "/" +:+ repo) +:+ ".git") +:+ newline)
        by (by rewrite !string_append_assoc).
      apply trim_visible_blank; [by apply remote_git_visible|reflexivity]. }
    rewrite Htrim, stripGitSuffix_git. by rewrite matchOwnerAndRepo_ssh.
  - rewrite remote_git_assoc, trim_visible by by apply remote_git_visible.
    rewrite stripGitSuffix_git.
    by rewrite matchOwnerAndRepo_https_not_ssh, matchOwnerAndRepo_https.
  - intros Hgit. rewrite trim_visible by by apply remote_visible.
    rewrite toLowerCase_repoPart in Hgit
      by (eapply all_impl; [apply isGitHubNameChar_repoPart|done]).
    rewrite stripGitSuffix_none.
    + by rewrite matchOwnerAndRepo_https_not_ssh, matchOwnerAndRepo_https.
    + rewrite <- string_append_assoc. by rewrite endsWith_git_after_slash.
Qed.

End Remote.

Lemma parseGitHubRepoFromRemote_forms_sample :
  parseGitHubRepoFromRemote ("git@github.com:SeyalTeam/vserver.git" +:+ newline)
    = Some ("SeyalTeam", "vserver") /\
  parseGitHubRepoFromRemote "https://github.com/SeyalTeam/vserver.git"
    = Some ("SeyalTeam", "vserver") /\
  parseGitHubRepoFromRemote "https://github.com/SeyalTeam/vserver"
    = Some ("SeyalTeam", "vserver").
Proof.
  destruct (@parseGitHubRepoFromRemote_forms Sample.caseTables "SeyalTeam" "vserver"
              eq_refl eq_refl eq_refl eq_refl)
    as (Hssh & Hgit & Hplain).
  exact (conj Hssh (conj Hgit (Hplain eq_refl))).
Defined.

(** ** Host names *)

Lemma isHostnameChar_lowerChar : forall c, isHostnameChar (Js.lowerChar c) = isHostnameChar c.
Proof. intros c. destruct c as [[] [] [] [] [] [] [] []]; reflexivity. Qed.

Lemma isLineChar_lowerChar : forall c, isLineChar (Js.lowerChar c) = isLineChar c.
Proof. intros c. destruct c as [[] [] [] [] [] [] [] []]; reflexivity. Qed.

Lemma isLineChar_ascii : forall c, isLineChar c = true -> Js.isAscii c = true.
Proof. ascii_cases. Qed.

Lemma startsTerminator_lineChar c (r : string) :
  isLineChar c = true -> Js.startsTerminator (String c r) = false.
Proof.
  revert c. intros c; destruct c as [[] [] [] [] [] [] [] []]; vm_compute; congruence.
Qed.

Lemma isHostnameChar_visible : forall c, isHostnameChar c = true -> isVisible c = true.
Proof. ascii_cases. Qed.

Lemma isHostnameChar_not_slash : forall c,
  isHostnameChar c = true -> negb (bool_decide (c = "/"%char)) = true.
Proof. ascii_cases. Qed.

Lemma isHostnameChar_not_colon : forall c,
  isHostnameChar c = true -> negb (bool_decide (c = ":"%char)) = true.
Proof. ascii_cases. Qed.

Lemma isDigit_hostname_or_colon : forall c, Js.isDigit c = true -> isHostnameChar c = true.
Proof. ascii_cases. Qed.

Lemma isDigit_lowerChar : forall c, Js.isDigit c = true -> Js.lowerChar c = c.
Proof. ascii_cases. Qed.

Lemma stripPath_append (a b : string) :
  Js.all (fun c => negb (bool_decide (c = "/"%char))) a = true ->
  stripPath (a +:+ b) = a +:+ stripPath b.
Proof.
  intros Ha. induction a as [|x a IH]; [by rewrite !string_append_empty_l|].
  cbn in Ha. apply andb_true_iff in Ha as [Hx Ha]. apply negb_true_iff in Hx.
  rewrite !string_append_cons. cbn [stripPath]. by rewrite Hx, IH.
Qed.

Lemma stripPath_slash (p : string) :
  Js.all isLineChar p = true -> stripPath (String "/" p) = "".
Proof.
  intros Hp. cbn [stripPath].
  rewrite bool_decide_eq_true_2 by done.
  by rewrite (anywhere_run isLineChar Js.startsTerminator p startsTerminator_lineChar).
Qed.

Lemma stripPort_append (a b : string) :
  Js.all (fun c => negb (bool_decide (c = ":"%char))) a = true ->
  stripPort (a +:+ b) = a +:+ stripPort b.
Proof.
  intros Ha. induction a as [|x a IH]; [by rewrite !string_append_empty_l|].
  cbn in Ha. apply andb_true_iff in Ha as [Hx Ha]. apply negb_true_iff in Hx.
  rewrite !string_append_cons. cbn [stripPort]. by rewrite Hx, IH.
Qed.

Lemma stripPort_port (digits : string) :
  Js.isEmpty digits = false -> Js.all Js.isDigit digits = true ->
  stripPort (String ":" digits) = "".
Proof. intros Hne Hd. cbn [stripPort]. by rewrite bool_decide_eq_true_2, Hne, Hd. Qed.

Section HostText.

Variables host portPart pathPart : string.
Hypothesis host_chars : Js.all isHostnameChar host = true.
Hypothesis port_digits :
  portPart = "" \/
  exists digits, portPart = String ":" digits /\
                 Js.isEmpty digits = false /\ Js.all Js.isDigit digits = true.
Hypothesis path_line :
  pathPart = "" \/
  exists path, pathPart = String "/" path /\ Js.all isLineChar path = true.

Lemma portPart_visible : Js.all isVisible portPart = true.
Proof using port_digits.
  destruct port_digits as [->|(digits & -> & _ & Hd)]; [done|].
  cbn [Js.all]. apply andb_true_iff. split; [done|]. eapply all_impl; [|exact Hd].
  intros c Hc. by apply isHostnameChar_visible, isDigit_hostname_or_colon.
Qed.

Lemma portPart_lower : Js.asciiLower portPart = portPart.
Proof using port_digits.
  destruct port_digits as [->|(digits & -> & _ & Hd)]; [done|].
  unfold Js.asciiLower. cbn [Js.map]. f_equal.
  apply (all_map_id Js.isDigit); [apply isDigit_lowerChar|exact Hd].
Qed.

Lemma portPart_not_slash : Js.all (fun c => negb (bool_decide (c = "/"%char))) portPart = true.
Proof using port_digits.
  destruct port_digits as [->|(digits & -> & _ & Hd)]; [done|].
  cbn. eapply all_impl; [|exact Hd].
  intros c Hc. by apply isHostnameChar_not_slash, isDigit_hostname_or_colon.
Qed.

Lemma stripPort_portPart : stripPort portPart = "".
Proof using port_digits.
  destruct port_digits as [->|(digits & -> & Hne & Hd)]; [done|]. by apply stripPort_port.
Qed.

(** What trimming leaves of the path. *)
Lemma trim_host_text (scheme : string) :
  Js.all isVisible scheme = true ->
  exists pathPart',
    Js.trim (scheme +:+ host +:+ portPart +:+ pathPart) =
      scheme +:+ host +:+ portPart +:+ pathPart' /\
    (pathPart' = "" \/
     exists path, pathPart' = String "/" path /\ Js.all isLineChar path = true).
Proof using host_chars port_digits path_line.
  intros Hscheme.
  set (front := scheme +:+ host +:+ portPart).
  assert (Hfront : Js.all isVisible front = true).
  { unfold front. rewrite !all_append, Hscheme, portPart_visible.
    by rewrite (all_impl _ _ host isHostnameChar_visible host_chars). }
  assert (Hassoc : forall tail, scheme +:+ host +:+ portPart +:+ tail = front +:+ tail).
  { intros tail. unfold front. by rewrite !string_append_assoc. }
  rewrite Hassoc.
  destruct path_line as [->|(path & -> & Hpath)].
  - exists "". rewrite Hassoc, !string_append_empty_r.
    rewrite trim_visible by done. by split; [|left].
  - exists (String "/" (Js.trimEnd path)). split.
    + rewrite Hassoc. by apply trim_visible_append.
    + right. eexists. split; [done|]. by apply all_trimEnd.
Qed.

(** No scheme is read into a host that a port or a path follows. *)
Lemma host_text_no_scheme (scheme tail : string) :
  Js.takeWhile isHostnameChar scheme <> scheme ->
  (forall post, scheme = Js.takeWhile isHostnameChar scheme +:+ post ->
                Js.startsWith post (portPart +:+ tail) = false) ->
  (tail = "" \/ exists rest, tail = String "/" rest) ->
  Js.startsWith scheme (host +:+ portPart +:+ tail) = false.
Proof using host_chars port_digits.
  intros Hstop Hpost Htail.
  destruct (Js.startsWith scheme (host +:+ portPart +:+ tail)) eqn:E; [|done].
  exfalso. apply startsWith_iff in E as [post E].
  assert (Hrun : Js.takeWhile isHostnameChar (host +:+ portPart +:+ tail) = host).
  { destruct port_digits as [->|(digits & -> & _ & _)].
    - rewrite string_append_empty_l.
      destruct Htail as [->|[rest ->]].
      + rewrite string_append_empty_r. by apply takeWhile_all.
      + by apply takeWhile_stop.
    - rewrite string_append_cons. by apply takeWhile_stop. }
  set (run := Js.takeWhile isHostnameChar scheme) in *.
  pose proof (takeWhile_dropWhile isHostnameChar scheme) as Hsplit. fold run in Hsplit.
  destruct (Js.dropWhile isHostnameChar scheme) as [|c after] eqn:Hafter.
  { rewrite string_append_empty_r in Hsplit. by apply Hstop. }
  assert (Hc : isHostnameChar c = false) by (eapply dropWhile_head; exact Hafter).
  assert (Hhost : host = run).
  { rewrite <- Hrun, E, <- Hsplit, string_append_assoc, string_append_cons.
    apply takeWhile_stop; [apply all_takeWhile|done]. }
  specialize (Hpost (String c after) (eq_sym Hsplit)).
  rewrite Hhost, <- Hsplit, string_append_assoc in E.
  apply (inj (String.app run)) in E.
  assert (Js.startsWith (String c after) (portPart +:+ tail) = true)
    by (apply startsWith_iff; by exists post).
  congruence.
Qed.

Lemma stripScheme_host_text (scheme tail : string) :
  In scheme [""; "http://"; "https://"] ->
  (tail = "" \/ exists rest, tail = String "/" rest) ->
  stripScheme (scheme +:+ host +:+ portPart +:+ tail) = host +:+ portPart +:+ tail.
Proof using host_chars port_digits.
  intros Hscheme Htail.
  assert (Hcolon : forall post, Js.startsWith (String ":" (String "/" post)) (portPart +:+ tail) = false).
  { intros post. destruct port_digits as [->|(digits & -> & Hne & Hd)].
    - rewrite string_append_empty_l. by destruct Htail as [->|[rest ->]].
    - destruct digits as [|d digits]; [done|]. rewrite !string_append_cons. cbn [Js.startsWith].
      cbn in Hd. apply andb_true_iff in Hd as [Hd _].
      rewrite (bool_decide_eq_false_2 ("/"%char = d)); [by rewrite andb_false_r|].
      intros <-. done. }
  destruct Hscheme as [<-|[<-|[<-|[]]]].
  - rewrite string_append_empty_l. unfold stripScheme.
    assert (Hhttp : Js.startsWith "http://" (host +:+ portPart +:+ tail) = false).
    { apply host_text_no_scheme; [done| |done]. intros post Hpost.
      change ("http://" = String "h" (String "t" (String "t" (String "p" post)))) in Hpost.
      injection Hpost as <-. apply Hcolon. }
    assert (Hhttps : Js.startsWith "https://" (host +:+ portPart +:+ tail) = false).
    { apply host_text_no_scheme; [done| |done]. intros post Hpost.
      change ("https://" = String "h" (String "t" (String "t" (String "p" (String "s" post)))))
        in Hpost.
      injection Hpost as <-. apply Hcolon. }
    by rewrite Hhttp, Hhttps.
  - reflexivity.
  - reflexivity.
Qed.

End HostText.

Section Address.

Context {tables : Js.CaseTables}.

(** X4. The host of an address is its host name in lower case, whatever the
    scheme, the port and the path: [normalizeHost] of an optional
    [http://] or [https://], a host name of visible characters of ASCII
    without a slash or a colon, an optional colon and digits, and an
    optional slash and path of characters of ASCII without a line
    terminator, is the host name in lower case. *)
Theorem normalizeHost_of_address (scheme host portPart pathPart : string) :
  In scheme [""; "http://"; "https://"] ->
  Js.all isHostnameChar host = true ->
  (portPart = "" \/
   exists digits, portPart = String ":" digits /\
                  Js.isEmpty digits = false /\ Js.all Js.isDigit digits = true) ->
  (pathPart = "" \/
   exists path, pathPart = String "/" path /\ Js.all isLineChar path = true) ->
  normalizeHost (scheme +:+ host +:+ portPart +:+ pathPart) = Js.toLowerCase host.
Proof.
  intros Hscheme Hhost Hport Hpath. unfold normalizeHost.
  assert (Hvisible : Js.all isVisible scheme = true)
    by by destruct Hscheme as [<-|[<-|[<-|[]]]].
  destruct (trim_host_text host portPart pathPart Hhost Hport Hpath scheme Hvisible)
    as (pathPart' & -> & Hpath').
  assert (Hhost_ascii : Js.all Js.isAscii host = true).
  { eapply all_impl; [|exact Hhost]. intros c Hc. by apply isVisible_ascii, isHostnameChar_visible. }
  assert (Hascii : Js.all Js.isAscii (scheme +:+ host +:+ portPart +:+ pathPart') = true).
  { rewrite !all_append, Hhost_ascii.
    rewrite (all_impl _ _ _ isVisible_ascii Hvisible).
    rewrite (all_impl _ _ _ isVisible_ascii (portPart_visible portPart Hport)).
    destruct Hpath' as [->|(path & -> & Hline)]; [done|].
    cbn [Js.all]. by rewrite (all_impl _ _ _ isLineChar_ascii Hline). }
  rewrite !toLowerCase_ascii by done.
  assert (Hlower : Js.all isHostnameChar (Js.asciiLower host) = true).
  { unfold Js.asciiLower. rewrite all_map.
    erewrite all_ext; [exact Hhost|]. apply isHostnameChar_lowerChar. }
  assert (Htail : Js.asciiLower pathPart' = "" \/
                  exists path, Js.asciiLower pathPart' = String "/" path /\
                               Js.all isLineChar path = true).
  { destruct Hpath' as [->|(path & -> & Hline)]; [by left|right].
    exists (Js.asciiLower path). split; [done|].
    unfold Js.asciiLower. rewrite all_map.
    erewrite all_ext; [exact Hline|]. apply isLineChar_lowerChar. }
  assert (Hwhole : Js.asciiLower (scheme +:+ host +:+ portPart +:+ pathPart') =
                   scheme +:+ Js.asciiLower host +:+ portPart +:+ Js.asciiLower pathPart').
  { unfold Js.asciiLower. rewrite !map_append. fold Js.asciiLower.
    rewrite (portPart_lower portPart Hport).
    by destruct Hscheme as [<-|[<-|[<-|[]]]]. }
  rewrite Hwhole.
  rewrite (stripScheme_host_text (Js.asciiLower host) portPart Hlower Hport).
  2: done.
  2:{ destruct Htail as [->|(path & -> & _)]; [by left|right; by eexists]. }
  rewrite <- string_append_assoc, stripPath_append.
  2:{ rewrite all_append, (portPart_not_slash portPart Hport).
      by rewrite (all_impl _ _ _ isHostnameChar_not_slash Hlower). }
  assert (Hstrip : stripPath (Js.asciiLower pathPart') = "").
  { destruct Htail as [->|(path & -> & Hline)]; [done|]. by apply stripPath_slash. }
  rewrite Hstrip, string_append_empty_r.
  rewrite stripPort_append by (by apply (all_impl _ _ _ isHostnameChar_not_colon Hlower)).
  by rewrite (stripPort_portPart portPart Hport), string_append_empty_r.
Qed.

End Address.

Lemma normalizeHost_of_address_sample :
  @normalizeHost Sample.caseTables "https://Acme.Example.com:8443/orders?id=7" = "acme.example.com" /\
  @normalizeHost Sample.caseTables "Acme.Example.com:8443" = "acme.example.com".
Proof.
  split.
  - apply (@normalizeHost_of_address Sample.caseTables
             "https://" "Acme.Example.com" ":8443" "/orders?id=7").
    + right. right. by left.
    + reflexivity.
    + right. exists "8443". by repeat split.
    + right. exists "orders?id=7". by repeat split.
  - apply (@normalizeHost_of_address Sample.caseTables "" "Acme.Example.com" ":8443" "").
    + by left.
    + reflexivity.
    + right. exists "8443". by repeat split.
    + by left.
Defined.

(** ** The branch of a ref *)

Lemma trim_refs_heads (b : string) :
  Js.trim ("refs/heads/" +:+ b) = "refs/heads/" +:+ Js.trimEnd b.
Proof. exact (trim_visible_append "refs/heads" "/" b eq_refl eq_refl). Qed.

Lemma branchFromRef_string (raw : string) :
  branchFromRef (Some (JString raw)) =
  if negb (Js.startsWith "refs/heads/" (Js.trim raw)) then Normal ""
  else Normal (Js.drop (String.length "refs/heads/") (Js.trim raw)).
Proof. reflexivity. Qed.

(** X5. [branchFromRef] of [refs/heads/] and a branch is the branch, less the
    white space at its end; and whenever the branch it returns is not
    empty, the ref is a string that, trimmed, is [refs/heads/] and that
    branch. *)
Theorem branchFromRef_heads :
  (forall b : string,
     branchFromRef (Some (JString ("refs/heads/" +:+ b))) = Normal (Js.trimEnd b)) /\
  (forall (ref : option JValue) (branchName : string),
     branchFromRef ref = Normal branchName ->
     Js.isEmpty branchName = false ->
     exists raw, ref = Some (JString raw) /\ Js.trim raw = "refs/heads/" +:+ branchName).
Proof.
  split.
  - intros b. rewrite branchFromRef_string.
    rewrite trim_refs_heads, startsWith_append_same. cbn [negb].
    by rewrite drop_length_append.
  - intros ref branchName H Hne.
    destruct ref as [[| | |raw| |]|]; try (cbn in H; simplify_eq; done).
    exists raw. split; [done|]. rewrite branchFromRef_string in H.
    destruct (Js.startsWith "refs/heads/" (Js.trim raw)) eqn:E; cbn [negb] in H.
    + apply startsWith_iff in E as [post E]. rewrite E in H |- *.
      rewrite drop_length_append in H. by simplify_eq.
    + by simplify_eq.
Qed.

Lemma branchFromRef_heads_sample :
  branchFromRef (Some (JString "refs/heads/feature/x")) = Normal "feature/x" /\
  Js.trim "refs/heads/feature/x" = "refs/heads/feature/x".
Proof.
  split; [exact (proj1 branchFromRef_heads "feature/x")|].
  destruct (proj2 branchFromRef_heads (Some (JString "refs/heads/feature/x")) "feature/x"
              eq_refl eq_refl) as (raw & Hraw & Htrim).
  by simplify_eq.
Defined.

(** The white space at the end of a ref is that of JavaScript: a no-break
    space after the branch goes as well. *)
Example branchFromRef_no_break_space :
  branchFromRef (Some (JString ("refs/heads/main" +:+ Js.ofBytes [194; 160]))) = Normal "main".
Proof. vm_compute. reflexivity. Qed.

(** ** The request line *)


Lemma isLetter_visible : forall c, isLetter c = true -> isVisible c = true.
Proof. ascii_cases. Qed.


Lemma isSpace_not_letter : forall c, Js.isSpace c = true -> isLetter c = false.
Proof. ascii_cases. Qed.

Section RequestLine.

Context {tables : Js.CaseTables}.


(** What trimming leaves of a request line. *)
Lemma trim_request_line (method path tail : string) :
  Js.isEmpty method = false -> Js.all isLetter method = true ->
  Js.isEmpty path = false -> Js.all isVisible path = true ->
  Js.trim (method +:+ " " +:+ path +:+ tail) = method +:+ " " +:+ path +:+ Js.trimEnd tail.
Proof.
  intros Hmethod Hletters Hpath Hvisible.
  destruct method as [|m method']; [done|]. destruct path as [|p path']; [done|].
  cbn [Js.all] in Hletters, Hvisible.
  apply andb_true_iff in Hletters as [Hm _]. apply andb_true_iff in Hvisible as [Hp Hpath'].
  assert (Hshape : forall t, String m method' +:+ " " +:+ String p path' +:+ t =
                             String m ((method' +:+ " ") +:+ String p (path' +:+ t))).
  { intros t. rewrite string_append_cons. f_equal. rewrite string_append_assoc.
    by rewrite ?string_append_cons, ?string_append_empty_l. }
  rewrite !Hshape, trim_visible_start by by apply isLetter_visible.
  by rewrite trimEnd_append_visible, trimEnd_visible_append.
Qed.

(** X7. A method, a space, a path of visible characters of ASCII and
    whatever follows after more white space, as in the request of an
    access log: [parseRequestLine] returns the method in upper case and
    the path. *)
Theorem parseRequestLine_request (method path tail : string) :
  Js.isEmpty method = false -> Js.all isLetter method = true ->
  Js.isEmpty path = false -> Js.all isVisible path = true ->
  (tail = "" \/ exists c rest, tail = String c rest /\ Js.isSpace c = true) ->
  parseRequestLine (method +:+ " " +:+ path +:+ tail) = (Js.toUpperCase method, path).
Proof.
  intros Hmethod Hletters Hpath Hvisible Htail.
  unfold parseRequestLine. rewrite trim_request_line by done.
  assert (Htail' : Js.takeUntil Js.startsSpace (Js.trimEnd tail) = "").
  { destruct Htail as [->|(c & rest & -> & Hc)]; [done|].
    cbn [Js.trimEnd]. destruct (Js.isBlank (String c rest)); [done|].
    cbn [Js.takeUntil]. by rewrite startsSpace_space. }
  set (tail' := Js.trimEnd tail) in *.
  change (" " +:+ path +:+ tail') with (String " " (path +:+ tail')).
  rewrite takeWhile_stop, dropWhile_stop by done.
  rewrite Hmethod, (startsSpace_space " ") by done.
  rewrite (trimStart_space " ") by done.
  assert (Hafter : Js.trimStart (path +:+ tail') = path +:+ tail').
  { destruct path as [|p path']; [done|]. rewrite string_append_cons.
    cbn [Js.all] in Hvisible. apply andb_true_iff in Hvisible as [Hp _].
    by apply trimStart_visible. }
  rewrite Hafter.
  destruct (takeUntil_visible Js.startsSpace path tail' startsSpace_visible Hvisible)
    as [-> _].
  rewrite Htail', string_append_empty_r. by rewrite Hpath.
Qed.

End RequestLine.

Lemma parseRequestLine_request_sample :
  @parseRequestLine Sample.caseTables "get /orders?id=7 HTTP/1.1" = ("GET", "/orders?id=7").
Proof.
  apply (@parseRequestLine_request Sample.caseTables "get" "/orders?id=7" " HTTP/1.1");
    try reflexivity.
  right. by exists " "%char, "HTTP/1.1".
Defined.

(** ** The paths of the control plane *)

Lemma split_prefix sep (a b : string) :
  Js.all (fun c => negb (bool_decide (c = sep))) a = true ->
  exists w ws, Js.split sep b = w :: ws /\ Js.split sep (a +:+ b) = (a +:+ w) :: ws.
Proof.
  intros Ha. induction a as [|x a IH].
  - destruct (Js.split sep b) as [|w ws] eqn:E; [by apply split_not_nil in E|].
    exists w, ws. by rewrite !string_append_empty_l.
  - cbn in Ha. apply andb_true_iff in Ha as [Hx Ha]. apply negb_true_iff in Hx.
    destruct (IH Ha) as (w & ws & Hb & Hab). exists w, ws. split; [done|].
    rewrite !string_append_cons. cbn [Js.split]. by rewrite Hx, Hab.
Qed.

Section Routes.

Context {tables : Js.CaseTables}.

(** The part of a path the routes are read from, for a path that starts
    with the text [front] and goes on, if it does, with a slash or a
    question mark. *)
Lemma normalized_path_front (front rest : string) :
  Js.isEmpty front = false ->
  Js.all isVisible front = true ->
  Js.asciiLower front = front ->
  Js.all (fun c => negb (bool_decide (c = "?"%char))) front = true ->
  (rest = "" \/ exists c tail, rest = String c tail /\ (c = "/"%char \/ c = "?"%char)) ->
  exists after,
    head (Js.split "?" (Js.toLowerCase (Js.trim (front +:+ rest)))) = Some (front +:+ after) /\
    (after = "" \/ exists tail, after = String "/" tail).
Proof.
  intros Hne Hvisible Hlower Hplain Hrest.
  assert (Hascii : Js.all Js.isAscii front = true)
    by (eapply all_impl; [apply isVisible_ascii|done]).
  destruct Hrest as [->|(c & tail & -> & Hc)].
  - exists "". rewrite !string_append_empty_r, trim_visible by done.
    rewrite toLowerCase_ascii, Hlower by done. split; [|by left].
    by rewrite split_none.
  - rewrite trim_visible_append by (by destruct Hc as [-> | ->]).
    assert (Hstart : exists lowered,
              Js.toLowerCase (front +:+ String c (Js.trimEnd tail)) =
              front +:+ String c lowered).
    { destruct (toLowerCase_ascii_start (front +:+ String c "") (Js.trimEnd tail)) as [lowered Hl].
      { rewrite all_append, Hascii. by destruct Hc as [-> | ->]. }
      exists lowered. rewrite string_append_assoc in Hl.
      rewrite string_append_cons, string_append_empty_l in Hl. rewrite Hl.
      unfold Js.asciiLower in *. rewrite map_append, Hlower, string_append_assoc.
      by destruct Hc as [-> | ->]. }
    destruct Hstart as [lowered ->].
    destruct Hc as [-> | ->].
    + destruct (split_prefix "?" front (String "/" lowered) Hplain) as (w & ws & Hw & ->).
      destruct (split_cons_other "?" "/" lowered) as (w' & ws' & _ & Hw'); [done|].
      rewrite Hw' in Hw. injection Hw as <- <-.
      exists (String "/" w'). split; [done|]. right. by eexists.
    + exists "". rewrite string_append_empty_r. split; [|by left].
      by rewrite split_head.
Qed.

Lemma controlPlaneRoot_route (prefix root after : string) :
  In prefix ["/v1/"; "/api/v1/"] ->
  Js.isEmpty root = false ->
  Js.all (fun c => negb (bool_decide (c = "/"%char))) root = true ->
  (after = "" \/ exists tail, after = String "/" tail) ->
  controlPlaneRoot ((prefix +:+ root) +:+ after) = Some root.
Proof.
  intros Hprefix Hne Hroot Hafter.
  assert (Hrun : Js.takeWhile (fun c => negb (bool_decide (c = "/"%char))) (root +:+ after)
                 = root).
  { destruct Hafter as [->|[tail ->]].
    - rewrite string_append_empty_r. by apply takeWhile_all.
    - apply takeWhile_stop; [done|]. by rewrite bool_decide_eq_true_2. }
  rewrite string_append_assoc.
  destruct Hprefix as [<-|[<-|[]]]; unfold controlPlaneRoot.
  - change (Js.startsWith "/api/v1/" ("/v1/" +:+ root +:+ after)) with false.
    change (Js.startsWith "/v1/" ("/v1/" +:+ root +:+ after)) with true.
    cbn match. change (Js.drop 4 ("/v1/" +:+ root +:+ after)) with (root +:+ after).
    by rewrite Hrun, Hne.
  - change (Js.startsWith "/api/v1/" ("/api/v1/" +:+ root +:+ after)) with true.
    cbn match. change (Js.drop 8 ("/api/v1/" +:+ root +:+ after)) with (root +:+ after).
    by rewrite Hrun, Hne.
Qed.

(** X8. A path under one of the five roots of the API, bare or under [/api],
    with or without a sub-path or a query, is a path of the control
    plane. *)
Theorem isControlPlaneRequestPath_routes (prefix root rest : string) :
  In prefix ["/v1/"; "/api/v1/"] ->
  In root ["projects"; "logs"; "webhooks"; "deployments"; "oauth"] ->
  (rest = "" \/ exists c tail, rest = String c tail /\ (c = "/"%char \/ c = "?"%char)) ->
  isControlPlaneRequestPath (prefix +:+ root +:+ rest) = true.
Proof.
  intros Hprefix Hroot Hrest.
  assert (Hfront : Js.isEmpty (prefix +:+ root) = false /\
                   Js.all isVisible (prefix +:+ root) = true /\
                   Js.asciiLower (prefix +:+ root) = prefix +:+ root /\
                   Js.all (fun c => negb (bool_decide (c = "?"%char))) (prefix +:+ root) = true /\
                   Js.isEmpty root = false /\
                   Js.all (fun c => negb (bool_decide (c = "/"%char))) root = true).
  { destruct Hprefix as [<-|[<-|[]]];
      destruct Hroot as [<-|[<-|[<-|[<-|[<-|[]]]]]]; by repeat split. }
  destruct Hfront as (Hne & Hnospace & Hlower & Hplain & Hrootne & Hrootchars).
  unfold isControlPlaneRequestPath. cbv zeta. rewrite <- string_append_assoc.
  destruct (normalized_path_front (prefix +:+ root) rest Hne Hnospace Hlower Hplain Hrest)
    as (after & -> & Hafter).
  cbn [default from_option]. unfold id. rewrite isEmpty_append, Hne. cbn [andb].
  rewrite (controlPlaneRoot_route prefix root after) by done.
  destruct Hroot as [<-|[<-|[<-|[<-|[<-|[]]]]]]; reflexivity.
Qed.

End Routes.

Lemma isControlPlaneRequestPath_routes_sample :
  @isControlPlaneRequestPath Sample.caseTables
    "/v1/deployments/latest/screenshot?project=acme-app&refresh=1" = true.
Proof.
  apply (@isControlPlaneRequestPath_routes Sample.caseTables "/v1/" "deployments"
           "/latest/screenshot?project=acme-app&refresh=1").
  - by left.
  - right. right. right. by left.
  - right. exists "/"%char, "latest/screenshot?project=acme-app&refresh=1". split; [done|by left].
Defined.

(** ** The configured projects *)

Section Slugs.

Context {tables : Js.CaseTables}.

Lemma normalizeProject_normal (s : string) : normalizeProject (normalizeProject s) = normalizeProject s.
Proof.
  apply normalizeProject_fixed.
  - unfold normalizeProject, stripEdgeDashes.
    apply all_dropWhileEnd, all_dropWhile, replaceNonAlnumRuns_slugChars.
  - apply stripEdgeDashes_head.
  - apply dropWhileEnd_dash_last.
  - unfold normalizeProject, stripEdgeDashes.
    match goal with |- ?x = false => destruct x eqn:E end; [|done].
    apply includes_dropWhileEnd, includes_dropWhile in E.
    by rewrite replaceNonAlnumRuns_no_double_dash in E.
Qed.

Lemma normalizeProject_slugChars (s : string) : Js.all isSlugChar (normalizeProject s) = true.
Proof.
  unfold normalizeProject, stripEdgeDashes.
  apply all_dropWhileEnd, all_dropWhile, replaceNonAlnumRuns_slugChars.
Qed.

End Slugs.

Lemma asNonEmptyString_trimmed (value : option JValue) :
  Js.trim (asNonEmptyString value) = asNonEmptyString value.
Proof. unfold asNonEmptyString. destruct (asString value); [apply trim_idem|done]. Qed.

Lemma orElse_not_empty (a b : string) : Js.isEmpty b = false -> Js.isEmpty (Js.orElse a b) = false.
Proof. intros Hb. unfold Js.orElse. by destruct (Js.isEmpty a) eqn:E. Qed.

Lemma In_dedupe_inv (x : string) (xs : list string) : In x (dedupe xs) -> In x xs.
Proof.
  induction xs as [|y xs IH]; [done|]. cbn [dedupe].
  intros [->|Hin]; [by left|]. right. apply IH. by apply filter_In in Hin as [? _].
Qed.

Lemma NoDup_dedupe (xs : list string) : List.NoDup (dedupe xs).
Proof.
  induction xs as [|y xs IH]; cbn [dedupe]; [constructor|].
  constructor; [|by apply List.NoDup_filter].
  intros [_ Hy]%filter_In. by rewrite bool_decide_eq_true_2 in Hy.
Qed.

Lemma asDomainList_not_empty {tables : Js.CaseTables} (value : option JValue) (host : string) :
  In host (asDomainList value) -> Js.isEmpty host = false.
Proof.
  unfold asDomainList. intros [_ H]%filter_In. by apply negb_true_iff.
Qed.

Lemma not_blank_option (x : string) : (if Js.isEmpty x then None else Some x) <> Some "".
Proof. destruct x; [done|]. cbn. by intros [=]. Qed.

Section Projects.

Context {rt : Runtime}.

(** What an entry of the configuration that is kept looks like. *)
Lemma parseAutoDeployProject_fields (defaultRemoteHost : string) (entry : JValue)
    (project : AutoDeployProjectConfig) :
  parseAutoDeployProject defaultRemoteHost entry = Some project ->
  (Js.isEmpty (projectName project) = false /\ Js.trim (projectName project) = projectName project) /\
  (Js.isEmpty (repository project) = false /\ Js.trim (repository project) = repository project) /\
  (Js.isEmpty (repoPath project) = false /\ Js.trim (repoPath project) = repoPath project) /\
  (Js.isEmpty (deployCommand project) = false /\
   Js.trim (deployCommand project) = deployCommand project) /\
  Js.isEmpty (branch project) = false /\
  Js.isEmpty (environment project) = false /\
  projectSlug project = normalizeProject (projectName project) /\
  (repositoryCanonical project = canonicalRepoName (repository project) /\
   Js.isEmpty (repositoryCanonical project) = false) /\
  remoteHost project <> Some "" /\
  (List.NoDup (domains project) /\
   Forall (fun host => Js.isEmpty host = false) (domains project)).
Proof.
  unfold parseAutoDeployProject. intros H.
  destruct entry; try done.
  all: match type of H with
       | (if ?c then _ else _) = _ => destruct c eqn:Hmissing; [done|]
       end;
    match type of H with
    | (if ?c then _ else _) = _ => destruct c eqn:Hcanonical; [done|]
    end;
    apply orb_false_iff in Hmissing as [Hmissing Hcommand];
    apply orb_false_iff in Hmissing as [Hmissing Hpath];
    apply orb_false_iff in Hmissing as [Hname Hrepository];
    injection H as <-; cbn;
    repeat split; try done; try apply asNonEmptyString_trimmed;
      try (by apply orElse_not_empty).
  all: try apply not_blank_option.
  all: try apply NoDup_dedupe.
  all: apply Forall_forall; intros host Hin%list_elem_of_In%In_dedupe_inv.
  all: repeat (apply in_app_or in Hin as [Hin|Hin]); by eapply asDomainList_not_empty.
Qed.

(** X9. Every project of the configuration has a name, a repository, a path
    and a deploy command that are trimmed and not empty, a branch and an
    environment that are not empty, the slug of its name, the canonical
    name of its repository, which is not empty, a remote host that is
    absent or not empty, and domains that are distinct and not empty. *)
Theorem parseAutoDeployProjects_wellformed (rawProjects : option string)
    (defaultRemoteHost : string) :
  Forall (fun project =>
    (Js.isEmpty (projectName project) = false /\
     Js.trim (projectName project) = projectName project) /\
    (Js.isEmpty (repository project) = false /\
     Js.trim (repository project) = repository project) /\
    (Js.isEmpty (repoPath project) = false /\ Js.trim (repoPath project) = repoPath project) /\
    (Js.isEmpty (deployCommand project) = false /\
     Js.trim (deployCommand project) = deployCommand project) /\
    Js.isEmpty (branch project) = false /\
    Js.isEmpty (environment project) = false /\
    projectSlug project = normalizeProject (projectName project) /\
    (repositoryCanonical project = canonicalRepoName (repository project) /\
     Js.isEmpty (repositoryCanonical project) = false) /\
    remoteHost project <> Some "" /\
    (List.NoDup (domains project) /\
     Forall (fun host => Js.isEmpty host = false) (domains project)))
    (parseAutoDeployProjects rawProjects defaultRemoteHost).
Proof.
  unfold parseAutoDeployProjects.
  destruct (Js.isEmpty _); [constructor|].
  destruct (JSON_parse _) as [[| | | |parsed|]|]; try constructor.
  apply Forall_forall. intros project Hin.
  apply list_elem_of_omap in Hin as (entry & _ & Hentry).
  by eapply parseAutoDeployProject_fields.
Qed.

End Projects.

(** ** Projects by slug *)

Lemma foldl_insert_lookup (projects : list AutoDeployProjectConfig)
    (m : gmap string AutoDeployProjectConfig) (slug : string) :
  foldl (fun m project => <[projectSlug project := project]> m) m projects !! slug =
  match last (List.filter (fun project => bool_decide (projectSlug project = slug)) projects) with
  | Some project => Some project
  | None => m !! slug
  end.
Proof.
  revert m. induction projects as [|p projects IH]; intros m; [done|].
  cbn [foldl List.filter]. rewrite IH.
  destruct (bool_decide_reflect (projectSlug p = slug)) as [Hp|Hp].
  - rewrite last_cons.
    destruct (last (List.filter _ projects)); [done|]. by rewrite Hp, lookup_insert_eq.
  - destruct (last (List.filter _ projects)); [done|]. by rewrite lookup_insert_ne.
Qed.

Section BySlug.

Context {rt : Runtime}.

Lemma bySlug_last (slug : string) :
  autoDeployProjectsBySlug !! slug =
  last (List.filter (fun project => bool_decide (projectSlug project = slug)) autoDeployProjects).
Proof.
  unfold autoDeployProjectsBySlug. rewrite foldl_insert_lookup, lookup_empty.
  by destruct (last _).
Qed.

(** X10. The map from slugs to projects holds, for a slug, the last project of
    the configuration with that slug: of two projects whose names give the
    same slug, the later one answers for both. *)
Theorem autoDeployProjectsBySlug_lookup (slug : string) :
  autoDeployProjectsBySlug !! slug =
  last (List.filter (fun project => bool_decide (projectSlug project = slug)) autoDeployProjects).
Proof. apply bySlug_last. Qed.

Lemma autoDeployProjectsBySlug_Some (slug : string) (project : AutoDeployProjectConfig) :
  autoDeployProjectsBySlug !! slug = Some project ->
  In project autoDeployProjects /\ projectSlug project = slug.
Proof.
  rewrite bySlug_last. intros H%last_Some_elem_of%list_elem_of_In.
  apply filter_In in H as [Hin Hslug]. by apply bool_decide_eq_true in Hslug.
Qed.

Lemma autoDeployProjectsBySlug_In (project : AutoDeployProjectConfig) :
  In project autoDeployProjects -> is_Some (autoDeployProjectsBySlug !! projectSlug project).
Proof.
  intros Hin. rewrite bySlug_last. apply last_is_Some.
  intros Hnil.
  assert (H : In project (List.filter (fun p => bool_decide (projectSlug p = projectSlug project))
                            autoDeployProjects))
    by (apply filter_In; split; [done|by apply bool_decide_eq_true]).
  by rewrite Hnil in H.
Qed.

Lemma autoDeployProjectsBySlug_size :
  size autoDeployProjectsBySlug = 0 <-> autoDeployProjects = [].
Proof.
  split.
  - intros Hsize%map_size_empty_inv.
    destruct autoDeployProjects as [|p projects] eqn:E; [done|].
    destruct (autoDeployProjectsBySlug_In p) as [q Hq]; [rewrite E; by left|].
    by rewrite Hsize, lookup_empty in Hq.
  - intros Hnil. unfold autoDeployProjectsBySlug. by rewrite Hnil.
Qed.

Lemma defaultProjectSlug_configured :
  (exists project, In project autoDeployProjects /\ projectSlug project = defaultProjectSlug) \/
  (autoDeployProjects = [] /\ defaultProjectSlug = fallbackProjectSlug).
Proof.
  unfold defaultProjectSlug. destruct autoDeployProjects as [|p projects]; [by right|].
  left. exists p. split; [by left|done].
Qed.

(** X11. An input that [validateProjectInput] lets through resolves to the slug
    of a project of the configuration, or, when no project is configured,
    to the fallback slug. *)
Theorem validateProjectInput_resolves (input : option string) :
  validateProjectInput input = None ->
  (exists project,
     In project autoDeployProjects /\ projectSlug project = resolveProjectSlug input) \/
  (autoDeployProjects = [] /\ resolveProjectSlug input = fallbackProjectSlug).
Proof.
  unfold validateProjectInput, resolveProjectSlug.
  destruct input as [text|]; [|intros _; apply defaultProjectSlug_configured].
  destruct (Js.isEmpty text); [intros _; apply defaultProjectSlug_configured|].
  destruct (bool_decide_reflect (size autoDeployProjectsBySlug = 0)) as [Hsize|Hsize].
  - destruct (bool_decide_reflect (normalizeProject text = fallbackProjectSlug)) as [->|]; [|done].
    intros _. right. split; [by apply autoDeployProjectsBySlug_size|done].
  - destruct (bool_decide_reflect (is_Some (autoDeployProjectsBySlug !! normalizeProject text)))
      as [[project Hproject]|]; [|done].
    intros _. apply autoDeployProjectsBySlug_Some in Hproject as [Hin Hslug].
    destruct (Js.isEmpty (normalizeProject text)).
    + destruct defaultProjectSlug_configured as [?|[Hnil _]]; [by left|].
      by rewrite Hnil in Hin.
    + left. by exists project.
Qed.

End BySlug.

Lemma validateProjectInput_resolves_sample :
  @validateProjectInput Demo.twoProjects (Some " Beta  App ") = None /\
  In Demo.betaConfig (@autoDeployProjects Demo.twoProjects) /\
  @resolveProjectSlug Demo.twoProjects (Some " Beta  App ") = "beta-app".
Proof.
  assert (Hvalid : @validateProjectInput Demo.twoProjects (Some " Beta  App ") = None)
    by (vm_compute; reflexivity).
  assert (Hslug : @resolveProjectSlug Demo.twoProjects (Some " Beta  App ") = "beta-app")
    by (vm_compute; reflexivity).
  assert (Hprojects : @autoDeployProjects Demo.twoProjects = [Demo.acmeConfig; Demo.betaConfig])
    by (vm_compute; reflexivity).
  destruct (@validateProjectInput_resolves Demo.twoProjects (Some " Beta  App ") Hvalid)
    as [(project & Hin & _)|[Hnil _]].
  - split; [done|]. split; [|done]. rewrite Hprojects. right. by left.
  - rewrite Hprojects in Hnil. discriminate Hnil.
Defined.

(** ** Resolving a slug *)

Section Resolve.

Context {rt : Runtime}.

Lemma autoDeployProjects_slug (project : AutoDeployProjectConfig) :
  In project autoDeployProjects -> projectSlug project = normalizeProject (projectName project).
Proof.
  unfold autoDeployProjects, parseAutoDeployProjects. intros Hin.
  destruct (Js.isEmpty _); [done|].
  destruct (JSON_parse _) as [[| | | |parsed|]|]; try done.
  apply list_elem_of_In, list_elem_of_omap in Hin as (entry & _ & Hentry).
  by apply parseAutoDeployProject_fields in Hentry as (_ & _ & _ & _ & _ & _ & ? & _).
Qed.

Lemma defaultProjectSlug_normal : normalizeProject defaultProjectSlug = defaultProjectSlug.
Proof.
  destruct defaultProjectSlug_configured as [(project & Hin & <-)|[_ ->]]; [|done].
  rewrite (autoDeployProjects_slug project Hin). apply normalizeProject_normal.
Qed.

(** X12. The slug [resolveProjectSlug] returns is a slug, one that
    [normalizeProject] leaves as it is, and resolving it again returns it:
    [getRequestLogs] and [parseRequestLogEntries], which both resolve the
    project asked for, agree. *)
Theorem resolveProjectSlug_idempotent (input : option string) :
  resolveProjectSlug (Some (resolveProjectSlug input)) = resolveProjectSlug input /\
  normalizeProject (resolveProjectSlug input) = resolveProjectSlug input.
Proof.
  assert (Hcases : resolveProjectSlug input = defaultProjectSlug \/
                   (Js.isEmpty (resolveProjectSlug input) = false /\
                    normalizeProject (resolveProjectSlug input) = resolveProjectSlug input)).
  { unfold resolveProjectSlug. destruct input as [text|]; [|by left].
    destruct (Js.isEmpty text); [by left|].
    destruct (Js.isEmpty (normalizeProject text)) eqn:E; [by left|].
    right. split; [done|apply normalizeProject_normal]. }
  destruct Hcases as [->|[Hne Hnormal]].
  - split; [|apply defaultProjectSlug_normal].
    unfold resolveProjectSlug at 1. rewrite defaultProjectSlug_normal.
    by destruct (Js.isEmpty defaultProjectSlug).
  - split; [|done]. unfold resolveProjectSlug at 1. by rewrite Hne, Hnormal, Hne.
Qed.

End Resolve.

(** ** The prefix of the environment variables of a project *)

Lemma envPrefix_char_inverse : forall c,
  isSlugChar c = true ->
  (let u := Js.upperChar (if bool_decide (c = "-"%char) then "_"%char else c) in
   if bool_decide (u = "_"%char) then "-"%char else Js.lowerChar u) = c.
Proof. ascii_cases. Qed.

Lemma envPrefix_char_ascii : forall c,
  isSlugChar c = true ->
  Js.isAscii (if bool_decide (c = "-"%char) then "_"%char else c) = true.
Proof. ascii_cases. Qed.

Lemma envPrefix_char_name : forall c,
  isSlugChar c = true ->
  (let u := Js.upperChar (if bool_decide (c = "-"%char) then "_"%char else c) in
   Js.isUpper u || Js.isDigit u || bool_decide (u = "_"%char)) = true.
Proof. ascii_cases. Qed.

Section EnvPrefix.

Context {rt : Runtime}.

Lemma envPrefixOf_ascii (slug : string) :
  Js.all isSlugChar slug = true ->
  envPrefixOf slug =
  Js.map Js.upperChar (Js.map (fun c => if bool_decide (c = "-"%char) then "_"%char else c) slug).
Proof.
  intros Hslug. unfold envPrefixOf. apply toUpperCase_ascii.
  rewrite all_map. eapply all_impl; [|exact Hslug]. apply envPrefix_char_ascii.
Qed.

Lemma envPrefixOf_inverse (slug : string) :
  Js.all isSlugChar slug = true ->
  Js.map (fun u => if bool_decide (u = "_"%char) then "-"%char else Js.lowerChar u)
    (envPrefixOf slug) = slug.
Proof.
  intros Hslug. rewrite envPrefixOf_ascii by done.
  induction slug as [|c slug IH]; [done|]. cbn [Js.all Js.map] in *.
  apply andb_true_iff in Hslug as [Hc Hslug]. rewrite IH by done. f_equal.
  by apply envPrefix_char_inverse.
Qed.

(** X13. The prefix of the environment variables of a slug is made of
    upper-case letters, digits and underscores, and two slugs with the
    same prefix are the same slug. *)
Theorem envPrefixOf_slug (a b : string) :
  Js.all (fun u => Js.isUpper u || Js.isDigit u || bool_decide (u = "_"%char))
    (envPrefixOf (normalizeProject a)) = true /\
  (envPrefixOf (normalizeProject a) = envPrefixOf (normalizeProject b) ->
   normalizeProject a = normalizeProject b).
Proof.
  split.
  - rewrite envPrefixOf_ascii by apply normalizeProject_slugChars. rewrite !all_map.
    apply (all_impl isSlugChar); [apply envPrefix_char_name|apply normalizeProject_slugChars].
  - intros H.
    rewrite <- (envPrefixOf_inverse (normalizeProject a)) by apply normalizeProject_slugChars.
    rewrite <- (envPrefixOf_inverse (normalizeProject b)) by apply normalizeProject_slugChars.
    by rewrite H.
Qed.

End EnvPrefix.

Lemma envPrefixOf_slug_sample :
  @envPrefixOf Demo.twoProjects (@normalizeProject (@caseTables Demo.twoProjects) "Acme App")
    = "ACME_APP" /\
  @normalizeProject (@caseTables Demo.twoProjects) "Acme App" =
  @normalizeProject (@caseTables Demo.twoProjects) "acme-app".
Proof.
  split; [reflexivity|].
  exact (proj2 (@envPrefixOf_slug Demo.twoProjects "Acme App" "acme-app") eq_refl).
Defined.

(** ** What the webhook does to the state *)

Section Webhook.

Context {rt : Runtime}.

(** What validation has checked when it lets a push through. *)
Lemma validateWebhook_valid_push_checked request payload branchName repositoryName
    repositoryFullName :
  validateWebhook request = Normal (ValidPush payload branchName repositoryName repositoryFullName) ->
  autoDeployEnabled = true /\
  eventOf request = "push" /\
  body request = Some payload /\
  ((Js.isEmpty autoDeployWebhookToken = false /\
    Js.trim (default "" (query_token request)) = autoDeployWebhookToken) \/
   (Js.isEmpty autoDeployWebhookToken = true /\
    Js.isEmpty githubWebhookSecret = false /\
    verifyGitHubSignature (extractHeaderValue (headers request !! "x-hub-signature-256"))
      payload githubWebhookSecret = Normal true)).
Proof.
  unfold validateWebhook, eventOf. intros H.
  destruct (body request) as [[| | | |items|fields]|]; try done.
  all: destruct autoDeployEnabled; [|done].
  all: destruct (Js.isEmpty autoDeployWebhookToken) eqn:Htoken;
    destruct (Js.isEmpty githubWebhookSecret) eqn:Hsecret;
    cbn [negb andb] in H; try done.
  all: try match type of H with
           | context [verifyGitHubSignature ?header ?received ?secret] =>
               destruct (verifyGitHubSignature header received secret) as [[|]|e] eqn:Hsignature;
               [|done..]
           end.
  all: try match type of H with
           | context [bool_decide (Js.trim ?token = autoDeployWebhookToken)] =>
               destruct (bool_decide_reflect (Js.trim token = autoDeployWebhookToken))
                 as [Hmatch|Hmatch]; [|done]
           end.
  all: unfold mbind, Completion_bind in H; cbn [negb] in H.
  all: match type of H with
       | context [bool_decide (?event = "ping")] => destruct (bool_decide (event = "ping")); [done|]
       end.
  all: destruct (bool_decide_reflect
                   (Js.toLowerCase (extractHeaderValue (headers request !! "x-github-event"))
                    = "push")) as [Hevent|Hevent]; [|done].
  all: cbn [negb] in H.
  all: repeat case_match; simplify_eq.
  all: repeat split; try done; first [by left|by right].
Qed.

(** X14. A request changes the state of the queue only when auto deploy is
    enabled, the event is a push, and the request carries the configured
    token or, when no token is configured, a signature that verifies. *)
Theorem webhook_changes_state_only_when_authorised (request : WebhookRequest)
    (st st' : ServerState) (r : Reply) :
  webhookGithub request st = Normal (r, st') ->
  st' = st \/
  (autoDeployEnabled = true /\
   eventOf request = "push" /\
   exists payload,
     body request = Some payload /\
     ((Js.isEmpty autoDeployWebhookToken = false /\
       Js.trim (default "" (query_token request)) = autoDeployWebhookToken) \/
      (Js.isEmpty autoDeployWebhookToken = true /\
       Js.isEmpty githubWebhookSecret = false /\
       verifyGitHubSignature (extractHeaderValue (headers request !! "x-hub-signature-256"))
         payload githubWebhookSecret = Normal true))).
Proof.
  unfold webhookGithub. intros H.
  destruct (validateWebhook request) as [[r0|payload b repositoryName repositoryFullName]|e]
    eqn:Hvalid; cbn in H; [..|done].
  - left. by simplify_eq.
  - right. apply validateWebhook_valid_push_checked in Hvalid as (? & ? & ? & ?).
    repeat split; try done. by exists payload.
Qed.

End Webhook.

Lemma webhook_changes_state_only_when_authorised_sample :
  @stateAfter (Demo.tokenRuntime [Demo.acmeMain]) [Demo.pushTo "refs/heads/main"] = initialState \/
  (@autoDeployEnabled (Demo.tokenRuntime [Demo.acmeMain]) = true /\
   @eventOf Sample.caseTables (Demo.pushTo "refs/heads/main") = "push" /\
   exists payload,
     body (Demo.pushTo "refs/heads/main") = Some payload /\
     ((Js.isEmpty (@autoDeployWebhookToken (Demo.tokenRuntime [Demo.acmeMain])) = false /\
       Js.trim (default "" (query_token (Demo.pushTo "refs/heads/main")))
         = @autoDeployWebhookToken (Demo.tokenRuntime [Demo.acmeMain])) \/
      (Js.isEmpty (@autoDeployWebhookToken (Demo.tokenRuntime [Demo.acmeMain])) = true /\
       Js.isEmpty (@githubWebhookSecret (Demo.tokenRuntime [Demo.acmeMain])) = false /\
       @verifyGitHubSignature (Demo.tokenRuntime [Demo.acmeMain])
         (extractHeaderValue (headers (Demo.pushTo "refs/heads/main") !! "x-hub-signature-256"))
         payload (@githubWebhookSecret (Demo.tokenRuntime [Demo.acmeMain])) = Normal true))).
Proof.
  apply (@webhook_changes_state_only_when_authorised (Demo.tokenRuntime [Demo.acmeMain])
           (Demo.pushTo "refs/heads/main") initialState
           (@stateAfter (Demo.tokenRuntime [Demo.acmeMain]) [Demo.pushTo "refs/heads/main"])
           (reply 202 (BodyQueued "job-0" "Acme App" "main" "org/acme"))).
  vm_compute. reflexivity.
Defined.

(** ** The jobs a list of requests leaves behind *)

Section Deliveries.

Context {rt : Runtime}.





End Deliveries.

(** A push whose [ref] is no string makes the handler throw: the server
    answers 500, and the pushes before and after it are queued. *)
Example deliverAll_after_throw :
  @deliverAll (Demo.tokenRuntime [Demo.acmeMain])
    [Demo.pushTo "refs/heads/main";
     Demo.delivery "push" (Some "s3cret-token") (JObject [("ref", JBool true)]);
     Demo.pushTo "refs/heads/main"] initialState
  = ([reply 202 (BodyQueued "job-0" "Acme App" "main" "org/acme");
      reply 500 (BodyFailure TypeError);
      reply 202 (BodyQueued "job-1" "Acme App" "main" "org/acme")],
     @stateAfter (Demo.tokenRuntime [Demo.acmeMain])
       [Demo.pushTo "refs/heads/main"; Demo.pushTo "refs/heads/main"]).
Proof. vm_compute. reflexivity. Qed.

(** ** The order of the queue *)

Section Queue.

Context {rt : Runtime}.

Lemma queueInOrder_initial : queueInOrder initialState.
Proof. split; [intros key n H|intros n job p H]; by rewrite ?lookup_empty in H. Qed.

Lemma queueAutoDeploy_inOrder (project : AutoDeployProjectConfig) (context : AutoDeployContext)
    (st : ServerState) :
  queueInOrder st -> queueInOrder (snd (queueAutoDeploy project context st)).
Proof.
  intros [Hheld Hwaits]. unfold queueAutoDeploy. cbn [snd].
  set (key0 := projectSlug project +:+ ":" +:+ branch project).
  set (job0 := {| job_id := randomUUID (uuidsDrawn st); job_queueKey := key0;
                  job_project := project; job_context := context;
                  job_after := autoDeployQueues st !! key0 |}).
  split; cbn [autoDeployQueues scheduled].
  - intros key n Hkey.
    destruct (decide (key = key0)) as [->|Hother].
    + rewrite lookup_insert_eq in Hkey. injection Hkey as <-.
      exists job0. split; [by apply list_lookup_middle|]. split; [done|].
      intros m later Hm Hlater. apply lookup_lt_Some in Hlater.
      rewrite length_app in Hlater. cbn in Hlater. lia.
    + rewrite lookup_insert_ne in Hkey by done.
      destruct (Hheld key n Hkey) as (job & Hjob & Hjobkey & Hlast).
      exists job. split; [by apply lookup_app_l_Some|]. split; [done|].
      intros m later Hm Hlater.
      destruct (decide (m < length (scheduled st))) as [Hin|Hout].
      * rewrite lookup_app_l in Hlater by done. by eapply Hlast.
      * rewrite lookup_app_r in Hlater by lia.
        destruct (m - length (scheduled st)) as [|k];
          [|cbn in Hlater; by rewrite ?lookup_nil in Hlater].
        cbn in Hlater. injection Hlater as <-. cbn. congruence.
  - intros n job p Hjob Hafter.
    destruct (decide (n < length (scheduled st))) as [Hin|Hout].
    + rewrite lookup_app_l in Hjob by done.
      destruct (Hwaits n job p Hjob Hafter) as (Hp & previous & Hprevious & Hkey & Hbetween).
      split; [done|]. exists previous. split; [by apply lookup_app_l_Some|]. split; [done|].
      intros m between Hm Hm'. rewrite lookup_app_l in Hm' by lia. by eapply Hbetween.
    + rewrite lookup_app_r in Hjob by lia.
      destruct (n - length (scheduled st)) as [|k] eqn:Hn;
        [|cbn in Hjob; by rewrite ?lookup_nil in Hjob].
      cbn in Hjob. injection Hjob as <-. cbn in Hafter.
      destruct (Hheld key0 p Hafter) as (previous & Hprevious & Hkey & Hlast).
      pose proof (lookup_lt_Some _ _ _ Hprevious) as Hp.
      split; [lia|]. exists previous. split; [by apply lookup_app_l_Some|]. split; [done|].
      intros m between Hm Hm'. rewrite lookup_app_l in Hm' by lia. cbn.
      eapply Hlast; [|exact Hm']. lia.
Qed.

Lemma settleAutoDeploy_inOrder (job : nat) (st : ServerState) :
  queueInOrder st -> queueInOrder (settleAutoDeploy job st).
Proof.
  intros [Hheld Hwaits]. unfold settleAutoDeploy.
  destruct (scheduled st !! job) as [j|]; [|done].
  destruct (bool_decide _); [|done].
  split; cbn [autoDeployQueues scheduled]; [|done].
  intros key n [_ Hkey]%lookup_delete_Some. by apply Hheld.
Qed.

Lemma queueEvents_inOrder (events : list QueueEvent) (st : ServerState) :
  queueInOrder st -> queueInOrder (queueEvents events st).
Proof.
  revert st. induction events as [|event events IH]; intros st Hst; [done|].
  cbn [queueEvents foldl]. apply IH.
  destruct event; [by apply queueAutoDeploy_inOrder|by apply settleAutoDeploy_inOrder].
Qed.

(** X16. However jobs are queued and settle, from the start of the process: the
    map holds, for a key, the last job queued under that key; and a job
    that waits waits for the job queued under its own key just before it,
    never for a job of another key. *)
Theorem autoDeployQueue_in_order (events : list QueueEvent) :
  queueInOrder (queueEvents events initialState).
Proof. apply queueEvents_inOrder, queueInOrder_initial. Qed.

(** X17. A second push for the same project waits for the first as long as the
    first has not settled, and does not wait once it has. *)
Theorem queueAutoDeploy_waits_for_running (project : AutoDeployProjectConfig)
    (first second : AutoDeployContext) (st : ServerState) :
  let queued := snd (queueAutoDeploy project first st) in
  let position := length (scheduled st) in
  (job_after <$> last (scheduled (snd (queueAutoDeploy project second queued))))
    = Some (Some position) /\
  (job_after <$> last (scheduled (snd (queueAutoDeploy project second
                                          (settleAutoDeploy position queued)))))
    = Some None.
Proof.
  cbn zeta. unfold queueAutoDeploy at 1 3. cbn [snd scheduled].
  rewrite !last_snoc. cbn [fmap option_fmap option_map job_after].
  split.
  - unfold queueAutoDeploy. cbn [snd autoDeployQueues]. by rewrite lookup_insert_eq.
  - unfold settleAutoDeploy, queueAutoDeploy. cbn [snd autoDeployQueues scheduled].
    rewrite list_lookup_middle by done. cbn [job_queueKey].
    rewrite lookup_insert_eq, bool_decide_eq_true_2 by done.
    cbn [autoDeployQueues]. by rewrite lookup_delete_eq.
Qed.

End Queue.

(** ** The lines of the access log *)

Section LogLines.

Context {rt : Runtime}.

Lemma coerceStatusCode_range (rawValue : option JValue) (n : Z) :
  coerceStatusCode rawValue = Some n -> (100 <= n <= 599)%Z.
Proof.
  assert (Hrange : forall rounded, inStatusRange rounded = Some n -> (100 <= n <= 599)%Z).
  { unfold inStatusRange. intros rounded H.
    destruct ((100 <=? rounded)%Z && (rounded <=? 599)%Z) eqn:E; [|done].
    simplify_eq. apply andb_true_iff in E as [?%Z.leb_le ?%Z.leb_le]. lia. }
  unfold coerceStatusCode. intros H.
  destruct rawValue as [[| |x|s| |]|]; try done.
  - destruct (Num.isFinite x); [by eapply Hrange|done].
  - destruct (negb _); [done|by eapply Hrange].
Qed.

(** X18. The status code of a line of the access log, in either format, is
    absent or a status of HTTP, from 100 to 599. *)
Theorem parseRequestLogLine_status (line : string) (parsed : ParsedRequestLogLine) (n : Z) :
  parseRequestLogLine line = Normal (Some parsed) ->
  line_statusCode parsed = Some n ->
  (100 <= n <= 599)%Z.
Proof.
  unfold parseRequestLogLine. intros H Hstatus.
  destruct (parseJsonRequestLogLine line) as [[fromJson|]|e] eqn:Hjson; cbn in H; [| |done].
  - simplify_eq. unfold parseJsonRequestLogLine in Hjson.
    destruct (negb _ || negb _); [done|].
    unfold catch, mbind, Completion_bind in Hjson.
    repeat case_match; simplify_eq; cbn [line_statusCode] in Hstatus;
      by eapply coerceStatusCode_range.
  - simplify_eq. unfold parseNginxRequestLogLine in H.
    destruct (matchNginxLine line); [|done]. simplify_eq. cbn [line_statusCode] in Hstatus.
    by eapply coerceStatusCode_range.
Qed.

End LogLines.

Lemma parseRequestLogLine_status_sample :
  @parseRequestLogLine Demo.twoProjects Demo.nestedPathLine =
    Normal (Some {| line_timestamp := Some "2024-10-10T13:55:36.000Z"; line_method := "GET";
                    line_statusCode := Some 200%Z; line_host := "";
                    line_path := "/beta-app/acme-app";
                    line_message := "GET /beta-app/acme-app"; line_remoteAddr := Some "1.2.3.4";
                    line_projectHint := None |}) /\
  (100 <= 200 <= 599)%Z.
Proof.
  assert (Hparsed : @parseRequestLogLine Demo.twoProjects Demo.nestedPathLine =
    Normal (Some {| line_timestamp := Some "2024-10-10T13:55:36.000Z"; line_method := "GET";
                    line_statusCode := Some 200%Z; line_host := "";
                    line_path := "/beta-app/acme-app";
                    line_message := "GET /beta-app/acme-app"; line_remoteAddr := Some "1.2.3.4";
                    line_projectHint := None |}))
    by (vm_compute; reflexivity).
  split; [exact Hparsed|].
  exact (@parseRequestLogLine_status Demo.twoProjects Demo.nestedPathLine _ 200 Hparsed eq_refl).
Defined.

(** ** The entries of the access log *)

Lemma insertDescending_sorted {A : Type} (key : A -> Z) (x : A) (sorted : list A) :
  StronglySorted (fun earlier later => (key later <= key earlier)%Z) sorted ->
  StronglySorted (fun earlier later => (key later <= key earlier)%Z)
    (insertDescending key x sorted).
Proof.
  induction 1 as [|y rest Hsorted IH Hy]; cbn [insertDescending].
  - repeat constructor.
  - destruct (Z.leb_spec (key y) (key x)) as [Hle|Hgt].
    + constructor; [by constructor|]. constructor; [done|].
      eapply Forall_impl; [exact Hy|]. intros z Hz. cbn in Hz. lia.
    + constructor; [done|]. apply Forall_forall. intros z Hz%list_elem_of_In.
      apply In_insertDescending in Hz as [->|Hz]; [lia|].
      rewrite Forall_forall in Hy. by apply Hy, list_elem_of_In.
Qed.

Lemma sortDescending_sorted {A : Type} (key : A -> Z) (xs : list A) :
  StronglySorted (fun earlier later => (key later <= key earlier)%Z) (sortDescending key xs).
Proof.
  induction xs as [|x xs IH]; [constructor|]. by apply insertDescending_sorted.
Qed.

Lemma firstn_sorted {A : Type} (R : A -> A -> Prop) (n : nat) (xs : list A) :
  StronglySorted R xs -> StronglySorted R (firstn n xs).
Proof.
  intros H. revert n. induction H as [|x xs Hsorted IH Hx]; intros [|n]; cbn; try constructor.
  - apply IH.
  - apply Forall_forall. intros y Hy%list_elem_of_In%In_firstn_list.
    rewrite Forall_forall in Hx. by apply Hx, list_elem_of_In.
Qed.

Lemma sliceTo_sorted {A : Type} (R : A -> A -> Prop) (limit : Z) (xs : list A) :
  StronglySorted R xs -> StronglySorted R (sliceTo limit xs).
Proof. unfold sliceTo. destruct (0 <=? limit)%Z; apply firstn_sorted. Qed.

Lemma sliceTo_length {A : Type} (limit : Z) (xs : list A) :
  (0 <= limit)%Z -> length (sliceTo limit xs) <= Z.to_nat limit.
Proof.
  intros Hlimit. unfold sliceTo. rewrite (proj2 (Z.leb_le 0 limit) Hlimit).
  rewrite length_firstn. lia.
Qed.

Section LogEntries.

Context {rt : Runtime}.

(** What an entry that a line pushes is made of. *)
Lemma requestLogEntryOf_pushed requested startMs endMs index line reads pushed reads' :
  requestLogEntryOf requested startMs endMs index line reads = (Normal (Some pushed), reads') ->
  exists parsed,
    parseRequestLogLine line = Normal (Some parsed) /\
    log_projectSlug pushed = resolveProjectSlugFromRequestLog parsed /\
    Js.isEmpty (log_projectSlug pushed) = false /\
    log_projectName pushed = resolveProjectName (log_projectSlug pushed) /\
    log_statusCode pushed = line_statusCode parsed /\
    log_path pushed = Js.orElse (Js.trim (line_path parsed)) "/" /\
    isDashboardUsageRequest (normalizeHost (line_host parsed)) (log_path pushed) = false /\
    match requested with
    | Some project => Js.isEmpty project = true \/ log_projectSlug pushed = project
    | None => True
    end /\
    match startMs with
    | Some start => (start <= requestLogTimestamp pushed)%Z
    | None => True
    end /\
    match endMs with
    | Some stop => (requestLogTimestamp pushed <= stop)%Z
    | None => True
    end.
Proof.
  unfold requestLogEntryOf. intros H.
  destruct (parseRequestLogLine line) as [[parsed|]|e]; [|done..].
  exists parsed. cbv zeta in H.
  destruct (isDashboardUsageRequest _ _) eqn:Hdashboard; [done|].
  destruct (Js.isEmpty (resolveProjectSlugFromRequestLog parsed)) eqn:Hslug; [done|].
  destruct (match requested with Some _ => _ | None => _ end) eqn:Hrequested; [done|].
  destruct (match line_timestamp parsed with Some _ => _ | None => _ end) as [timestamp reads1].
  destruct (from_option _ false startMs) eqn:Hstart; [done|].
  destruct (from_option _ false endMs) eqn:Hend; [done|].
  simplify_eq. unfold requestLogTimestamp. cbn [log_projectSlug log_projectName log_statusCode
    log_path log_timestamp]. repeat split; try done.
  - destruct requested as [project|]; [|done].
    destruct (Js.isEmpty project); [by left|right]. cbn in Hrequested.
    apply negb_false_iff in Hrequested. by apply bool_decide_eq_true in Hrequested.
  - destruct startMs as [start|]; [|done]. cbn in Hstart. by apply Z.ltb_ge in Hstart.
  - destruct endMs as [stop|]; [|done]. cbn in Hend. by apply Z.ltb_ge in Hend.
Qed.

Lemma requestLogEntriesFrom_pushed requested startMs endMs (P : RequestLogEntry -> Prop) lines :
  (forall index line reads pushed reads',
     requestLogEntryOf requested startMs endMs index line reads = (Normal (Some pushed), reads') ->
     P pushed) ->
  forall index reads entries reads',
    requestLogEntriesFrom requested startMs endMs index lines reads = (Normal entries, reads') ->
    Forall P entries.
Proof.
  intros Hone. induction lines as [|line lines IH]; intros index reads entries reads' H;
    cbn [requestLogEntriesFrom] in H.
  - simplify_eq. constructor.
  - destruct (requestLogEntryOf requested startMs endMs index line reads)
      as [[pushed|e] reads1] eqn:Hline; [|done].
    destruct (requestLogEntriesFrom requested startMs endMs (S index) lines reads1)
      as [[rest|e] reads2] eqn:Hrest; [|done].
    apply IH in Hrest. simplify_eq. destruct pushed as [pushed|]; [|done].
    constructor; [|done]. by eapply Hone.
Qed.

Lemma parseRequestLogEntries_pushed raw requestedProjectSlug limit startMs endMs reads entries reads'
    (P : RequestLogEntry -> Prop) :
  (forall requested index line reads0 pushed reads1,
     requested = match requestedProjectSlug with
                 | Some project =>
                     if Js.isEmpty project then None else Some (resolveProjectSlug (Some project))
                 | None => None
                 end ->
     requestLogEntryOf requested startMs endMs index line reads0 = (Normal (Some pushed), reads1) ->
     P pushed) ->
  parseRequestLogEntries raw requestedProjectSlug limit startMs endMs reads = (Normal entries, reads') ->
  Forall P entries.
Proof.
  intros Hone. unfold parseRequestLogEntries. intros H.
  destruct (requestLogEntriesFrom _ startMs endMs 0 (nonEmptyLines raw) reads)
    as [[parsedEntries|e] reads1] eqn:Hloop; [|done].
  simplify_eq.
  eapply requestLogEntriesFrom_pushed in Hloop; [|intros; by eapply Hone].
  rewrite Forall_forall in Hloop |- *. intros pushed Hin. apply Hloop.
  apply list_elem_of_In. apply list_elem_of_In in Hin.
  by eapply In_sortDescending, In_sliceTo.
Qed.

(** X19. Every entry [parseRequestLogEntries] returns belongs to the project
    asked for, if a project is asked for and resolves to a slug that is not
    empty, lies in the window of time asked for, carries a slug that is
    not empty with the name of that slug, and is not a request to the
    control plane itself. *)
Theorem parseRequestLogEntries_filtered (raw : string) (requestedProjectSlug : option string)
    (limit : Z) (startMs endMs : option Z) (reads reads' : nat) (entries : list RequestLogEntry) :
  parseRequestLogEntries raw requestedProjectSlug limit startMs endMs reads = (Normal entries, reads') ->
  Forall (fun entry =>
    match requestedProjectSlug with
    | Some project =>
        Js.isEmpty project = true \/
        Js.isEmpty (resolveProjectSlug (Some project)) = true \/
        log_projectSlug entry = resolveProjectSlug (Some project)
    | None => True
    end /\
    match startMs with
    | Some start => (start <= requestLogTimestamp entry)%Z
    | None => True
    end /\
    match endMs with
    | Some stop => (requestLogTimestamp entry <= stop)%Z
    | None => True
    end /\
    Js.isEmpty (log_projectSlug entry) = false /\
    log_projectName entry = resolveProjectName (log_projectSlug entry) /\
    isControlPlaneRequestPath (log_path entry) = false) entries.
Proof.
  apply parseRequestLogEntries_pushed.
  intros requested index line reads0 pushed reads1 -> Hpushed.
  apply requestLogEntryOf_pushed in Hpushed
    as (parsed & _ & _ & Hslug & Hname & _ & _ & Hdashboard & Hrequested & Hstart & Hend).
  repeat split; try done.
  - destruct requestedProjectSlug as [project|]; [|done].
    destruct (Js.isEmpty project) eqn:E; [by left|]. right.
    destruct Hrequested as [Hempty|Hrequested]; [by left|by right].
  - unfold isDashboardUsageRequest in Hdashboard.
    by destruct (isControlPlaneRequestPath (log_path pushed)).
Qed.

(** X20. The entries [parseRequestLogEntries] returns are in the order of their
    times, the most recent first, and are at most [limit] when the limit
    is not negative. *)
Theorem parseRequestLogEntries_sorted (raw : string) (requestedProjectSlug : option string)
    (limit : Z) (startMs endMs : option Z) (reads reads' : nat) (entries : list RequestLogEntry) :
  parseRequestLogEntries raw requestedProjectSlug limit startMs endMs reads = (Normal entries, reads') ->
  StronglySorted
    (fun earlier later => (requestLogTimestamp later <= requestLogTimestamp earlier)%Z) entries /\
  ((0 <= limit)%Z -> length entries <= Z.to_nat limit).
Proof.
  unfold parseRequestLogEntries. intros H.
  destruct (requestLogEntriesFrom _ startMs endMs 0 (nonEmptyLines raw) reads)
    as [[parsedEntries|e] reads1]; [|done].
  simplify_eq. split.
  - apply sliceTo_sorted, sortDescending_sorted.
  - apply sliceTo_length.
Qed.

End LogEntries.

Lemma parseRequestLogEntries_filtered_sample :
  Forall (fun entry => log_projectSlug entry = "beta-app") (Cases.entriesOf (Some "Beta App")) /\
  List.map log_logId (Cases.entriesOf (Some "Beta App")) = ["beta-app-1700000000000-0"].
Proof.
  assert (Hrun : @parseRequestLogEntries Demo.twoProjects Cases.accessLog (Some "Beta App") 10
                   None None 0 = (Normal (Cases.entriesOf (Some "Beta App")), 1))
    by (vm_compute; reflexivity).
  split; [|vm_compute; reflexivity].
  eapply Forall_impl;
    [exact (@parseRequestLogEntries_filtered Demo.twoProjects _ _ _ _ _ _ _ _ Hrun)|].
  intros entry (Hrequested & _). cbn beta iota in Hrequested.
  destruct Hrequested as [Hempty|[Hempty|Hslug]].
  - discriminate Hempty.
  - vm_compute in Hempty. discriminate Hempty.
  - rewrite Hslug. vm_compute. reflexivity.
Defined.

Lemma parseRequestLogEntries_sorted_sample :
  StronglySorted
    (fun earlier later =>
       (@requestLogTimestamp Demo.twoProjects later <= @requestLogTimestamp Demo.twoProjects earlier)%Z)
    (Cases.entriesOf None) /\
  List.map log_logId (Cases.entriesOf None) =
    ["acme-app-1728568536000-1"; "beta-app-1700000000000-0"].
Proof.
  assert (Hrun : @parseRequestLogEntries Demo.twoProjects Cases.accessLog None 10
                   None None 0 = (Normal (Cases.entriesOf None), 1))
    by (vm_compute; reflexivity).
  split; [|vm_compute; reflexivity].
  exact (proj1 (@parseRequestLogEntries_sorted Demo.twoProjects _ _ _ _ _ _ _ _ Hrun)).
Defined.

(** ** One project, or none *)

Section OneProject.

Context {rt : Runtime}.

(** X21. With at most one project configured every line is attributed to the
    default slug, whatever its hint, its host and its text: the slug of
    the one project, or the fallback slug when there is none. *)
Theorem resolveProjectSlugFromRequestLog_single (entry : ParsedRequestLogLine) :
  length autoDeployProjects <= 1 ->
  resolveProjectSlugFromRequestLog entry = defaultProjectSlug.
Proof.
  intros Hlength.
  unfold resolveProjectSlugFromRequestLog, resolveByHint, resolveByHost,
    autoDeployProjectsBySlug, defaultProjectSlug.
  set (hint := normalizeProject (default "" (line_projectHint entry))).
  set (host := normalizeHost (line_host entry)).
  destruct autoDeployProjects as [|only [|second rest]]; [| |cbn in Hlength; lia];
    cbn [foldl head fmap option_fmap option_map default from_option List.find]; unfold id.
  - rewrite lookup_empty.
    rewrite (bool_decide_eq_false_2 (is_Some None)) by by intros [? ?].
    rewrite (bool_decide_eq_true_2 ([] = [])) by done. cbn [andb].
    destruct (Js.isEmpty hint).
    + destruct (Js.isEmpty host); [done|]. by destruct (_ && _).
    + destruct (bool_decide_reflect (hint = fallbackProjectSlug)) as [->|_]; [done|].
      destruct (Js.isEmpty host); [done|]. by destruct (_ && _).
  - rewrite (bool_decide_eq_false_2 ([only] = [])) by done. cbn [andb].
    assert (Hhint : (if Js.isEmpty hint then None
                     else if bool_decide (is_Some ((<[projectSlug only := only]> ∅
                                                      : gmap string AutoDeployProjectConfig) !! hint))
                          then Some hint else None) = None \/
                    (if Js.isEmpty hint then None
                     else if bool_decide (is_Some ((<[projectSlug only := only]> ∅
                                                      : gmap string AutoDeployProjectConfig) !! hint))
                          then Some hint else None) = Some (projectSlug only)).
    { destruct (Js.isEmpty hint); [by left|].
      destruct (decide (hint = projectSlug only)) as [->|Hother].
      - right. by rewrite lookup_insert_eq, bool_decide_eq_true_2.
      - left. rewrite lookup_insert_ne, lookup_empty by done.
        by rewrite bool_decide_eq_false_2 by by intros [? ?]. }
    destruct Hhint as [-> | ->]; [|done].
    destruct (Js.isEmpty host).
    + by destruct (textMatchesProject _ only).
    + destruct (hostMatchesProject host only); [done|].
      by destruct (textMatchesProject _ only).
Qed.

End OneProject.

Lemma resolveProjectSlugFromRequestLog_single_sample :
  @resolveProjectSlugFromRequestLog (Demo.tokenRuntime [Demo.acmeMain])
    (Demo.line "other.example.org" "/checkout" (Some "Beta App")) = "acme-app".
Proof.
  apply (@resolveProjectSlugFromRequestLog_single (Demo.tokenRuntime [Demo.acmeMain])
           (Demo.line "other.example.org" "/checkout" (Some "Beta App"))).
  vm_compute. repeat constructor.
Defined.

(** ** The log of the tracker, line after line *)

Lemma nonEmptyLines_append (earlier later : string) :
  nonEmptyLines (earlier +:+ newline +:+ later) = nonEmptyLines earlier ++ nonEmptyLines later.
Proof.
  unfold nonEmptyLines.
  change (earlier +:+ newline +:+ later) with (earlier +:+ String "010" later).
  by rewrite split_append, List.map_app, List.filter_app.
Qed.

Lemma mapAuthor_hidden {tables : Js.CaseTables} (author : string) :
  Js.includes "hello-cms-ai" (Js.toLowerCase (mapAuthor author)) = false.
Proof.
  unfold mapAuthor.
  destruct (Js.includes "hello-cms-ai" (Js.toLowerCase author)) eqn:E; [|done].
  by rewrite toLowerCase_ascii.
Qed.

Section TrackerLines.

Context {rt : Runtime}.

Lemma trackerDeploymentsOf_app slug name (earlier later : list string) (reads : nat) :
  trackerDeploymentsOf slug name (earlier ++ later) reads =
  let '(first, reads1) := trackerDeploymentsOf slug name earlier reads in
  let '(second, reads2) := trackerDeploymentsOf slug name later reads1 in
  (first ++ second, reads2).
Proof.
  revert reads. induction earlier as [|line earlier IH]; intros reads.
  - cbn. by destruct (trackerDeploymentsOf slug name later reads).
  - cbn [app trackerDeploymentsOf].
    destruct (trackerDeploymentOf slug name line reads) as [pushed reads0].
    rewrite IH.
    destruct (trackerDeploymentsOf slug name earlier reads0) as [first reads1].
    destruct (trackerDeploymentsOf slug name later reads1) as [second reads2].
    by destruct pushed.
Qed.

Lemma trackerEntries_of_lines_added (earlier later slug name : string) (reads : nat) :
  parseTrackerEntries (earlier +:+ newline +:+ later) slug name reads =
  let '(old, reads1) := parseTrackerEntries earlier slug name reads in
  let '(new, reads2) := parseTrackerEntries later slug name reads1 in
  (new ++ old, reads2).
Proof.
  unfold parseTrackerEntries. rewrite nonEmptyLines_append, trackerDeploymentsOf_app.
  destruct (trackerDeploymentsOf slug name (nonEmptyLines earlier) reads) as [first reads1].
  destruct (trackerDeploymentsOf slug name (nonEmptyLines later) reads1) as [second reads2].
  by rewrite rev_app_distr.
Qed.

(** X22. The deployments of a log to which lines have been added are the
    deployments of the added lines followed by those of the log as it
    was: the most recent line comes first. *)
Theorem parseTrackerEntries_append (earlier later slug name : string) (reads : nat) :
  parseTrackerEntries (earlier +:+ newline +:+ later) slug name reads =
  let '(old, reads1) := parseTrackerEntries earlier slug name reads in
  let '(new, reads2) := parseTrackerEntries later slug name reads1 in
  (new ++ old, reads2).
Proof. apply trackerEntries_of_lines_added. Qed.

(** X23. For a project that [validateProjectInput] lets through, the latest
    deployment is the deployment of the last line of the log of the
    tracker, when that line is a deployment of the project. *)
Theorem latestDeployment_last_line (content line : string) (project : option string)
    (reads reads' : nat) (deployment : Deployment) :
  validateProjectInput project = None ->
  parseTrackerEntries line (resolveProjectSlug project)
    (resolveProjectName (resolveProjectSlug project))
    (snd (parseTrackerEntries content (resolveProjectSlug project)
            (resolveProjectName (resolveProjectSlug project)) reads))
  = ([deployment], reads') ->
  latestDeployment (content +:+ newline +:+ line) project reads = LatestData (Some deployment).
Proof.
  intros Hvalid Hline. unfold latestDeployment. rewrite Hvalid.
  unfold readTracker. rewrite trackerEntries_of_lines_added.
  destruct (parseTrackerEntries content _ _ reads) as [old reads1].
  cbn [snd] in Hline. by rewrite Hline.
Qed.

Lemma trackerDeploymentOf_shape slug name line reads deployment reads' :
  trackerDeploymentOf slug name line reads = (Some deployment, reads') ->
  Js.isEmpty slug = false /\
  Js.toUpperCase (dep_deploymentId deployment) = dep_deploymentId deployment /\
  Js.includes "hello-cms-ai" (Js.toLowerCase (dep_author deployment)) = false.
Proof.
  unfold trackerDeploymentOf. intros H.
  repeat case_match; simplify_eq; cbn [dep_deploymentId dep_author];
    (split; [|split; [apply toUpperCase_idempotent|apply mapAuthor_hidden]]).
  all: match goal with
       | Hguard : Js.isEmpty ?project || negb (bool_decide (?project = ?expected)) = false
         |- Js.isEmpty ?expected = false =>
           apply orb_false_iff in Hguard as [Hne Hsame];
           apply negb_false_iff, bool_decide_eq_true in Hsame; by rewrite <- Hsame
       end.
Qed.

(** X24. Every deployment [parseTrackerEntries] returns has an identifier in
    upper case and an author in which the name [hello-cms-ai] does not
    occur, and none is returned for the empty slug, for which the clock is
    not read either. *)
Theorem parseTrackerEntries_shape (raw slug name : string) (reads : nat) :
  Forall (fun deployment =>
    Js.toUpperCase (dep_deploymentId deployment) = dep_deploymentId deployment /\
    Js.includes "hello-cms-ai" (Js.toLowerCase (dep_author deployment)) = false)
    (fst (parseTrackerEntries raw slug name reads)) /\
  parseTrackerEntries raw "" name reads = ([], reads).
Proof.
  assert (Hlines : forall lines reads0,
    Forall (fun deployment =>
      Js.isEmpty slug = false /\
      Js.toUpperCase (dep_deploymentId deployment) = dep_deploymentId deployment /\
      Js.includes "hello-cms-ai" (Js.toLowerCase (dep_author deployment)) = false)
      (fst (trackerDeploymentsOf slug name lines reads0))).
  { induction lines as [|line lines IH]; intros reads0; cbn [trackerDeploymentsOf].
    - constructor.
    - destruct (trackerDeploymentOf slug name line reads0) as [pushed reads1] eqn:E.
      specialize (IH reads1).
      destruct (trackerDeploymentsOf slug name lines reads1) as [parsed reads2].
      destruct pushed as [deployment|]; cbn in *; [|done].
      constructor; [|done]. by eapply trackerDeploymentOf_shape. }
  split.
  - unfold parseTrackerEntries. specialize (Hlines (nonEmptyLines raw) reads).
    destruct (trackerDeploymentsOf slug name (nonEmptyLines raw) reads) as [parsed reads1].
    cbn [fst] in *. apply Forall_rev. eapply Forall_impl; [exact Hlines|].
    by intros deployment (_ & ? & ?).
  - unfold parseTrackerEntries.
    assert (Hnone : forall lines reads0, trackerDeploymentsOf "" name lines reads0 = ([], reads0)).
    { induction lines as [|line lines IH]; intros reads0; cbn [trackerDeploymentsOf]; [done|].
      assert (Hline : trackerDeploymentOf "" name line reads0 = (None, reads0)).
      { unfold trackerDeploymentOf.
        destruct (JSON_parse line) as [entry|]; [|done].
        destruct (_ ≫= _) as [entryProject|e]; [|done].
        by destruct entryProject. }
      by rewrite Hline, IH. }
    by rewrite Hnone.
Qed.

End TrackerLines.

Lemma latestDeployment_last_line_sample :
  @validateProjectInput Demo.twoProjects (Some "Acme App") = None /\
  match @latestDeployment Demo.twoProjects
          (Cases.firstDeployment +:+ newline +:+ Cases.secondDeployment) (Some "Acme App") 0 with
  | LatestData (Some deployment) => dep_deploymentId deployment = "DEP-2"
  | _ => False
  end.
Proof.
  assert (Hvalid : @validateProjectInput Demo.twoProjects (Some "Acme App") = None)
    by (vm_compute; reflexivity).
  split; [exact Hvalid|].
  eassert (Hline : @parseTrackerEntries Demo.twoProjects Cases.secondDeployment
                     (@resolveProjectSlug Demo.twoProjects (Some "Acme App"))
                     (@resolveProjectName Demo.twoProjects
                        (@resolveProjectSlug Demo.twoProjects (Some "Acme App")))
                     (snd (@parseTrackerEntries Demo.twoProjects Cases.firstDeployment
                             (@resolveProjectSlug Demo.twoProjects (Some "Acme App"))
                             (@resolveProjectName Demo.twoProjects
                                (@resolveProjectSlug Demo.twoProjects (Some "Acme App"))) 0))
                   = ([_], _)) by (vm_compute; reflexivity).
  by rewrite (@latestDeployment_last_line Demo.twoProjects _ _ _ _ _ _ Hvalid Hline).
Defined.

(** A project that is not configured is answered with the status 400,
    whatever the log of the tracker holds. *)
Example latestDeployment_unknown_project :
  @latestDeployment Demo.twoProjects
    (Cases.firstDeployment +:+ newline +:+ Cases.secondDeployment) (Some "Gamma App") 0
  = LatestError 400 "Unknown project (gamma-app). Configured projects: acme-app, beta-app".
Proof. vm_compute. reflexivity. Qed.

(** ** The commands the control plane runs *)

Ltac read_command :=
  repeat first
    [ rewrite lex_plain_shellQuote
    | rewrite lex_plain_blank
    | rewrite lex_plain_or
    | rewrite lex_plain_end
    | rewrite lex_plain_word by (reflexivity || assumption) ].

Section Commands.

Context {rt : Runtime}.

(** X25. A deployment on a remote host starts [ssh] with a command that the
    shell of the host reads as [bash], [-lc] and the script of
    [buildAutoDeployScript] in one word: the script that runs on the host
    is the script that would run locally. Without a remote host the script
    is handed to [bash -lc] directly. *)
Theorem runAutoDeployCommand_script (project : AutoDeployProjectConfig)
    (context : AutoDeployContext) :
  let script := buildAutoDeployScript project (ctx_branch context) in
  match remoteHost project with
  | Some host =>
      if Js.isEmpty (Js.trim host)
      then runAutoDeployCommand project context =
           {| command_file := "bash"; command_args := ["-lc"; script] |}
      else exists remote,
             runAutoDeployCommand project context =
             {| command_file := "ssh";
                command_args := ["-o"; "BatchMode=yes"; "-o"; "ConnectTimeout=10";
                                 Js.trim host; remote] |} /\
             Sh.tokens remote = Some [Sh.Word "bash"; Sh.Word "-lc"; Sh.Word script]
  | None => runAutoDeployCommand project context =
            {| command_file := "bash"; command_args := ["-lc"; script] |}
  end.
Proof.
  cbn zeta. unfold runAutoDeployCommand.
  destruct (remoteHost project) as [host|]; cbn [fmap option_fmap option_map]; [|done].
  destruct (Js.isEmpty (Js.trim host)); [done|].
  eexists. split; [done|]. unfold Sh.tokens.
  rewrite <- (string_append_empty_r
                (shellQuote (buildAutoDeployScript project (ctx_branch context)))).
  change ("bash -lc " +:+ shellQuote (buildAutoDeployScript project (ctx_branch context)) +:+ "")
    with ("bash" +:+ " " +:+ "-lc" +:+ " " +:+
          shellQuote (buildAutoDeployScript project (ctx_branch context)) +:+ "").
  read_command. reflexivity.
Qed.

(** X26. The commands that read the logs of a remote host are read by its
    shell as [tail -n], the number of lines, the path of the log in one
    word, whatever the path is, and [|| true], when the number is
    written with characters that the shell takes as they are. *)
Theorem remote_tail_commands (trackerLimit logsLimit : Z) :
  Js.isEmpty (Number_toString
                (mathMax (Num.mul (Num.ofZ trackerLimit) (Num.ofZ 5)) (Num.ofZ 100))) = false ->
  Js.all Sh.isOrdinaryChar
    (Number_toString (mathMax (Num.mul (Num.ofZ trackerLimit) (Num.ofZ 5)) (Num.ofZ 100))) = true ->
  Js.isEmpty (Number_toString (tailedLines logsLimit)) = false ->
  Js.all Sh.isOrdinaryChar (Number_toString (tailedLines logsLimit)) = true ->
  Sh.tokens (remoteTrackerCommand trackerLimit) =
    Some [Sh.Word "tail"; Sh.Word "-n";
          Sh.Word (Number_toString
                     (mathMax (Num.mul (Num.ofZ trackerLimit) (Num.ofZ 5)) (Num.ofZ 100)));
          Sh.Word remoteTrackerLogPath; Sh.Op "||"; Sh.Word "true"] /\
  Sh.tokens (remoteRequestLogsCommand logsLimit) =
    Some [Sh.Word "tail"; Sh.Word "-n"; Sh.Word (Number_toString (tailedLines logsLimit));
          Sh.Word requestLogRemotePath; Sh.Op "||"; Sh.Word "true"].
Proof.
  intros Htracker Htracker' Hlogs Hlogs'.
  unfold Sh.tokens, remoteTrackerCommand, remoteRequestLogsCommand. split.
  - set (lines := Number_toString (mathMax _ _)) in *.
    change ("tail -n " +:+ lines +:+ " " +:+ shellQuote remoteTrackerLogPath +:+ " || true")
      with ("tail" +:+ " " +:+ "-n" +:+ " " +:+ lines +:+ " " +:+
            shellQuote remoteTrackerLogPath +:+ " " +:+ "||" +:+ " " +:+ "true" +:+ "").
    read_command. reflexivity.
  - set (lines := Number_toString (tailedLines logsLimit)) in *.
    change ("tail -n " +:+ lines +:+ " " +:+ shellQuote requestLogRemotePath +:+ " || true")
      with ("tail" +:+ " " +:+ "-n" +:+ " " +:+ lines +:+ " " +:+
            shellQuote requestLogRemotePath +:+ " " +:+ "||" +:+ " " +:+ "true" +:+ "").
    read_command. reflexivity.
Qed.

End Commands.

Lemma remote_tail_commands_sample :
  Sh.tokens (@remoteTrackerCommand Demo.twoProjects 20) =
    Some [Sh.Word "tail"; Sh.Word "-n"; Sh.Word "100";
          Sh.Word "~/.runcloud-clone/deployments.jsonl"; Sh.Op "||"; Sh.Word "true"] /\
  Sh.tokens (@remoteRequestLogsCommand Demo.twoProjects 120) =
    Some [Sh.Word "tail"; Sh.Word "-n"; Sh.Word "3000";
          Sh.Word "/var/log/nginx/access.log"; Sh.Op "||"; Sh.Word "true"].
Proof.
  apply (@remote_tail_commands Demo.twoProjects 20 120); vm_compute; reflexivity.
Defined.

(** ** The limits of the other handlers *)

Section Limits.

Context {rt : Runtime}.

(** X27. The limit of the handlers of [GET /v1/deployments] and of
    [GET /v1/oauth/github/repos], whose fallback is 20, is between 1 and
    100 for every input, absent, empty or not a number. *)
Theorem deployments_and_repos_limits (limit : option string) :
  (1 <= deploymentsSafeLimit limit <= 100)%Z /\ (1 <= githubReposSafeLimit limit <= 100)%Z.
Proof.
  unfold deploymentsSafeLimit, githubReposSafeLimit.
  destruct (toSafeLimit_range_or_fallback limit 20) as [H| ->]; lia.
Qed.

End Limits.

(** ** The category of a project *)

Lemma category_char : forall c,
  negb (bool_decide ((if bool_decide (c = Json.backslash) then "/"%char else c) = Json.backslash))
  = true.
Proof. intros c. destruct c as [[] [] [] [] [] [] [] []]; reflexivity. Qed.

(** X28. The category of a path is never empty and holds no slash and no
    backslash; and the category of a path under [/var/www/projects/] is
    the name of the directory the path goes through there, for a name
    that is not empty, holds no slash and no backslash, and neither starts
    nor ends with white space. *)
Theorem deriveProjectCategory_directory (repoPath category rest : string) :
  (Js.isEmpty (deriveProjectCategory repoPath) = false /\
   Js.all (fun c => negb (bool_decide (c = "/"%char)) && negb (bool_decide (c = Json.backslash)))
     (deriveProjectCategory repoPath) = true) /\
  (Js.isEmpty category = false ->
   Js.all (fun c => negb (bool_decide (c = "/"%char))) category = true ->
   Js.all (fun c => negb (bool_decide (c = Json.backslash))) category = true ->
   Js.trim category = category ->
   deriveProjectCategory ("/var/www/projects/" +:+ category +:+ "/" +:+ rest) = category).
Proof.
  split.
  - unfold deriveProjectCategory.
    set (normalizedPath := Js.map _ (Js.trim repoPath)).
    destruct (negb (Js.startsWith "/var/www/projects/" normalizedPath)); [done|].
    set (relative := Js.drop _ normalizedPath).
    assert (Hrelative : Js.all (fun c => negb (bool_decide (c = Json.backslash))) relative = true).
    { unfold relative, normalizedPath. apply all_drop. rewrite all_map.
      erewrite all_ext; [|apply category_char]. clear. by induction (Js.trim repoPath). }
    pose proof (split_pieces "/" relative) as Hpieces.
    destruct (Js.split "/" relative) as [|piece pieces] eqn:Hsplit; [done|].
    cbn [head]. inversion Hpieces as [|? ? Hpiece _]; subst.
    assert (Hbackslash : Js.all (fun c => negb (bool_decide (c = Json.backslash))) piece = true).
    { clear Hpieces Hpiece. revert piece pieces Hsplit Hrelative. generalize relative. clear.
      induction relative as [|c relative IH]; intros piece pieces Hsplit Hrelative.
      - cbn in Hsplit. by simplify_eq.
      - cbn in Hsplit, Hrelative. apply andb_true_iff in Hrelative as [Hc Hrelative].
        destruct (bool_decide (c = "/"%char)); [by simplify_eq|].
        destruct (Js.split "/" relative) as [|w ws] eqn:E; simplify_eq; cbn.
        + by rewrite Hc.
        + rewrite Hc. by eapply IH. }
    unfold Js.orElse. destruct (Js.isEmpty (Js.trim piece)) eqn:E; [done|].
    split; [done|].
    apply all_trim in Hpiece. apply all_trim in Hbackslash.
    revert Hpiece Hbackslash. generalize (Js.trim piece). clear.
    induction s as [|c s IH]; [done|]. cbn.
    intros [-> Hs]%andb_true_iff [-> Hs']%andb_true_iff. by apply IH.
  - intros Hne Hchars Hbackslash Htrimmed. unfold deriveProjectCategory.
    assert (Htrim : Js.trim ("/var/www/projects/" +:+ category +:+ "/" +:+ rest) =
                    "/var/www/projects/" +:+ category +:+ "/" +:+ Js.trimEnd rest).
    { change ("/var/www/projects/" +:+ category +:+ "/" +:+ rest)
        with ("/var/www/projects" +:+ String "/" (category +:+ String "/" rest)).
      rewrite trim_visible_append by done.
      by rewrite trimEnd_append_visible. }
    rewrite Htrim, !map_append.
    change (Js.map _ "/var/www/projects/") with "/var/www/projects/".
    change (Js.map (fun c => if bool_decide (c = Json.backslash) then "/"%char else c) "/")
      with "/".
    rewrite (all_map_id (fun c => negb (bool_decide (c = Json.backslash))) _ category);
      [|intros c Hc; apply negb_true_iff in Hc; by rewrite Hc|done].
    rewrite startsWith_append_same. cbn [negb].
    rewrite drop_length_append.
    change ("/" +:+ Js.map ?f (Js.trimEnd rest)) with (String "/" (Js.map f (Js.trimEnd rest))).
    rewrite split_head by done. cbn [head].
    rewrite Htrimmed. unfold Js.orElse. by rewrite Hne.
Qed.

Lemma deriveProjectCategory_directory_sample :
  deriveProjectCategory "/var/www/projects/cab-services/kani-taxi" = "cab-services".
Proof.
  exact (proj2 (deriveProjectCategory_directory "" "cab-services" "kani-taxi")
           eq_refl eq_refl eq_refl eq_refl).
Defined.

(** The white space around the name of the directory is that of
    JavaScript: a no-break space after the name is no part of the
    category. *)
Example deriveProjectCategory_no_break_space :
  deriveProjectCategory ("/var/www/projects/a" +:+ Js.ofBytes [194; 160] +:+ "/x") = "a".
Proof. vm_compute. reflexivity. Qed.

